(** * Market-data plugins: persistent store, fetchers, sync controller,
      enrichment queue and analytics queries

    A shallow embedding of the TypeScript sources:
    - [Adapter]    : adapter-marketdatabase (MarketDatabaseAdapter, schema.sql)
    - [BaseMarket] : plugin-base-market (MarketDataService)
    - [TokenInfo]  : plugin-base-market (TokenInfoService)
    - [CoinGecko]  : plugin-coingecko (MarketDataService)
    - [CoingeckoService] : plugin-coingecko (CoingeckoService)

    Conventions.  JavaScript numbers and SQL REAL values are rationals
    ([Q]); the arithmetic of the SQL queries is carried out on them, and
    the rounding of IEEE doubles is not modelled there.  The value that
    the adapter computes in JavaScript, [volume_change] of a price mover,
    is computed in IEEE 754 binary64 ([float]), with its rounding.  A
    thrown JavaScript exception is the [Throw] result.  Asynchronous waits ([setTimeout]) and
    outbound requests are recorded as events of a trace, oldest first. *)

From Stdlib Require Import QArith Qabs Qround.
From Stdlib Require Import PrimFloat.
From Stdlib Require FloatOps SpecFloat.
From stdpp Require Import gmap strings list sorting.

Set Default Proof Using "Type".

(** * Part I: the model *)

(** ** Results of fallible calls *)

Inductive Result (A : Type) : Type :=
| Ok (a : A)
| Throw (message : string).
Arguments Ok {A} a.
Arguments Throw {A} message.

Definition isOk {A} (r : Result A) : bool :=
  match r with Ok _ => true | Throw _ => false end.

(** ** Effects

    The trace of a run lists, oldest first, the waits it awaited, the
    outbound requests it issued and the queue operations it performed. *)

Inductive Event :=
| Sleep (ms : Z)                                      (* await setTimeout *)
| MarketsRequest (category : string) (page : option nat) (* GET /coins/markets *)
| CoinRequest (tokenId : string)                      (* GET /coins/{id} *)
| Shift (tokenId : string)                            (* requestQueue.shift() *)
| Unshift (tokenId : string).                         (* requestQueue.unshift(id) *)

Definition Trace := list Event.

Definition isRequest (e : Event) : bool :=
  match e with MarketsRequest _ _ | CoinRequest _ => true | _ => false end.

Definition isSleep (e : Event) : bool :=
  match e with Sleep _ => true | _ => false end.

Definition countWhere (f : Event -> bool) (trace : Trace) : nat :=
  length (List.filter f trace).

(** ** SQL helpers *)

Definition Qltb (x y : Q) : bool := negb (Qle_bool y x).

(** [a / b] in SQL: division by zero yields NULL. *)
Definition sqlDiv (a b : Q) : option Q :=
  if Qeq_bool b 0 then None else Some (a / b)%Q.

(** [ABS(x)] *)
Definition sqlAbs (x : option Q) : option Q := Qabs <$> x.

(** [x >= c] as a WHERE condition: NULL is not true. *)
Definition sqlGe (x : option Q) (c : Q) : bool :=
  match x with Some v => Qle_bool c v | None => false end.

(** [x > c] as a WHERE or CASE condition: NULL is not true. *)
Definition sqlGt (x : option Q) (c : Q) : bool :=
  match x with Some v => Qltb c v | None => false end.

(** The order of [ORDER BY key DESC]: [keyGt a b] when [a] sorts strictly
    before [b]; NULL is the smallest value. *)
Definition keyGt (a b : option Q) : bool :=
  match a, b with
  | Some x, Some y => Qltb y x
  | Some _, None => true
  | None, _ => false
  end.

(** [ORDER BY key DESC].  SQL leaves the order of rows with equal keys to
    the engine; here they keep the order of the input. *)
Fixpoint insertDesc {A} (key : A -> option Q) (x : A) (l : list A) : list A :=
  match l with
  | [] => [x]
  | y :: l' =>
      if keyGt (key y) (key x) then y :: insertDesc key x l' else x :: y :: l'
  end.

Definition orderByDesc {A} (key : A -> option Q) (l : list A) : list A :=
  foldr (insertDesc key) [] l.

(** [a] sorts no later than [b]. *)
Definition noLater {A} (key : A -> option Q) (a b : A) : Prop :=
  keyGt (key b) (key a) = false.

(** [LIMIT n]: a negative limit is no limit. *)
Definition sqlLimit {A} (n : Z) (l : list A) : list A :=
  if (n <? 0)%Z then l else take (Z.to_nat n) l.

(** ** The better-sqlite3 connection

    [db.transaction(fn)] runs BEGIN, then [fn]; when [fn] returns it runs
    COMMIT, when [fn] throws it runs ROLLBACK and re-throws.  The journal
    holds the tables as they were at BEGIN. *)

Module Sqlite.
Section Connection.
Context {T : Type}.

Record Connection := { tables : T; journal : option T }.

Definition open (t : T) : Connection := {| tables := t; journal := None |}.

Definition begin (c : Connection) : Connection :=
  {| tables := tables c; journal := Some (tables c) |}.

Definition commit (c : Connection) : Connection :=
  {| tables := tables c; journal := None |}.

Definition rollback (c : Connection) : Connection :=
  {| tables := default (tables c) (journal c); journal := None |}.

(** Statements change the tables only: the journal belongs to the
    engine. *)
Definition exec {A} (fn : T -> T * Result A) (c : Connection)
  : Connection * Result A :=
  let '(t, r) := fn (tables c) in
  ({| tables := t; journal := journal c |}, r).

Definition transaction {A} (fn : T -> T * Result A) (c : Connection)
  : Connection * Result A :=
  let '(c1, r) := exec fn (begin c) in
  match r with
  | Ok a => (commit c1, Ok a)
  | Throw e => (rollback c1, Throw e)
  end.

End Connection.
Arguments Connection : clear implicits.
End Sqlite.

(** ** adapter-marketdatabase *)

Module Adapter.

(** A timestamp of the [timestamp] column is the text of [toISOString],
    [YYYY-MM-DDTHH:MM:SS.sssZ], represented by the instant it denotes
    (milliseconds since the epoch, within the years 0000 to 9999); the
    timestamp that an item carries is taken to have this form too.
    Between two such texts the lexicographic order is the order of the
    instants. *)
Definition Timestamp := Z.

(** [MarketData] of types.ts.  TypeScript types are erased at run time and
    the values are parsed JSON: [None] in a [number] field is a [null] that
    reaches the adapter; [None] in [timestamp] is an empty (falsy) string.
    [own_coin_id] is the object's property [coin_id], which the interface
    does not declare: [None] when the object has no such property. *)
Record MarketData := {
  own_coin_id : option string;
  id : string;
  symbol : string;
  name : string;
  current_price : option Q;
  market_cap : option Q;
  total_volume : option Q;
  market_cap_rank : option Q;
  price_change_percentage_1h : option Q;
  price_change_percentage_24h : option Q;
  price_change_percentage_7d : option Q;
  price_change_percentage_14d : option Q;
  price_change_percentage_30d : option Q;
  timestamp : option Timestamp
}.

(** Rows of schema.sql. *)
Record CoinRow := { coin_symbol : string; coin_name : string }.

Record CategoryRow := { category_name : string; category_description : string }.

Record MarketDataRow := {
  row_id : Z;                          (* INTEGER PRIMARY KEY AUTOINCREMENT *)
  coin_id : string;                    (* NOT NULL, REFERENCES coins(id) *)
  row_current_price : Q;               (* REAL NOT NULL *)
  row_market_cap : Q;                  (* REAL NOT NULL *)
  row_total_volume : Q;                (* REAL NOT NULL *)
  row_market_cap_rank : option Q;
  row_price_change_percentage_1h : option Q;
  row_price_change_percentage_24h : option Q;
  row_price_change_percentage_7d : option Q;
  row_price_change_percentage_14d : option Q;
  row_price_change_percentage_30d : option Q;
  row_timestamp : Timestamp;           (* NOT NULL *)
  row_data_source : string             (* NOT NULL DEFAULT 'coingecko' *)
}.

Record Tables := {
  coins : gmap string CoinRow;                 (* id is the primary key *)
  token_categories : gmap string CategoryRow;  (* id is the primary key *)
  coin_categories : list (string * string);    (* (coin_id, category_id) *)
  market_data : list MarketDataRow;            (* in rowid order *)
  market_data_seq : Z                          (* sqlite_sequence *)
}.

Definition Database := Sqlite.Connection Tables.

Definition emptyTables : Tables :=
  {| coins := ∅; token_categories := ∅; coin_categories := [];
     market_data := []; market_data_seq := 0 |}.

(** [INSERT OR IGNORE INTO coins (id, symbol, name)]: a row whose id is
    taken is skipped. *)
Definition insertCoin (item : MarketData) (t : Tables) : Tables :=
  match coins t !! id item with
  | Some _ => t
  | None =>
      {| coins := <[id item := {| coin_symbol := symbol item;
                                  coin_name := name item |}]> (coins t);
         token_categories := token_categories t;
         coin_categories := coin_categories t;
         market_data := market_data t;
         market_data_seq := market_data_seq t |}
  end.

(** [INSERT INTO market_data (...)], a plain INSERT, run on
    [{ ...item, timestamp }].  better-sqlite3 binds each named parameter
    from the property of that name: [@coin_id] from the item's own
    [coin_id] (the item's [id] is not among the parameters), and refuses an
    object that lacks one.  Then the NOT NULL columns and the foreign key
    are checked; the key is the next rowid. *)
Definition insertMarketData (now : Timestamp) (item : MarketData) (t : Tables)
  : Result Tables :=
  match own_coin_id item with
  | None => Throw "Missing named parameter"
  | Some coin =>
      match current_price item, market_cap item, total_volume item with
      | Some price, Some cap, Some volume =>
          match coins t !! coin with
          | None => Throw "FOREIGN KEY constraint failed"
          | Some _ =>
              let rowid := (market_data_seq t + 1)%Z in
              Ok {| coins := coins t;
                    token_categories := token_categories t;
                    coin_categories := coin_categories t;
                    market_data := market_data t ++
                      [ {| row_id := rowid;
                           coin_id := coin;
                           row_current_price := price;
                           row_market_cap := cap;
                           row_total_volume := volume;
                           row_market_cap_rank := market_cap_rank item;
                           row_price_change_percentage_1h :=
                             price_change_percentage_1h item;
                           row_price_change_percentage_24h :=
                             price_change_percentage_24h item;
                           row_price_change_percentage_7d :=
                             price_change_percentage_7d item;
                           row_price_change_percentage_14d :=
                             price_change_percentage_14d item;
                           row_price_change_percentage_30d :=
                             price_change_percentage_30d item;
                           (* item.timestamp || new Date().toISOString() *)
                           row_timestamp := default now (timestamp item);
                           row_data_source := "coingecko" |} ];
                    market_data_seq := rowid |}
          end
      | _, _, _ => Throw "NOT NULL constraint failed"
      end
  end.

(** The body of the transaction in [storeMarketData]: for each item the
    coin, then the snapshot.  A throwing statement ends the loop with the
    earlier writes still in the tables. *)
Fixpoint storeItems (now : Timestamp) (items : list MarketData) (t : Tables)
  : Tables * Result unit :=
  match items with
  | [] => (t, Ok tt)
  | item :: rest =>
      let t1 := insertCoin item t in
      match insertMarketData now item t1 with
      | Ok t2 => storeItems now rest t2
      | Throw e => (t1, Throw e)
      end
  end.

Definition storeMarketData (now : Timestamp) (data : list MarketData)
  (db : Database) : Database * Result unit :=
  Sqlite.transaction (storeItems now data) db.

(** [initializeDefaultCategories()]:
    [INSERT OR IGNORE INTO token_categories], in one transaction. *)
Definition insertCategory (cid : string) (row : CategoryRow) (t : Tables) : Tables :=
  match token_categories t !! cid with
  | Some _ => t
  | None =>
      {| coins := coins t;
         token_categories := <[cid := row]> (token_categories t);
         coin_categories := coin_categories t;
         market_data := market_data t;
         market_data_seq := market_data_seq t |}
  end.

Definition initializeDefaultCategories (db : Database) : Database :=
  (Sqlite.transaction (fun t =>
     (insertCategory "base-meme-coins"
        {| category_name := "Base Meme Coins";
           category_description := "Meme tokens on the Base network" |}
        (insertCategory "base-ecosystem"
           {| category_name := "Base Ecosystem";
              category_description := "Tokens native to the Base ecosystem" |} t),
      Ok tt)) db).1.

(** [assignCategoryToToken(coinId, categoryId)]:
    [INSERT OR IGNORE INTO coin_categories]; a pair that is present is
    skipped, a missing parent row violates a foreign key. *)
Definition assignCategoryToToken (coinId categoryId : string) (db : Database)
  : Database * Result unit :=
  Sqlite.exec (fun t =>
    if bool_decide ((coinId, categoryId) ∈ coin_categories t) then (t, Ok tt)
    else if bool_decide (is_Some (coins t !! coinId)
                         /\ is_Some (token_categories t !! categoryId))
    then ({| coins := coins t;
             token_categories := token_categories t;
             coin_categories := coin_categories t ++ [(coinId, categoryId)];
             market_data := market_data t;
             market_data_seq := market_data_seq t |}, Ok tt)
    else (t, Throw "FOREIGN KEY constraint failed")) db.

(** [Category] of types.ts.  [description] is optional: [None] when the
    object has no such property. *)
Record Category := {
  cat_id : string;
  cat_name : string;
  cat_description : option string
}.

(** [addCategory(category)]: a plain [INSERT INTO token_categories (id,
    name, description)] bound from the object itself.  An object without
    [description] leaves [@description] unbound; an id that is taken
    violates the primary key. *)
Definition addCategory (category : Category) (db : Database)
  : Database * Result unit :=
  Sqlite.exec (fun t =>
    match cat_description category with
    | None => (t, Throw "Missing named parameter")
    | Some description =>
        match token_categories t !! cat_id category with
        | Some _ => (t, Throw "UNIQUE constraint failed: token_categories.id")
        | None =>
            ({| coins := coins t;
                token_categories :=
                  <[cat_id category := {| category_name := cat_name category;
                                          category_description := description |}]>
                    (token_categories t);
                coin_categories := coin_categories t;
                market_data := market_data t;
                market_data_seq := market_data_seq t |}, Ok tt)
        end
    end) db.

(** One day, in milliseconds. *)
Definition DAY : Z := 86400000.

(** The UTC calendar day of an instant, counted from the epoch: the day
    that the first ten characters [YYYY-MM-DD] of its text name. *)
Definition dayOf (ts : Timestamp) : Z := (ts `div` DAY)%Z.

(** [datetime('now', '-' || N || ' days')]: a text [YYYY-MM-DD HH:MM:SS],
    represented by its instant, [N] days before now.  For a negative [N]
    the modifier reads ['--N days'], which SQLite does not accept: the
    value is NULL. *)
Definition daysBefore (now : Timestamp) (days : Z) : option Timestamp :=
  if (days <? 0)%Z then None else Some (now - days * DAY)%Z.

(** [timestamp < cutoff] and [timestamp >= cutoff], the column against a
    value of [datetime()].  SQLite compares the two texts: the first ten
    characters are the dates; on the same date the eleventh character is
    ['T'] in the column and a space in the cutoff, so the column's text is
    the greater whatever the times of day.  Against NULL neither
    condition is true. *)
Definition textLt (ts : Timestamp) (cutoff : option Timestamp) : bool :=
  match cutoff with
  | Some c => (dayOf ts <? dayOf c)%Z
  | None => false
  end.

Definition textGe (ts : Timestamp) (cutoff : option Timestamp) : bool :=
  match cutoff with
  | Some c => (dayOf c <=? dayOf ts)%Z
  | None => false
  end.

(** [cleanOldData(retentionDays)], for a whole number of days:
    [DELETE FROM market_data
     WHERE timestamp < datetime('now', '-' || ? || ' days')].
    The result is the number of rows removed ([result.changes]), which
    the method logs. *)
Definition cleanOldData (now : Timestamp) (retentionDays : Z) (db : Database)
  : Database * Result nat :=
  Sqlite.exec (fun t =>
    let keep := List.filter
      (fun m => negb (textLt (row_timestamp m) (daysBefore now retentionDays)))
      (market_data t) in
    ({| coins := coins t;
        token_categories := token_categories t;
        coin_categories := coin_categories t;
        market_data := keep;
        market_data_seq := market_data_seq t |},
     Ok (length (market_data t) - length keep)%nat)) db.

(** *** getMarketAnalysis *)

Inductive MarketTimeframe := TF_24h | TF_7d | TF_30d.

Record MarketAnalysisParams := {
  timeframe : MarketTimeframe;
  category : option string;
  limit : option Z
}.

Record VolumeLeader := {
  vl_name : string;
  vl_symbol : string;
  vl_volume_change : option Q;         (* NULL when the divisor is 0 *)
  vl_price_change : option Q
}.

Record PriceMoverRow := {
  pmr_name : string;
  pmr_symbol : string;
  pmr_price_change : option Q;
  pmr_volume : Q
}.

Record PriceMover := {
  pm_name : string;
  pm_symbol : string;
  pm_price_change : option Q;
  pm_volume_change : float             (* computed in JavaScript *)
}.

Record MarketAnalysis := {
  volumeLeaders : list VolumeLeader;
  priceMovers : list PriceMover
}.

(** [params.timeframe === '24h' ? (params.limit || 5) : (params.limit || 10)] *)
Definition effectiveLimit (params : MarketAnalysisParams) : Z :=
  let fallback := match timeframe params with TF_24h => 5 | _ => 10 end%Z in
  match limit params with
  | Some n => if (n =? 0)%Z then fallback else n
  | None => fallback
  end.

(** [params.category ? 'AND cc.category_id = ?' : '']: an empty string is
    falsy and filters nothing. *)
Definition categoryFilter (params : MarketAnalysisParams) : option string :=
  match category params with
  | Some c => if String.eqb c "" then None else Some c
  | None => None
  end.

Definition categoryMatches (filter : option string) (category_id : string) : bool :=
  match filter with
  | Some c => String.eqb category_id c
  | None => true
  end.

(** The rows of [coin_categories] joined to a coin that pass the filter. *)
Definition categoryLinks (filter : option string) (coin : string) (t : Tables)
  : list (string * string) :=
  List.filter
    (fun cc => String.eqb coin (fst cc) && categoryMatches filter (snd cc))
    (coin_categories t).

(** The CTE [recent]:
    [WHERE timestamp >= datetime('now', '-1 day')
     ORDER BY timestamp DESC LIMIT 1].
    The rows are read backwards through the index on [timestamp]
    (idx_market_data_timestamp of schema.sql), whose entries of one
    timestamp are in rowid order: of the rows that carry the newest
    timestamp the last inserted one is the result. *)
Definition recent (now : Timestamp) (t : Tables) : option MarketDataRow :=
  head (orderByDesc (fun m => Some (inject_Z (row_timestamp m)))
          (reverse
             (List.filter (fun m => textGe (row_timestamp m) (daysBefore now 1))
                (market_data t)))).

(** [((r.x - m.x) / m.x * 100)] *)
Definition pctChange (r m : Q) : option Q :=
  (fun q => q * 100)%Q <$> sqlDiv (r - m)%Q m.

(** The rows in the order of the index on (coin_id, timestamp)
    (idx_market_data_coin_timestamp of schema.sql), for one coin: oldest
    first, the rows of one timestamp in rowid order. *)
Definition oldestFirst (rows : list MarketDataRow) : list MarketDataRow :=
  orderByDesc (fun m => Some (inject_Z (- row_timestamp m))) rows.

(** The join of the volume-leaders query against the one row [r] of
    [recent]: every [m] with
    [m.timestamp >= datetime('now', '-2 days')] and
    [m.coin_id = r.coin_id], its coin and each of the coin's category
    links that pass the filter.  The rows [m] of the coin are read through
    the index on (coin_id, timestamp). *)
Definition volumeLeadersJoin (r : MarketDataRow) (now : Timestamp)
  (filter : option string) (t : Tables) : list VolumeLeader :=
  flat_map (fun m =>
    if textGe (row_timestamp m) (daysBefore now 2)
       && String.eqb (coin_id m) (coin_id r)
    then match coins t !! coin_id m with
         | Some c =>
             map (fun _ =>
                    {| vl_name := coin_name c;
                       vl_symbol := coin_symbol c;
                       vl_volume_change :=
                         pctChange (row_total_volume r) (row_total_volume m);
                       vl_price_change :=
                         pctChange (row_current_price r) (row_current_price m) |})
                 (categoryLinks filter (coin_id m) t)
         | None => []
         end
    else []) (oldestFirst (market_data t)).

Definition volumeLeadersRaw (now : Timestamp) (params : MarketAnalysisParams)
  (t : Tables) : list VolumeLeader :=
  match recent now t with
  | Some r =>
      sqlLimit (effectiveLimit params)
        (orderByDesc vl_volume_change
           (volumeLeadersJoin r now (categoryFilter params) t))
  | None => []
  end.

(** [SELECT MAX(timestamp) FROM market_data] *)
Definition maxTimestamp (t : Tables) : option Timestamp :=
  foldr (fun m acc => Some (match acc with
                            | Some ts => Z.max (row_timestamp m) ts
                            | None => row_timestamp m
                            end)) None (market_data t).

Definition priceMoversJoin (filter : option string) (t : Tables)
  : list PriceMoverRow :=
  flat_map (fun m =>
    if bool_decide (maxTimestamp t = Some (row_timestamp m))
    then match coins t !! coin_id m with
         | Some c =>
             map (fun _ =>
                    {| pmr_name := coin_name c;
                       pmr_symbol := coin_symbol c;
                       pmr_price_change := row_price_change_percentage_24h m;
                       pmr_volume := row_total_volume m |})
                 (categoryLinks filter (coin_id m) t)
         | None => []
         end
    else []) (market_data t).

Definition priceMoversRaw (params : MarketAnalysisParams) (t : Tables)
  : list PriceMoverRow :=
  sqlLimit (effectiveLimit params)
    (orderByDesc (fun row => sqlAbs (pmr_price_change row))
       (priceMoversJoin (categoryFilter params) t)).

(** The double nearest to an integer (ties to even). *)
Definition Z2double (z : Z) : float :=
  FloatOps.SF2Prim
    (SpecFloat.binary_normalize FloatOps.prec FloatOps.emax z 0 false).

(** The JavaScript number that a REAL value is read as.  A REAL column
    holds a double.  Where numerator and denominator of the rational that
    stands for it are doubles themselves (as integers up to 2^53 are),
    their quotient is rounded once, to the double nearest to the rational:
    a rational that is a double converts back to it, and one that is not,
    such as 7/100, gives the double nearest to it, as its decimal text
    does when it is read. *)
Definition toDouble (q : Q) : float :=
  (Z2double (Qnum q) / Z2double (Zpos (Qden q)))%float.

(** [volume_change: ((row.volume / 100) - 1) * 100], three operations on
    doubles, each rounded. *)
Definition toPriceMover (row : PriceMoverRow) : PriceMover :=
  {| pm_name := pmr_name row;
     pm_symbol := pmr_symbol row;
     pm_price_change := pmr_price_change row;
     pm_volume_change := (((toDouble (pmr_volume row) / 100) - 1) * 100)%float |}.

Definition getMarketAnalysis (now : Timestamp) (params : MarketAnalysisParams)
  (db : Database) : MarketAnalysis :=
  {| volumeLeaders := volumeLeadersRaw now params (Sqlite.tables db);
     priceMovers := map toPriceMover (priceMoversRaw params (Sqlite.tables db)) |}.

(** *** Vocabulary of the statements *)

(** The INSERT of the item's snapshot cannot succeed: a named parameter
    is missing or a NOT NULL column would be null. *)
Definition rejected (item : MarketData) : Prop :=
  own_coin_id item = None \/ current_price item = None
  \/ market_cap item = None \/ total_volume item = None.

(** The row is the snapshot of the item: its asset and its instant. *)
Definition snapshotOf (now : Timestamp) (row : MarketDataRow) (item : MarketData)
  : Prop :=
  own_coin_id item = Some (coin_id row)
  /\ row_timestamp row = default now (timestamp item).

(** The logical key of a snapshot: the asset and the instant.  (The table
    has no category column.) *)
Definition rowKey (m : MarketDataRow) : string * Timestamp :=
  (coin_id m, row_timestamp m).

(** *** Fixtures *)

Definition snapshot (i sym nm : string) (price volume : Q) (ts : Timestamp)
  : MarketData :=
  {| own_coin_id := Some i; id := i; symbol := sym; name := nm;
     current_price := Some price; market_cap := Some 10000000%Q;
     total_volume := Some volume; market_cap_rank := None;
     price_change_percentage_1h := None;
     price_change_percentage_24h := None;
     price_change_percentage_7d := None;
     price_change_percentage_14d := None;
     price_change_percentage_30d := None;
     timestamp := Some ts |}.

Definition T0 : Timestamp := 1700000000000%Z.
Definition T1 : Timestamp := (T0 + DAY)%Z.

Definition freshDb : Database :=
  initializeDefaultCategories (Sqlite.open emptyTables).

(** Two coins of one category, each with a snapshot at [T0] and one a day
    later, the one of [aaa] a second after the one of [bbb], so that it is
    the newest row of the table.  (The fixture snapshots carry a [coin_id]
    equal to their [id].) *)
Definition twoCoinsDb : Database :=
  let db1 := (storeMarketData T0
                [snapshot "aaa" "aaa" "AAA" 1 100 T0;
                 snapshot "bbb" "bbb" "BBB" 2 1000 T0] freshDb).1 in
  let db2 := (storeMarketData T1
                [snapshot "bbb" "bbb" "BBB" 3 1500 T1;
                 snapshot "aaa" "aaa" "AAA" 2 300 (T1 + 1000)%Z] db1).1 in
  let db3 := (assignCategoryToToken "aaa" "base-ecosystem" db2).1 in
  (assignCategoryToToken "bbb" "base-ecosystem" db3).1.

(** One coin of one category with a single snapshot, of the given total
    volume. *)
Definition oneCoinDb (volume : Q) : Database :=
  let db1 := (storeMarketData T0
                [snapshot "aaa" "aaa" "AAA" 1 volume T0] freshDb).1 in
  (assignCategoryToToken "aaa" "base-ecosystem" db1).1.

(** A snapshot whose price is null. *)
Definition nullPrice (i : string) (ts : Timestamp) : MarketData :=
  {| own_coin_id := Some i; id := i; symbol := i; name := i;
     current_price := None; market_cap := Some 10000000%Q;
     total_volume := Some 1%Q; market_cap_rank := None;
     price_change_percentage_1h := None;
     price_change_percentage_24h := None;
     price_change_percentage_7d := None;
     price_change_percentage_14d := None;
     price_change_percentage_30d := None;
     timestamp := Some ts |}.

End Adapter.

(** ** plugin-base-market: MarketDataService *)

Module BaseMarket.

(** A record of the API response is a JavaScript object ([any]). *)
Inductive JsValue :=
| JsNull
| JsNum (n : Q)
| JsStr (s : string)
| JsOther.                     (* booleans, arrays, nested objects *)

Abbreviation Token := (gmap string JsValue).

Inductive SqlValue :=
| SqlNull
| SqlReal (x : Q)
| SqlText (s : string).

(** A row of [base_market_data]: column name to value. *)
Abbreviation Row := (gmap string SqlValue).

(** Rows of [base_token_info] (tokenInfoSchema), keyed by the primary key
    [id]; the columns the analytics read. *)
Record TokenInfoRow := {
  ti_symbol : option string;
  ti_name : option string;
  ti_asset_platform_id : option string
}.

Record Tables := {
  base_market_data : list Row;                 (* in rowid order *)
  base_token_info : gmap string TokenInfoRow
}.

Definition Database := Sqlite.Connection Tables.

(** The named parameters of the INSERT statement of [storeMarketData]. *)
Definition columns : list string :=
  [ "id"; "symbol"; "name"; "image"; "current_price"; "market_cap";
    "market_cap_rank"; "fully_diluted_valuation"; "total_volume";
    "high_24h"; "low_24h"; "price_change_24h"; "price_change_percentage_24h";
    "market_cap_change_24h"; "market_cap_change_percentage_24h";
    "circulating_supply"; "total_supply"; "max_supply"; "ath";
    "ath_change_percentage"; "ath_date"; "atl"; "atl_change_percentage";
    "atl_date"; "last_updated"; "price_change_percentage_1h_in_currency";
    "price_change_percentage_24h_in_currency";
    "price_change_percentage_7d_in_currency";
    "price_change_percentage_14d_in_currency";
    "price_change_percentage_30d_in_currency";
    "price_change_percentage_200d_in_currency"; "category"; "timestamp" ].

(** Binding one named parameter: the property must be present and be a
    number, a string or null. *)
Definition bindValue (v : option JsValue) : Result SqlValue :=
  match v with
  | None => Throw "Missing named parameter"
  | Some JsNull => Ok SqlNull
  | Some (JsNum n) => Ok (SqlReal n)
  | Some (JsStr s) => Ok (SqlText s)
  | Some JsOther =>
      Throw "SQLite3 can only bind numbers, strings, bigints, buffers, and null"
  end.

Fixpoint bindColumns (cols : list string) (token : Token) : Result Row :=
  match cols with
  | [] => Ok ∅
  | c :: cols' =>
      match bindValue (token !! c) with
      | Throw e => Throw e
      | Ok v =>
          match bindColumns cols' token with
          | Throw e => Throw e
          | Ok row => Ok (<[c := v]> row)
          end
      end
  end.

Section Store.

(** The schema of [base_market_data] (schema.ts) is not among the sources.
    [conflicts row rows] stands for its constraints: whether inserting
    [row] next to [rows] violates one of them (uniqueness, NOT NULL,
    CHECK), which INSERT OR IGNORE answers by skipping the row. *)
Variable conflicts : Row -> list Row -> bool.

(** [stmt.run(token)] for [INSERT OR IGNORE INTO base_market_data]. *)
Definition runInsert (token : Token) (t : Tables) : Result Tables :=
  match bindColumns columns token with
  | Throw e => Throw e
  | Ok row =>
      Ok (if conflicts row (base_market_data t) then t
          else {| base_market_data := base_market_data t ++ [row];
                  base_token_info := base_token_info t |})
  end.

(** The body of the transaction: the catch around [stmt.run] logs and
    re-throws. *)
Fixpoint insertTokens (tokens : list Token) (t : Tables) : Tables * Result unit :=
  match tokens with
  | [] => (t, Ok tt)
  | token :: rest =>
      match runInsert token t with
      | Ok t' => insertTokens rest t'
      | Throw e => (t, Throw e)
      end
  end.

(** [storeMarketData]: the catch around [transaction(data)] logs and
    re-throws. *)
Definition storeMarketData (data : list Token) (db : Database)
  : Database * Result unit :=
  Sqlite.transaction (insertTokens data) db.

(** *** fetchMarketData *)

Inductive PageResponse :=
| PageData (data : list Token)          (* 2xx, the body is an array *)
| PageInvalid                           (* 2xx, the body is not an array *)
| PageError (message : string).         (* axios rejects *)

(** The upstream API: the response to a request for a category and a
    page. *)
Definition Upstream := string -> nat -> PageResponse.

Inductive FetchOutcome :=
| Fetched (allTokens : list Token)
| InvalidFormat
| Failed (message : string).

Definition PER_PAGE : nat := 250.
Definition PAGE_DELAY : Z := 1100.

(** The [while (hasMoreData)] loop; [None] when the fuel runs out. *)
Fixpoint fetchPages (upstream : Upstream) (category : string) (fuel : nat)
  (currentPage : nat) (allTokens : list Token) (trace : Trace)
  : option (FetchOutcome * Trace) :=
  match fuel with
  | O => None
  | S fuel' =>
      let trace1 := trace ++ [MarketsRequest category (Some currentPage)] in
      match upstream category currentPage with
      | PageError message => Some (Failed message, trace1)
      | PageInvalid => Some (InvalidFormat, trace1)
      | PageData data =>
          let allTokens' := allTokens ++ data in
          if (length data <? PER_PAGE)%nat
          then Some (Fetched allTokens', trace1)
          else fetchPages upstream category fuel' (S currentPage) allTokens'
                 (trace1 ++ [Sleep PAGE_DELAY])
      end
  end.

Record MarketDataResponse := {
  success : bool;
  data : option (list Token);
  error : option string
}.

Definition failure (message : string) : MarketDataResponse :=
  {| success := false; data := None; error := Some message |}.

Record Service := { db : Database; apiKey : option string }.

(** [{ ...token, category, timestamp }] *)
Definition tag (category : string) (timestamp : Z) (token : Token) : Token :=
  <["timestamp" := JsNum (inject_Z timestamp)]>
    (<["category" := JsStr category]> token).

(** [now] is [Date.now()] (milliseconds) when the pagination is over. *)
Definition fetchMarketData (upstream : Upstream) (fuel : nat) (now : Z)
  (category : string) (svc : Service)
  : option (Service * MarketDataResponse * Trace) :=
  match apiKey svc with
  | None => Some (svc, failure "API key not initialized", [])
  | Some _ =>
      match fetchPages upstream category fuel 1 [] [] with
      | None => None
      | Some (Failed message, trace) => Some (svc, failure message, trace)
      | Some (InvalidFormat, trace) =>
          Some (svc, failure "Invalid response format", trace)
      | Some (Fetched allTokens, trace) =>
          let timestamp := (now `div` 1000)%Z in
          let data := map (tag category timestamp) allTokens in
          match storeMarketData data (db svc) with
          | (db', Ok _) =>
              Some ({| db := db'; apiKey := apiKey svc |},
                    {| success := true; data := Some data; error := None |},
                    trace)
          | (db', Throw e) =>
              Some ({| db := db'; apiKey := apiKey svc |},
                    failure ("Database error: " +:+ e), trace)
          end
      end
  end.

End Store.

(** *** getNotableMovers *)

Section Analytics.

(** SQL's [LOG10], an idealised function on the rationals. *)
Variable LOG10 : Q -> Q.

(** Reading a column.  The numeric columns hold the API's numbers or NULL;
    a text stored in one of them reads as NULL here. *)
Definition realCol (column : string) (row : Row) : option Q :=
  match row !! column with
  | Some (SqlReal x) => Some x
  | _ => None
  end.

Definition textCol (column : string) (row : Row) : option string :=
  match row !! column with
  | Some (SqlText s) => Some s
  | _ => None
  end.

(** [SELECT MAX(timestamp) FROM base_market_data] *)
Definition maxTimestamp (rows : list Row) : option Q :=
  foldr (fun row acc =>
           match realCol "timestamp" row, acc with
           | Some x, Some y => Some (if Qle_bool x y then y else x)
           | Some x, None => Some x
           | None, _ => acc
           end) None rows.

(** [x = y] as a WHERE condition. *)
Definition sqlEq (x y : option Q) : bool :=
  match x, y with
  | Some a, Some b => Qeq_bool a b
  | _, _ => false
  end.

(** [CASE WHEN x > 1 THEN x ELSE 1 END] *)
Definition atLeastOne (x : option Q) : Q :=
  match x with
  | Some v => if Qltb 1 v then v else 1%Q
  | None => 1%Q
  end.

(** [change * LOG10(...market_cap...) * LOG10(...total_volume...)] *)
Definition movementScore (change cap volume : option Q) : option Q :=
  (fun c => c * LOG10 (atLeastOne cap) * LOG10 (atLeastOne volume))%Q <$> change.

Record Metric := {
  m_id : string;
  m_name : option string;
  m_symbol : option string;
  m_current_price : option Q;
  m_market_cap : option Q;
  m_total_volume : option Q;
  m_price_change_percentage_24h : option Q;
  m_price_change_percentage_7d : option Q;
  m_movement_score_24h : option Q;
  m_movement_score_7d : option Q
}.

Definition MIN_MARKET_CAP : Q := 5000000.
Definition MIN_VOLUME : Q := 300000.
Definition MIN_CHANGE : Q := 5.

(** One row of the CTE [base_native_metrics], when the row of
    [base_market_data] joins a row of [base_token_info] and passes the
    WHERE clause. *)
Definition metricOf (t : Tables) (bmd : Row) : option Metric :=
  match textCol "id" bmd with
  | None => None
  | Some i =>
      match base_token_info t !! i with
      | None => None
      | Some bti =>
          let cap := realCol "market_cap" bmd in
          let volume := realCol "total_volume" bmd in
          let change24 := realCol "price_change_percentage_24h" bmd in
          let change7 := realCol "price_change_percentage_7d_in_currency" bmd in
          if sqlEq (realCol "timestamp" bmd) (maxTimestamp (base_market_data t))
             && bool_decide (ti_asset_platform_id bti = Some "base")
             && sqlGe cap MIN_MARKET_CAP
             && sqlGe volume MIN_VOLUME
             && (sqlGe (sqlAbs change24) MIN_CHANGE
                 || sqlGe (sqlAbs change7) MIN_CHANGE)
          then Some {| m_id := i;
                       m_name := ti_name bti;
                       m_symbol := ti_symbol bti;
                       m_current_price := realCol "current_price" bmd;
                       m_market_cap := cap;
                       m_total_volume := volume;
                       m_price_change_percentage_24h := change24;
                       m_price_change_percentage_7d := change7;
                       m_movement_score_24h := movementScore change24 cap volume;
                       m_movement_score_7d := movementScore change7 cap volume |}
          else None
      end
  end.

Definition base_native_metrics (t : Tables) : list Metric :=
  omap (metricOf t) (base_market_data t).

Inductive Timeframe := last_24h | last_7d.
Inductive MovementType := gainer | loser.

Definition MovementType_eqb (a b : MovementType) : bool :=
  match a, b with
  | gainer, gainer | loser, loser => true
  | _, _ => false
  end.

(** [CASE WHEN change > 0 THEN 'gainer' ELSE 'loser' END] *)
Definition movementType (change : option Q) : MovementType :=
  if sqlGt change 0 then gainer else loser.

Definition changeOf (tf : Timeframe) (m : Metric) : option Q :=
  match tf with
  | last_24h => m_price_change_percentage_24h m
  | last_7d => m_price_change_percentage_7d m
  end.

Definition scoreOf (tf : Timeframe) (m : Metric) : option Q :=
  match tf with
  | last_24h => m_movement_score_24h m
  | last_7d => m_movement_score_7d m
  end.

(** The rows of one window partition, [WHERE ABS(change) >= 5]. *)
Definition partition (tf : Timeframe) (ty : MovementType) (metrics : list Metric)
  : list Metric :=
  List.filter
    (fun m => sqlGe (sqlAbs (changeOf tf m)) MIN_CHANGE
              && MovementType_eqb (movementType (changeOf tf m)) ty)
    metrics.

(** The partition in the order of [ROW_NUMBER() OVER (... ORDER BY
    ABS(movement_score) DESC)]: the row at index [i] has rank [i + 1]. *)
Definition ranked (tf : Timeframe) (ty : MovementType) (metrics : list Metric)
  : list Metric :=
  orderByDesc (fun m => sqlAbs (scoreOf tf m)) (partition tf ty metrics).

(** [rank <= 3] for the 24h buckets, [rank = 1] for the 7d buckets. *)
Definition bucketSize (tf : Timeframe) : nat :=
  match tf with last_24h => 3 | last_7d => 1 end.

Record NotableMover := {
  nm_timeframe : Timeframe;
  nm_name : option string;
  nm_symbol : option string;
  nm_current_price : option Q;
  nm_market_cap : option Q;
  nm_total_volume : option Q;
  nm_price_change : option Q;
  nm_movement_type : MovementType
}.

Definition toMover (tf : Timeframe) (m : Metric) : NotableMover :=
  {| nm_timeframe := tf;
     nm_name := m_name m;
     nm_symbol := m_symbol m;
     nm_current_price := m_current_price m;
     nm_market_cap := m_market_cap m;
     nm_total_volume := m_total_volume m;
     nm_price_change := changeOf tf m;
     nm_movement_type := movementType (changeOf tf m) |}.

Definition bucket (tf : Timeframe) (ty : MovementType) (metrics : list Metric)
  : list Metric :=
  take (bucketSize tf) (ranked tf ty metrics).

(** [ORDER BY timeframe, movement_type, rank] *)
Definition getNotableMovers (db : Database) : list NotableMover :=
  let metrics := base_native_metrics (Sqlite.tables db) in
  flat_map (fun tf =>
    flat_map (fun ty => map (toMover tf) (bucket tf ty metrics))
      [gainer; loser])
    [last_24h; last_7d].

End Analytics.

(** *** getAllTokenIds, getMarketInsights *)

(** [x < c] and [x <= c] as conditions: NULL is not true. *)
Definition sqlLt (x : option Q) (c : Q) : bool :=
  match x with Some v => Qltb v c | None => false end.

Definition sqlLe (x : option Q) (c : Q) : bool :=
  match x with Some v => Qle_bool v c | None => false end.

(** [WHERE timestamp = (SELECT MAX(timestamp) FROM base_market_data)]: the
    rows of the latest snapshot. *)
Definition latest (rows : list Row) : list Row :=
  List.filter (fun row => sqlEq (realCol "timestamp" row) (maxTimestamp rows)) rows.

(** [getAllTokenIds()]: [SELECT DISTINCT id] over the latest snapshot,
    then [row.id] of each row; an id that is NULL reaches the caller as
    [null] ([None]).  The order of the rows is left to the engine. *)
Definition getAllTokenIds (db : Database) : list (option string) :=
  remove_dups (map (textCol "id") (latest (base_market_data (Sqlite.tables db)))).

(** [getMarketInsights()]: the rows [latestData], ordered by market cap,
    and the two selections it makes of them. *)
Definition latestData (db : Database) : list Row :=
  orderByDesc (realCol "market_cap") (latest (base_market_data (Sqlite.tables db))).

(** [.filter(change > 0).sort((a, b) => b.change - a.change).slice(0, 5)];
    [Array.prototype.sort] is stable. *)
Definition topGainers (latestData : list Row) : list Row :=
  take 5
    (orderByDesc (realCol "price_change_percentage_24h")
       (List.filter
          (fun token => sqlGt (realCol "price_change_percentage_24h" token) 0)
          latestData)).

(** [.filter(change < 0).sort((a, b) => a.change - b.change).slice(0, 5)] *)
Definition topLosers (latestData : list Row) : list Row :=
  take 5
    (orderByDesc (fun token => Qopp <$> realCol "price_change_percentage_24h" token)
       (List.filter
          (fun token => sqlLt (realCol "price_change_percentage_24h" token) 0)
          latestData)).

(** What the text that [getMarketInsights] returns is made of. *)
Inductive MarketInsights :=
| NoMarketData                       (* "No market data available yet." *)
| Insights (gainers losers : list Row) (tracked : nat).

(** [formatTokenList] calls [token.symbol.toUpperCase()], which throws on
    a symbol that is null. *)
Definition formattable (tokens : list Row) : bool :=
  forallb (fun token => bool_decide (is_Some (textCol "symbol" token))) tokens.

Definition getMarketInsights (db : Database) : Result MarketInsights :=
  match latestData db with
  | [] => Ok NoMarketData
  | _ :: _ =>
      let gainers := topGainers (latestData db) in
      let losers := topLosers (latestData db) in
      if formattable gainers && formattable losers
      then Ok (Insights gainers losers (length (latestData db)))
      else Throw "Cannot read properties of null (reading 'toUpperCase')"
  end.

(** *** getMarketOverview *)

(** [COUNT(CASE WHEN cond THEN 1 END)] *)
Definition sqlCount (cond : Row -> bool) (rows : list Row) : nat :=
  length (List.filter cond rows).

(** [SUM(column)]: NULL values are skipped; NULL when no value is left. *)
Definition sqlSum (column : string) (rows : list Row) : option Q :=
  foldr (fun row acc =>
           match realCol column row, acc with
           | Some x, Some sum => Some (x + sum)%Q
           | Some x, None => Some x
           | None, _ => acc
           end) None rows.

(** [AVG(column)]: the sum over the number of values that are not NULL. *)
Definition sqlAvg (column : string) (rows : list Row) : option Q :=
  (fun sum =>
     sum / inject_Z (Z.of_nat
             (sqlCount (fun row => bool_decide (is_Some (realCol column row))) rows)))%Q
  <$> sqlSum column rows.

(** The CTE [base_native_tokens]: the latest snapshot of the assets with
    a detail row on the [base] platform. *)
Definition base_native_tokens (t : Tables) : list Row :=
  List.filter
    (fun bmd =>
       match textCol "id" bmd with
       | Some i =>
           match base_token_info t !! i with
           | Some bti =>
               bool_decide (ti_asset_platform_id bti = Some "base")
               && sqlEq (realCol "timestamp" bmd) (maxTimestamp (base_market_data t))
           | None => false
           end
       | None => false
       end)
    (base_market_data t).

(** The CTE [top_100_tokens]: [ORDER BY market_cap DESC LIMIT 100]. *)
Definition top_100_tokens (t : Tables) : list Row :=
  take 100 (orderByDesc (realCol "market_cap") (base_native_tokens t)).

(** [change > 10], [change > 5 AND change <= 10], [change < -10] *)
Definition strong_performer (change : option Q) : bool := sqlGt change 10.
Definition moderate_performer (change : option Q) : bool :=
  sqlGt change 5 && sqlLe change 10.
Definition strong_decliner (change : option Q) : bool := sqlLt change (-10).

Record Performance := {
  strong_performers : nat;
  moderate_performers : nat;
  strong_decliners : nat;
  avg_change : Q
}.

(** The four aggregates of one timeframe, over the column that holds its
    change. *)
Definition performance (column : string) (rows : list Row) : Performance :=
  {| strong_performers :=
       sqlCount (fun row => strong_performer (realCol column row)) rows;
     moderate_performers :=
       sqlCount (fun row => moderate_performer (realCol column row)) rows;
     strong_decliners :=
       sqlCount (fun row => strong_decliner (realCol column row)) rows;
     avg_change := default 0%Q (sqlAvg column rows) |}.

(** [MarketOverview] of types.ts, the twelve fields of the three
    timeframes grouped by timeframe. *)
Record MarketOverview := {
  total_tokens : nat;
  total_market_cap : Q;
  total_volume : Q;
  performance_24h : Performance;
  performance_7d : Performance;
  performance_30d : Performance
}.

Definition getMarketOverview (db : Database) : MarketOverview :=
  let rows := top_100_tokens (Sqlite.tables db) in
  {| total_tokens := length rows;
     total_market_cap := default 0%Q (sqlSum "market_cap" rows);
     total_volume := default 0%Q (sqlSum "total_volume" rows);
     performance_24h := performance "price_change_percentage_24h" rows;
     performance_7d := performance "price_change_percentage_7d_in_currency" rows;
     performance_30d := performance "price_change_percentage_30d_in_currency" rows |}.

(** *** Vocabulary of the statements *)

(** Every named parameter of the INSERT can be bound from the token. *)
Definition bindable (token : Token) : Prop :=
  isOk (bindColumns columns token) = true.

(** *** Fixtures *)

(** Modelled from the spec: the uniqueness constraint of
    [base_market_data], whose schema (schema.ts) is not among the sources,
    "one logical row per (asset, timestamp, category)". *)
Definition SqlValue_eqb (a b : option SqlValue) : bool :=
  match a, b with
  | Some (SqlReal x), Some (SqlReal y) => Qeq_bool x y
  | Some (SqlText x), Some (SqlText y) => String.eqb x y
  | _, _ => false
  end.

Definition sameKey (row other : Row) : bool :=
  SqlValue_eqb (row !! "id") (other !! "id")
  && SqlValue_eqb (row !! "timestamp") (other !! "timestamp")
  && SqlValue_eqb (row !! "category") (other !! "category").

Definition uniqueKey (row : Row) (rows : list Row) : bool :=
  existsb (sameKey row) rows.

(** A record as the API sends it: the 31 bound fields and a nested
    object that the INSERT does not name. *)
Definition apiToken (i : string) (price cap volume change24 change7 : Q) : Token :=
  list_to_map
    [ ("id", JsStr i); ("symbol", JsStr i); ("name", JsStr i);
      ("image", JsNull); ("current_price", JsNum price);
      ("market_cap", JsNum cap); ("market_cap_rank", JsNull);
      ("fully_diluted_valuation", JsNull); ("total_volume", JsNum volume);
      ("high_24h", JsNull); ("low_24h", JsNull); ("price_change_24h", JsNull);
      ("price_change_percentage_24h", JsNum change24);
      ("market_cap_change_24h", JsNull);
      ("market_cap_change_percentage_24h", JsNull);
      ("circulating_supply", JsNull); ("total_supply", JsNull);
      ("max_supply", JsNull); ("ath", JsNull); ("ath_change_percentage", JsNull);
      ("ath_date", JsNull); ("atl", JsNull); ("atl_change_percentage", JsNull);
      ("atl_date", JsNull); ("last_updated", JsNull);
      ("price_change_percentage_1h_in_currency", JsNull);
      ("price_change_percentage_24h_in_currency", JsNum change24);
      ("price_change_percentage_7d_in_currency", JsNum change7);
      ("price_change_percentage_14d_in_currency", JsNull);
      ("price_change_percentage_30d_in_currency", JsNull);
      ("price_change_percentage_200d_in_currency", JsNull);
      ("roi", JsOther) ].

Definition emptyDb : Database :=
  Sqlite.open {| base_market_data := []; base_token_info := ∅ |}.

Definition readyService : Service := {| db := emptyDb; apiKey := Some "key" |}.

(** An upstream with one full page and a second page of one record. *)
Definition fullPage : list Token := replicate 250 (apiToken "aaa" 1 1 1 0 0).
Definition shortPage : list Token := [apiToken "bbb" 1 1 1 0 0].

Definition twoPages : Upstream := fun _ page =>
  match page with
  | 1%nat => PageData fullPage
  | 2%nat => PageData shortPage
  | _ => PageError "Not Found"
  end.

(** An upstream with one page of one record, and one whose connection
    breaks after a full page. *)
Definition onePage : Upstream := fun _ _ => PageData shortPage.

Definition brokenAfterOne : Upstream := fun _ page =>
  match page with
  | 1%nat => PageData fullPage
  | _ => PageError "Network Error"
  end.








End BaseMarket.

(** ** plugin-base-market: TokenInfoService *)

Module TokenInfo.

Definition RATE_LIMIT : Z := 30.
Definition DELAY_BETWEEN_REQUESTS : Z := (60 * 1000) `div` RATE_LIMIT.
Definition backoffTime : Z := 60000.

(** What a request for one coin comes to.  The write of the detail rows
    (one transaction per coin) is summarised by whether it commits. *)
Inductive CoinResponse :=
| CoinData (stored : bool)          (* 2xx with a body; the write commits or throws *)
| CoinEmpty                         (* 2xx with a falsy body *)
| CoinError (status : option Z).    (* axios rejects; error.response?.status *)

(** The upstream API: the response to the [n]-th request of a run (from
    0), asked for a token id. *)
Definition Upstream := nat -> string -> CoinResponse.

Definition rateLimited (r : CoinResponse) : bool :=
  match r with
  | CoinError (Some status) => (status =? 429)%Z
  | _ => false
  end.

Record TokenInfoResponse := { success : bool; error : option string }.

(** The service ([requestQueue], [apiKey]) and the locals of a drain
    pass. *)
Record Run := {
  requestQueue : list string;
  apiKey : option string;
  successCount : nat;
  failureCount : nat;
  failedTokenIds : list string;
  requests : nat;                   (* requests issued so far *)
  trace : Trace
}.

Definition withQueue (q : list string) (events : list Event) (st : Run) : Run :=
  {| requestQueue := q;
     apiKey := apiKey st;
     successCount := successCount st;
     failureCount := failureCount st;
     failedTokenIds := failedTokenIds st;
     requests := requests st;
     trace := trace st ++ events |}.

Definition log (events : list Event) (st : Run) : Run :=
  withQueue (requestQueue st) events st.

(** [rateLimit()] *)
Definition rateLimit (st : Run) : Run := log [Sleep DELAY_BETWEEN_REQUESTS] st.

(** [handleRateLimit(tokenId)]: wait, then [requestQueue.unshift]. *)
Definition handleRateLimit (tokenId : string) (st : Run) : Run :=
  withQueue (tokenId :: requestQueue st) [Sleep backoffTime; Unshift tokenId] st.

Definition issue (tokenId : string) (st : Run) : Run :=
  {| requestQueue := requestQueue st;
     apiKey := apiKey st;
     successCount := successCount st;
     failureCount := failureCount st;
     failedTokenIds := failedTokenIds st;
     requests := S (requests st);
     trace := trace st ++ [CoinRequest tokenId] |}.

(** [fetchTokenInfo(tokenId)]: every exception is caught and answered by a
    response object. *)
Definition fetchTokenInfo (upstream : Upstream) (tokenId : string) (st : Run)
  : Run * TokenInfoResponse :=
  match apiKey st with
  | None => (st, {| success := false; error := Some "API key not initialized" |})
  | Some _ =>
      let st1 := issue tokenId st in
      match upstream (requests st) tokenId with
      | CoinData true => (st1, {| success := true; error := None |})
      | CoinData false =>
          (st1, {| success := false; error := Some "Database error" |})
      | CoinEmpty =>
          (st1, {| success := false; error := Some "Invalid response format" |})
      | CoinError status =>
          if rateLimited (CoinError status)
          then (handleRateLimit tokenId st1,
                {| success := false; error := Some "Rate limit hit, will retry" |})
          else (st1, {| success := false; error := Some "Request failed" |})
      end
  end.

Definition countSuccess (st : Run) : Run :=
  {| requestQueue := requestQueue st;
     apiKey := apiKey st;
     successCount := S (successCount st);
     failureCount := failureCount st;
     failedTokenIds := failedTokenIds st;
     requests := requests st;
     trace := trace st |}.

Definition countFailure (tokenId : string) (st : Run) : Run :=
  {| requestQueue := requestQueue st;
     apiKey := apiKey st;
     successCount := successCount st;
     failureCount := S (failureCount st);
     failedTokenIds := failedTokenIds st ++ [tokenId];
     requests := requests st;
     trace := trace st |}.

(** One iteration of [while (this.requestQueue.length > 0)] on a queue
    whose head is [tokenId]. *)
Definition drainStep (upstream : Upstream) (tokenId : string) (rest : list string)
  (st : Run) : Run :=
  let st1 := withQueue rest [Shift tokenId] st in
  if String.eqb tokenId "" then st1               (* if (!tokenId) continue *)
  else
    let '(st2, result) := fetchTokenInfo upstream tokenId (rateLimit st1) in
    if success result then countSuccess st2 else countFailure tokenId st2.

(** The drain loop; [None] when the fuel runs out. *)
Fixpoint drain (upstream : Upstream) (fuel : nat) (st : Run) : option Run :=
  match fuel with
  | O => None
  | S fuel' =>
      match requestQueue st with
      | [] => Some st
      | tokenId :: rest => drain upstream fuel' (drainStep upstream tokenId rest st)
      end
  end.

(** A service between two passes: the counters and the trace are those of
    the pass about to start. *)
Definition idle (queue : list string) (key : option string) : Run :=
  {| requestQueue := queue; apiKey := key; successCount := 0; failureCount := 0;
     failedTokenIds := []; requests := 0; trace := [] |}.

(** [processBulkTokenInfo(tokenIds)] on a service whose queue and key are
    [queue] and [key]. *)
Definition processBulkTokenInfo (upstream : Upstream) (fuel : nat)
  (tokenIds : list string) (queue : list string) (key : option string)
  : option Run :=
  match tokenIds with
  | [] => Some (idle queue key)
  | _ :: _ => drain upstream fuel (idle tokenIds key)
  end.

(** *** initialize *)

Definition maxAttempts : nat := 24.

(** [getTokensNeedingInfo(runtime)]: the ids of the latest snapshot that
    have no detail row; [marketDataService] is [None] when the runtime has
    no such service.  An id that is [null] has no detail row. *)
Definition getTokensNeedingInfo (marketDataService : option BaseMarket.Database)
  (db : BaseMarket.Database) : list (option string) :=
  match marketDataService with
  | None => []
  | Some market =>
      List.filter
        (fun tokenId =>
           match tokenId with
           | Some i =>
               negb (bool_decide
                       (is_Some (BaseMarket.base_token_info (Sqlite.tables db) !! i)))
           | None => true
           end)
        (BaseMarket.getAllTokenIds market)
  end.

(** The loop [while (!hasMarketData && attempts < maxAttempts)] of
    [initialize]; [market n] is the database of the market-data service at
    the [n]-th call of [getAllTokenIds] (from 0), and every call that finds
    no id is followed by a wait of 5 s.  [None] when the fuel runs out. *)
Fixpoint awaitMarketData (market : nat -> BaseMarket.Database) (fuel : nat)
  (hasMarketData : bool) (attempts : nat) (waits : Trace)
  : option (bool * nat * Trace) :=
  match fuel with
  | O => None
  | S fuel' =>
      if negb hasMarketData && (attempts <? maxAttempts)%nat then
        let tokenIds := BaseMarket.getAllTokenIds (market attempts) in
        if (0 <? length tokenIds)%nat
        then awaitMarketData market fuel' true attempts waits
        else awaitMarketData market fuel' false (S attempts) (waits ++ [Sleep 5000])
      else Some (hasMarketData, attempts, waits)
  end.

(** [initialize(runtime)] after the tables are created: [env] is
    [process.env.COINGECKO_API_KEY], [marketDataService] the service of the
    runtime, [db] the service's own database.  The result is the pass over
    the ids that need a detail row, under the key, or the error thrown;
    the trace holds the waits of the loop.  A [null] id is passed on as the
    empty string: the pass drops either without a fetch. *)
Definition initialize (env : option string)
  (marketDataService : option (nat -> BaseMarket.Database))
  (db : BaseMarket.Database) (upstream : Upstream) (fuel : nat)
  (queue : list string) : option (Result Run * Trace) :=
  match env with
  | None => Some (Throw "COINGECKO_API_KEY not found in environment variables", [])
  | Some key =>
      if String.eqb key ""
      then Some (Throw "COINGECKO_API_KEY not found in environment variables", [])
      else
        match marketDataService with
        | None => Some (Throw "MarketDataService not available", [])
        | Some market =>
            match awaitMarketData market fuel false 0 [] with
            | None => None
            | Some (false, _, waits) =>
                Some (Throw
                        "Timeout waiting for MarketDataService to complete initial fetch",
                      waits)
            | Some (true, attempts, waits) =>
                let tokensToProcess :=
                  getTokensNeedingInfo (Some (market (S attempts))) db in
                match processBulkTokenInfo upstream fuel
                        (map (default "") tokensToProcess) queue (Some key) with
                | None => None
                | Some run => Some (Ok run, waits)
                end
            end
        end
  end.

(** *** Vocabulary of the statements *)

(** The time a trace spends waiting, in milliseconds. *)
Definition waited (trace : Trace) : Z :=
  foldr (fun e total => match e with Sleep ms => ms + total | _ => total end)%Z
    0%Z trace.

Definition isUnshift (e : Event) : bool :=
  match e with Unshift _ => true | _ => false end.

(** An identifier that is not falsy. *)
Definition truthy (tokenId : string) : bool := negb (String.eqb tokenId "").

(** What one iteration of the pass leaves in the trace when the fetch is
    not answered 429. *)
Definition iteration (tokenId : string) : Trace :=
  if truthy tokenId
  then [Shift tokenId; Sleep DELAY_BETWEEN_REQUESTS; CoinRequest tokenId]
  else [Shift tokenId].

(** The books of a pass under a key balance: every request is counted
    once, as a success or as a failure, every failure is listed, every
    put-back is among the failures, and the time waited is 2 s for each
    request and 60 s for each put-back. *)
Definition accounted (k : string) (st : Run) : Prop :=
  apiKey st = Some k
  /\ (successCount st + failureCount st = requests st)%nat
  /\ length (failedTokenIds st) = failureCount st
  /\ countWhere isRequest (trace st) = requests st
  /\ (countWhere isUnshift (trace st) <= failureCount st)%nat
  /\ waited (trace st) =
       (2000 * Z.of_nat (requests st)
        + 60000 * Z.of_nat (countWhere isUnshift (trace st)))%Z.

(** The requests for [tokenId] are not answered 429 for ever: whenever
    the fetch is tried, some later try has another outcome. *)
Definition settles (upstream : Upstream) (tokenId : string) : Prop :=
  forall n, exists m, (n <= m)%nat /\ rateLimited (upstream m tokenId) = false.

(** The drain loop started in [st] completes, with an empty queue. *)
Definition drains (upstream : Upstream) (st : Run) : Prop :=
  exists fuel st', drain upstream fuel st = Some st' /\ requestQueue st' = [].

(** *** Fixtures *)

(** The first request is answered 429, every later one with data that
    is stored. *)
Definition limitedOnce : Upstream := fun n _ =>
  match n with
  | O => CoinError (Some 429%Z)
  | S _ => CoinData true
  end.

(** Every request for ["bbb"] is answered 429. *)
Definition alwaysLimited : Upstream := fun _ tokenId =>
  if String.eqb tokenId "bbb" then CoinError (Some 429%Z) else CoinData true.

(** Every request is answered with data that is stored, except the ones
    for ["bbb"], which are answered 404. *)
Definition unlimited : Upstream := fun _ tokenId =>
  if String.eqb tokenId "bbb" then CoinError (Some 404%Z) else CoinData true.

End TokenInfo.

(** ** plugin-coingecko: MarketDataService *)

Module CoinGecko.

Definition UPDATE_INTERVAL : Z := 60 * 60 * 1000.
Definition MINIMUM_UPDATE_GAP : Z := 55 * 60 * 1000.
Definition MAX_RETRIES : nat := 3.
Definition RETRY_DELAY : Z := 5 * 60 * 1000.
Definition RETENTION_DAYS : Z := 30.

Inductive Category := base_ecosystem | base_meme_coins.

Definition categoryId (c : Category) : string :=
  match c with
  | base_ecosystem => "base-ecosystem"
  | base_meme_coins => "base-meme-coins"
  end.

(** An element of a response that passes [CoinGeckoResponseSchema]. *)
Record ApiItem := {
  api_id : string;
  api_symbol : string;
  api_name : string;
  api_current_price : option Q;
  api_market_cap : option Q;
  api_total_volume : option Q;
  api_market_cap_rank : option Q;
  api_price_change_percentage_1h_in_currency : option Q;
  api_price_change_percentage_24h_in_currency : option Q;
  api_price_change_percentage_7d_in_currency : option Q;
  api_price_change_percentage_14d_in_currency : option Q;
  api_price_change_percentage_30d_in_currency : option Q
}.

Inductive MarketsResponse :=
| MarketsData (data : list ApiItem)     (* 2xx, the body passes the schema *)
| MarketsInvalid                        (* 2xx, the schema rejects the body *)
| MarketsError (status : option Z).     (* axios rejects *)

(** The upstream API as the pages of a category.  A request that names no
    page is answered with page 1. *)
Definition Upstream := Category -> nat -> MarketsResponse.

(** [fetchCategoryData(category)]: one request, without a [page]
    parameter. *)
Definition fetchCategoryData (upstream : Upstream) (category : Category)
  : Result (list ApiItem) * Trace :=
  let trace := [MarketsRequest (categoryId category) None] in
  match upstream category 1%nat with
  | MarketsData data => (Ok data, trace)
  | MarketsInvalid => (Throw "ZodError", trace)
  | MarketsError status =>
      if bool_decide (status = Some 429%Z)
      then (Throw "Rate limit reached", trace)
      else (Throw "Request failed", trace)
  end.

(** [x || 0] *)
Definition orZero (x : option Q) : Q := default 0%Q x.

(** [MarketData] of the plugin's types.ts: the adapter's record and the
    category. *)
Record MarketData := {
  md_category : Category;
  md_fields : Adapter.MarketData
}.

Definition processApiResponse (data : list ApiItem) (category : Category)
  (timestamp : Adapter.Timestamp) : list MarketData :=
  map (fun item =>
         {| md_category := category;
            md_fields :=
              {| Adapter.own_coin_id := None;
                 Adapter.id := api_id item;
                 Adapter.symbol := api_symbol item;
                 Adapter.name := api_name item;
                 Adapter.current_price := Some (orZero (api_current_price item));
                 Adapter.market_cap := Some (orZero (api_market_cap item));
                 Adapter.total_volume := Some (orZero (api_total_volume item));
                 Adapter.market_cap_rank := api_market_cap_rank item;
                 Adapter.price_change_percentage_1h :=
                   api_price_change_percentage_1h_in_currency item;
                 Adapter.price_change_percentage_24h :=
                   api_price_change_percentage_24h_in_currency item;
                 Adapter.price_change_percentage_7d :=
                   api_price_change_percentage_7d_in_currency item;
                 Adapter.price_change_percentage_14d :=
                   api_price_change_percentage_14d_in_currency item;
                 Adapter.price_change_percentage_30d :=
                   api_price_change_percentage_30d_in_currency item;
                 Adapter.timestamp := Some timestamp |} |}) data.

(** The database the service is given ([IMarketDatabaseAdapter]); both
    operations read the clock. *)
Class IMarketDatabaseAdapter (DB : Type) := {
  storeMarketData :
    Adapter.Timestamp -> list Adapter.MarketData -> DB -> DB * Result unit;
  cleanOldData : Adapter.Timestamp -> Z -> DB -> DB * Result nat
}.

#[export] Instance marketDatabaseAdapter : IMarketDatabaseAdapter Adapter.Database :=
  {| storeMarketData := Adapter.storeMarketData;
     cleanOldData := Adapter.cleanOldData |}.

Section Service.
Context {DB : Type} `{IMarketDatabaseAdapter DB}.

(** The service, the clock ([Date.now()], milliseconds; a wait moves it
    on) and the trace. *)
Record Service := {
  db : DB;
  isUpdating : bool;
  lastUpdateTime : Z;
  clock : Z;
  trace : Trace
}.

Definition log (events : list Event) (s : Service) : Service :=
  {| db := db s; isUpdating := isUpdating s; lastUpdateTime := lastUpdateTime s;
     clock := clock s; trace := trace s ++ events |}.

Definition sleep (ms : Z) (s : Service) : Service :=
  {| db := db s; isUpdating := isUpdating s; lastUpdateTime := lastUpdateTime s;
     clock := (clock s + ms)%Z; trace := trace s ++ [Sleep ms] |}.

Definition setDb (d : DB) (s : Service) : Service :=
  {| db := d; isUpdating := isUpdating s; lastUpdateTime := lastUpdateTime s;
     clock := clock s; trace := trace s |}.

Definition setLastUpdateTime (t : Z) (s : Service) : Service :=
  {| db := db s; isUpdating := isUpdating s; lastUpdateTime := t;
     clock := clock s; trace := trace s |}.

Definition setUpdating (b : bool) (s : Service) : Service :=
  {| db := db s; isUpdating := b; lastUpdateTime := lastUpdateTime s;
     clock := clock s; trace := trace s |}.

(** The upstream during a cycle: what it answers during each attempt. *)
Definition World := nat -> Upstream.

(** The try block up to [this.lastUpdateTime = Date.now()]: both fetches
    (Promise.all starts both requests), the processing and the store. *)
Definition fetchAndStore (upstream : Upstream) (s : Service)
  : Service * Result unit :=
  let '(ecosystemData, trace1) := fetchCategoryData upstream base_ecosystem in
  let '(memeCoinsData, trace2) := fetchCategoryData upstream base_meme_coins in
  let s1 := log (trace1 ++ trace2) s in
  match ecosystemData, memeCoinsData with
  | Ok ecosystem, Ok memeCoins =>
      let timestamp := clock s1 in
      let processedData :=
        processApiResponse ecosystem base_ecosystem timestamp ++
        processApiResponse memeCoins base_meme_coins timestamp in
      match storeMarketData (clock s1) (map md_fields processedData) (db s1) with
      | (d, Ok _) => (setLastUpdateTime (clock s1) (setDb d s1), Ok tt)
      | (d, Throw e) => (setDb d s1, Throw e)
      end
  | Throw e, _ => (s1, Throw e)
  | _, Throw e => (s1, Throw e)
  end.

(** The whole try block: [fetchAndStore], then [cleanOldData(30)]. *)
Definition attempt (upstream : Upstream) (s : Service) : Service * Result unit :=
  match fetchAndStore upstream s with
  | (s1, Ok _) =>
      match cleanOldData (clock s1) RETENTION_DAYS (db s1) with
      | (d, Ok _) => (setDb d s1, Ok tt)
      | (d, Throw e) => (setDb d s1, Throw e)
      end
  | (s1, Throw e) => (s1, Throw e)
  end.

(** [while (retryCount < MAX_RETRIES)]; [None] when the fuel runs out. *)
Fixpoint updateLoop (world : World) (fuel : nat) (retryCount : nat) (s : Service)
  : option (Service * Result unit) :=
  match fuel with
  | O => None
  | S fuel' =>
      if (retryCount <? MAX_RETRIES)%nat then
        match attempt (world retryCount) s with
        | (s1, Ok _) => Some (s1, Ok tt)
        | (s1, Throw _) =>
            let retryCount' := S retryCount in
            if (retryCount' <? MAX_RETRIES)%nat
            then updateLoop world fuel' retryCount' (sleep RETRY_DELAY s1)
            else Some (s1, Throw "Failed to update market data after 3 attempts")
        end
      else Some (s, Ok tt)
  end.

Definition updateMarketData (world : World) (s : Service)
  : option (Service * Result unit) :=
  updateLoop world (S MAX_RETRIES) 0 s.

(** [checkAndUpdate()], run to completion at a tick at time [clock s]. *)
Definition checkAndUpdate (world : World) (s : Service)
  : option (Service * Result unit) :=
  if isUpdating s then Some (s, Ok tt)
  else if (clock s - lastUpdateTime s <? MINIMUM_UPDATE_GAP)%Z then Some (s, Ok tt)
  else
    match updateMarketData world (setUpdating true s) with
    | Some (s1, r) => Some (setUpdating false s1, r)     (* finally *)
    | None => None
    end.

End Service.

(** *** The timer and the cycles in flight

    A tick of [setInterval] may arrive while [updateMarketData] is awaiting:
    the controller is a transition system whose state is the two fields of
    the service and the number of cycles started by [checkAndUpdate] that
    have not settled. *)

Record Controller := {
  c_isUpdating : bool;              (* this.isUpdating *)
  c_lastUpdateTime : Z;             (* this.lastUpdateTime *)
  inFlight : nat
}.

(** [checkAndUpdate] from its entry to its [await], at time [now]. *)
Definition tick (now : Z) (c : Controller) : Controller :=
  if c_isUpdating c then c
  else if (now - c_lastUpdateTime c <? MINIMUM_UPDATE_GAP)%Z then c
  else {| c_isUpdating := true;
          c_lastUpdateTime := c_lastUpdateTime c;
          inFlight := S (inFlight c) |}.

(** A cycle in flight stores a batch at time [now]. *)
Definition stored (now : Z) (c : Controller) : Controller :=
  {| c_isUpdating := c_isUpdating c;
     c_lastUpdateTime := now;
     inFlight := inFlight c |}.

(** A cycle in flight settles: the [finally] block. *)
Definition settle (c : Controller) : Controller :=
  {| c_isUpdating := false;
     c_lastUpdateTime := c_lastUpdateTime c;
     inFlight := pred (inFlight c) |}.

Inductive step : Controller -> Controller -> Prop :=
| step_tick now c : step c (tick now c)
| step_stored now c : (0 < inFlight c)%nat -> step c (stored now c)
| step_settle c : (0 < inFlight c)%nat -> step c (settle c).

(** After [initialize]: the first update is over and the timer is set. *)
Definition started (c : Controller) : Prop :=
  c_isUpdating c = false /\ inFlight c = 0%nat.

Inductive reachable : Controller -> Prop :=
| reachable_started c : started c -> reachable c
| reachable_step c c' : reachable c -> step c c' -> reachable c'.

(** *** Vocabulary of the statements *)

(** The two requests of one attempt. *)
Definition attemptRequests : Trace :=
  [MarketsRequest "base-ecosystem" None; MarketsRequest "base-meme-coins" None].

(** *** Fixtures *)

Definition apiItem (i : string) : ApiItem :=
  {| api_id := i; api_symbol := i; api_name := i;
     api_current_price := Some 1%Q; api_market_cap := None;
     api_total_volume := Some 0%Q; api_market_cap_rank := None;
     api_price_change_percentage_1h_in_currency := None;
     api_price_change_percentage_24h_in_currency := None;
     api_price_change_percentage_7d_in_currency := None;
     api_price_change_percentage_14d_in_currency := None;
     api_price_change_percentage_30d_in_currency := None |}.

(** An upstream with one full page and a second page of one record. *)
Definition fullPage : list ApiItem := replicate 250 (apiItem "aaa").
Definition shortPage : list ApiItem := [apiItem "bbb"].

Definition twoPages : Upstream := fun _ page =>
  match page with
  | 1%nat => MarketsData fullPage
  | 2%nat => MarketsData shortPage
  | _ => MarketsError (Some 404%Z)
  end.

(** An upstream that answers every request with a server error. *)
Definition down : World := fun _ _ _ => MarketsError (Some 500%Z).

(** An upstream that answers every request with one record. *)
Definition up : World := fun _ _ _ => MarketsData [apiItem "aaa"].

Definition newService (d : Adapter.Database) (now : Z) : Service :=
  {| db := d; isUpdating := false; lastUpdateTime := 0; clock := now; trace := [] |}.

(** An upstream that is down during the first attempt of a cycle and
    answers with empty lists afterwards. *)
Definition recovering : World := fun attempt _ _ =>
  match attempt with
  | O => MarketsError (Some 500%Z)
  | S _ => MarketsData []
  end.

End CoinGecko.

(** ** plugin-coingecko: CoingeckoService

    The calls of the service are taken one at a time, each run to
    completion; a request is answered at once. *)

Module CoingeckoService.

Definition cacheDuration : Z := 5 * 60 * 1000.
Definition minRequestInterval : Z := 1000.

(** What a call leaves in the log. *)
Inductive Call :=
| Request (path : string)           (* axios.get *)
| Wait (ms : Z).                    (* await setTimeout *)

Section Service.
(** The payload the service hands out: [any] in the cache. *)
Context {Data : Type}.

(** An entry of [this.cache]. *)
Record Entry := { entry_data : Data; entry_timestamp : Z }.

(** [this.requestQueue], a promise: fulfilled when every operation chained
    to it so far was fulfilled, rejected with the error of the first one
    that was not. *)
Inductive Queue :=
| Fulfilled
| Rejected (message : string).

Record Service := {
  cache : gmap string Entry;
  requestQueue : Queue;
  clock : Z;                        (* Date.now() *)
  calls : list Call
}.

(** A fetcher: the request it sends and its outcome, by the time it is
    sent: the validated payload, or the error thrown by the request or
    by the validation. *)
Record Fetcher := { path : string; outcome : Z -> Result Data }.

(** [executeWithRateLimit(operation)]:
    [this.requestQueue = this.requestQueue.then(() => operation())
    .then(wait)], and the result is that promise.  On a rejected promise
    [then] does not call the operation: it passes the rejection on. *)
Definition executeWithRateLimit (operation : Fetcher) (s : Service)
  : Service * Result Data :=
  match requestQueue s with
  | Rejected e => (s, Throw e)
  | Fulfilled =>
      match outcome operation (clock s) with
      | Ok result =>
          ({| cache := cache s;
              requestQueue := Fulfilled;
              clock := (clock s + minRequestInterval)%Z;
              calls := calls s ++ [Request (path operation);
                                   Wait minRequestInterval] |},
           Ok result)
      | Throw e =>
          ({| cache := cache s;
              requestQueue := Rejected e;
              clock := clock s;
              calls := calls s ++ [Request (path operation)] |},
           Throw e)
      end
  end.

(** [getCached(key, fetcher)]: [now] is read before the fetch. *)
Definition getCached (key : string) (fetcher : Fetcher) (s : Service)
  : Service * Result Data :=
  let now := clock s in
  let fetch :=
    match executeWithRateLimit fetcher s with
    | (s1, Ok data) =>
        ({| cache := <[key := {| entry_data := data; entry_timestamp := now |}]>
                       (cache s1);
            requestQueue := requestQueue s1;
            clock := clock s1;
            calls := calls s1 |},
         Ok data)
    | (s1, Throw e) => (s1, Throw e)
    end in
  match cache s !! key with
  | Some cached =>
      if (now - entry_timestamp cached <? cacheDuration)%Z
      then (s, Ok (entry_data cached))
      else fetch
  | None => fetch
  end.

(** The upstream: the outcome of a request, by its path and its time. *)
Definition Upstream := string -> Z -> Result Data.

Definition fetcher (upstream : Upstream) (path : string) : Fetcher :=
  {| path := path; outcome := upstream path |}.

(** The three methods; each catches the error, logs it and throws it
    again. *)
Definition getPrice (upstream : Upstream) (coinId : string) (s : Service)
  : Service * Result Data :=
  getCached ("price_" +:+ coinId) (fetcher upstream ("/simple/price?ids=" +:+ coinId)) s.

Definition getTrending (upstream : Upstream) (s : Service) : Service * Result Data :=
  getCached "trending" (fetcher upstream "/search/trending") s.

Definition searchCoins (upstream : Upstream) (query : string) (s : Service)
  : Service * Result Data :=
  getCached ("search_" +:+ query) (fetcher upstream ("/search?query=" +:+ query)) s.

(** The service as constructed, at time [now]. *)
Definition newService (now : Z) : Service :=
  {| cache := ∅; requestQueue := Fulfilled; clock := now; calls := [] |}.

(** The service at a later time. *)
Definition at_ (now : Z) (s : Service) : Service :=
  {| cache := cache s; requestQueue := requestQueue s; clock := now;
     calls := calls s |}.

End Service.

Arguments Entry : clear implicits.
Arguments Service : clear implicits.
Arguments Fetcher : clear implicits.
Arguments Upstream : clear implicits.

(** *** Fixtures *)

(** An upstream that fails until time 1000 and answers with the length of
    the path afterwards. *)
Definition flaky : Upstream nat := fun path now =>
  if (now <? 1000)%Z then Throw "Network Error" else Ok (String.length path).

End CoingeckoService.

(** * Part II: properties *)

(** ** Lists, ORDER BY and LIMIT *)

Lemma elem_of_List_filter {A} (f : A -> bool) (l : list A) (x : A) :
  x ∈ List.filter f l <-> x ∈ l /\ f x = true.
Proof. rewrite !list_elem_of_In. apply filter_In. Qed.

Lemma elem_of_flat_map {A B} (f : A -> list B) (l : list A) (y : B) :
  y ∈ flat_map f l <-> exists x, x ∈ l /\ y ∈ f x.
Proof.
  rewrite list_elem_of_In, in_flat_map.
  split; intros (x & Hx & Hy); exists x; by rewrite ?list_elem_of_In in *.
Qed.

Lemma insertDesc_Permutation {A} (key : A -> option Q) (x : A) (l : list A) :
  insertDesc key x l ≡ₚ x :: l.
Proof.
  induction l as [|y l IH]; simpl; [done|].
  destruct (keyGt (key y) (key x)); [|done].
  rewrite IH. apply Permutation_swap.
Qed.

Lemma orderByDesc_Permutation {A} (key : A -> option Q) (l : list A) :
  orderByDesc key l ≡ₚ l.
Proof.
  induction l as [|x l IH]; simpl; [done|].
  rewrite insertDesc_Permutation. by rewrite IH.
Qed.

Lemma elem_of_orderByDesc {A} (key : A -> option Q) (l : list A) (x : A) :
  x ∈ orderByDesc key l <-> x ∈ l.
Proof. by rewrite orderByDesc_Permutation. Qed.

Lemma elem_of_sqlLimit {A} (n : Z) (l : list A) (x : A) :
  x ∈ sqlLimit n l -> x ∈ l.
Proof.
  unfold sqlLimit. destruct (n <? 0)%Z; [done|].
  intros (i & Hi & _)%elem_of_take. by eapply list_elem_of_lookup_2.
Qed.

(** ** The connection: commit and rollback *)

Module SqliteFacts.
Import Sqlite.
Section Connection.
Context {T A : Type}.
Implicit Types (fn : T -> T * Result A) (c : Connection T).

Lemma exec_journal fn c : journal (exec fn c).1 = journal c.
Proof. unfold exec. by destruct (fn (tables c)). Qed.

(** A transaction that throws leaves the connection as it found it. *)
Lemma transaction_throw fn c c' e :
  journal c = None ->
  transaction fn c = (c', Throw e) -> c' = c.
Proof.
  intros Hj. unfold transaction, exec, begin, rollback. simpl.
  destruct (fn (tables c)) as [t [a|e']]; simpl; intros Heq; [done|].
  inversion Heq; subst. destruct c; simpl in *. by subst.
Qed.

(** A transaction that returns has applied the whole of [fn]. *)
Lemma transaction_ok fn c c' a :
  transaction fn c = (c', Ok a) ->
  fn (tables c) = (tables c', Ok a) /\ journal c' = None.
Proof.
  unfold transaction, exec, begin, commit. simpl.
  destruct (fn (tables c)) as [t [a'|e']]; simpl; intros Heq; [|done].
  by inversion Heq; subst.
Qed.

Lemma transaction_run fn c :
  transaction fn c =
    match fn (tables c) with
    | (t, Ok a) => ({| tables := t; journal := None |}, Ok a)
    | (_, Throw e) => ({| tables := tables c; journal := None |}, Throw e)
    end.
Proof.
  unfold transaction, exec, begin, commit, rollback. simpl.
  by destruct (fn (tables c)) as [t [a|e]].
Qed.

Lemma transaction_journal fn c : journal (transaction fn c).1 = None.
Proof. rewrite transaction_run. by destruct (fn (tables c)) as [t [a|e]]. Qed.

End Connection.
End SqliteFacts.

(** ** adapter-marketdatabase: the store *)

Module AdapterFacts.
Import Adapter.

Lemma insertCoin_market_data item t :
  market_data (insertCoin item t) = market_data t
  /\ market_data_seq (insertCoin item t) = market_data_seq t
  /\ coin_categories (insertCoin item t) = coin_categories t
  /\ token_categories (insertCoin item t) = token_categories t.
Proof. unfold insertCoin. by destruct (coins t !! id item). Qed.

(** INSERT OR IGNORE keeps every row the table holds. *)
Lemma insertCoin_keeps item t i c :
  coins t !! i = Some c -> coins (insertCoin item t) !! i = Some c.
Proof.
  unfold insertCoin. destruct (coins t !! id item) eqn:Hid; [done|]. simpl.
  intros Hi. rewrite lookup_insert_ne; [done|]. congruence.
Qed.

Lemma insertCoin_present item t : is_Some (coins (insertCoin item t) !! id item).
Proof.
  unfold insertCoin. destruct (coins t !! id item) eqn:Hid.
  - by rewrite Hid.
  - simpl. by rewrite lookup_insert_eq.
Qed.

Lemma insertCoin_id item t :
  is_Some (coins t !! id item) -> insertCoin item t = t.
Proof. intros [c Hc]. unfold insertCoin. by rewrite Hc. Qed.

(** A successful INSERT adds the snapshot of the item and nothing else. *)
Lemma insertMarketData_ok_inv now item t t' :
  insertMarketData now item t = Ok t' ->
  exists row,
    coins t' = coins t
    /\ market_data t' = market_data t ++ [row]
    /\ snapshotOf now row item
    /\ is_Some (coins t !! coin_id row)
    /\ ~ rejected item.
Proof.
  unfold insertMarketData, rejected, snapshotOf.
  destruct (own_coin_id item) as [coin|]; [|done].
  destruct (current_price item), (market_cap item), (total_volume item); try done.
  destruct (coins t !! coin) as [c|] eqn:Hc; [|done].
  intros Heq. inversion Heq; subst t'. eexists. simpl.
  split; [done|]. split; [done|]. split; [done|]. split.
  - simpl. by rewrite Hc.
  - intros [?|[?|[?|?]]]; done.
Qed.

(** An INSERT that succeeds on one table succeeds, at any time, on every
    table that holds the coins of the first. *)
Lemma insertMarketData_mono now1 now2 item t t' u :
  insertMarketData now1 item t = Ok t' ->
  (forall i, is_Some (coins t !! i) -> is_Some (coins u !! i)) ->
  exists u' row,
    insertMarketData now2 item u = Ok u'
    /\ coins u' = coins u
    /\ market_data u' = market_data u ++ [row]
    /\ snapshotOf now2 row item.
Proof.
  unfold insertMarketData, snapshotOf.
  destruct (own_coin_id item) as [coin|]; [|done].
  destruct (current_price item), (market_cap item), (total_volume item); try done.
  destruct (coins t !! coin) as [c|] eqn:Hc; [|done].
  intros _ Hsub. destruct (Hsub coin) as [c' Hc']; [by rewrite Hc|].
  rewrite Hc'. by eexists _, _.
Qed.

Lemma insertMarketData_rejected now item t :
  rejected item -> exists e, insertMarketData now item t = Throw e.
Proof.
  unfold rejected, insertMarketData.
  destruct (own_coin_id item) as [coin|]; [|by eexists].
  destruct (current_price item), (market_cap item), (total_volume item);
    try by eexists.
  intros [?|[?|[?|?]]]; done.
Qed.

(** A loop that returns has added the snapshot of every item, in order,
    and has kept the coins. *)
Lemma storeItems_ok_inv now data : forall t t',
  storeItems now data t = (t', Ok tt) ->
  (forall i c, coins t !! i = Some c -> coins t' !! i = Some c)
  /\ exists rows,
       market_data t' = market_data t ++ rows
       /\ Forall2 (snapshotOf now) rows data.
Proof.
  induction data as [|item data IH]; intros t t' Hrun; simpl in Hrun.
  - inversion Hrun; subst t'. split; [done|]. exists []. by rewrite app_nil_r.
  - destruct (insertMarketData now item (insertCoin item t)) as [t2|e] eqn:Hins;
      [|done].
    apply insertMarketData_ok_inv in Hins as (row & Hcoins & Hrows & Hsnap & _).
    destruct (IH _ _ Hrun) as (Hkeep & rows & Hrows' & Hall).
    destruct (insertCoin_market_data item t) as (Hmd & _).
    split.
    + intros i c Hi. apply Hkeep. rewrite Hcoins. by apply insertCoin_keeps.
    + exists (row :: rows). split; [|by constructor].
      rewrite Hrows', Hrows, Hmd. by rewrite <- app_assoc.
Qed.

(** A batch that was stored can be stored again, at any time, on every
    table that holds the coins of the first store: no coin is added, and
    every item gets one more snapshot. *)
Lemma storeItems_again now1 now2 data : forall t t1 u,
  storeItems now1 data t = (t1, Ok tt) ->
  (forall i, is_Some (coins t1 !! i) -> is_Some (coins u !! i)) ->
  exists u' rows,
    storeItems now2 data u = (u', Ok tt)
    /\ coins u' = coins u
    /\ market_data u' = market_data u ++ rows
    /\ Forall2 (snapshotOf now2) rows data.
Proof.
  induction data as [|item data IH]; intros t t1 u Hrun Hsub; simpl in *.
  - exists u, []. by rewrite app_nil_r.
  - destruct (insertMarketData now1 item (insertCoin item t)) as [t2|e] eqn:Hins;
      [|done].
    destruct (storeItems_ok_inv _ _ _ _ Hrun) as (Hkeep & _).
    pose proof Hins as (row & Hcoins & _)%insertMarketData_ok_inv.
    assert (forall i, is_Some (coins (insertCoin item t) !! i) ->
                      is_Some (coins u !! i)) as Hsub'.
    { intros i [c Hc]. apply Hsub. exists c. apply Hkeep. by rewrite Hcoins. }
    rewrite (insertCoin_id item u) by (apply Hsub', insertCoin_present).
    destruct (insertMarketData_mono now1 now2 item _ _ u Hins Hsub')
      as (u2 & row2 & -> & Hcoins2 & Hrows2 & Hsnap2).
    destruct (IH t2 t1 u2 Hrun) as (u' & rows & Hrun' & Hcoins' & Hrows' & Hall).
    { intros i Hi. rewrite Hcoins2. by apply Hsub. }
    exists u', (row2 :: rows). split; [done|]. split; [congruence|].
    split; [|by constructor].
    rewrite Hrows', Hrows2. by rewrite <- app_assoc.
Qed.

(** A loop over a batch with a rejected item throws. *)
Lemma storeItems_rejected now data : forall t,
  Exists rejected data ->
  exists t' e, storeItems now data t = (t', Throw e).
Proof.
  induction data as [|item data IH]; intros t Hex; [by apply Exists_nil in Hex|].
  simpl. destruct (insertMarketData now item (insertCoin item t)) as [t2|e] eqn:Hins;
    [|by eexists _, _].
  apply Exists_cons in Hex as [Hitem|Hex]; [|by apply IH].
  destruct (insertMarketData_rejected now item (insertCoin item t) Hitem). congruence.
Qed.

Lemma storeMarketData_run now data db :
  storeMarketData now data db =
    match storeItems now data (Sqlite.tables db) with
    | (t, Ok a) => ({| Sqlite.tables := t; Sqlite.journal := None |}, Ok a)
    | (_, Throw e) =>
        ({| Sqlite.tables := Sqlite.tables db; Sqlite.journal := None |}, Throw e)
    end.
Proof. apply SqliteFacts.transaction_run. Qed.

(** [storeMarketData] is all or nothing: when the INSERT of an item
    fails the call throws and the database is as it was; when the call
    returns, the snapshot of every item has been added. *)
Lemma storeMarketData_all_or_nothing now data db db' r :
  Sqlite.journal db = None ->
  storeMarketData now data db = (db', r) ->
  (Exists rejected data -> isOk r = false)
  /\ match r with
     | Throw _ => db' = db
     | Ok _ =>
         exists rows,
           market_data (Sqlite.tables db') = market_data (Sqlite.tables db) ++ rows
           /\ Forall2 (snapshotOf now) rows data
     end.
Proof.
  intros Hj Hrun. split.
  - intros Hex.
    destruct (storeItems_rejected now data (Sqlite.tables db) Hex)
      as (t' & e & Hthrow).
    rewrite storeMarketData_run, Hthrow in Hrun. by inversion Hrun.
  - destruct r as [[]|e].
    + apply SqliteFacts.transaction_ok in Hrun as [Hrun _].
      by apply storeItems_ok_inv in Hrun as [_ Hrows].
    + by eapply SqliteFacts.transaction_throw.
Qed.

(** The records that plugin-coingecko builds have no [coin_id]: the
    adapter rejects every batch of them that is not empty. *)
Lemma storeMarketData_missing_coin_id now item data db :
  own_coin_id item = None ->
  storeMarketData now (item :: data) db =
    ({| Sqlite.tables := Sqlite.tables db; Sqlite.journal := None |},
     Throw "Missing named parameter").
Proof.
  intros Hnone. rewrite storeMarketData_run. simpl.
  unfold insertMarketData. by rewrite Hnone.
Qed.

Lemma snapshotOf_same_keys now1 now2 data : forall rows1 rows2,
  Forall (fun item => is_Some (timestamp item)) data ->
  Forall2 (snapshotOf now1) rows1 data ->
  Forall2 (snapshotOf now2) rows2 data ->
  map rowKey rows2 = map rowKey rows1.
Proof.
  induction data as [|item data IH]; intros rows1 rows2 Hts H1 H2.
  - apply Forall2_nil_inv_r in H1, H2. by subst.
  - apply Forall2_cons_inv_r in H1 as (r1 & rows1' & [Hc1 Ht1] & H1 & ->).
    apply Forall2_cons_inv_r in H2 as (r2 & rows2' & [Hc2 Ht2] & H2 & ->).
    apply Forall_cons in Hts as [[ts Hitem] Hts].
    simpl. rewrite (IH rows1' rows2') by done. f_equal.
    unfold rowKey. rewrite Hitem in Ht1, Ht2. simpl in *. congruence.
Qed.

(** C1 (amended).  Two calls of the adapter's [storeMarketData] in
    succession with the same batch: when the first returns, so does the
    second, which leaves the [coins] table as the first call left it
    (INSERT OR IGNORE) and keeps every row of [market_data] that was
    there; but [market_data] has a surrogate key and no uniqueness on
    (asset, timestamp), so each call appends the snapshot of every item
    of the batch: after the second call each item that carries its
    timestamp has two rows under the same key. *)
Theorem storeMarketData_twice_appends now1 now2 data db db1 :
  storeMarketData now1 data db = (db1, Ok tt) ->
  exists db2 rows1 rows2,
    storeMarketData now2 data db1 = (db2, Ok tt)
    /\ coins (Sqlite.tables db2) = coins (Sqlite.tables db1)
    /\ market_data (Sqlite.tables db1) = market_data (Sqlite.tables db) ++ rows1
    /\ market_data (Sqlite.tables db2) = market_data (Sqlite.tables db1) ++ rows2
    /\ Forall2 (snapshotOf now1) rows1 data
    /\ Forall2 (snapshotOf now2) rows2 data
    /\ (Forall (fun item => is_Some (timestamp item)) data ->
        map rowKey rows2 = map rowKey rows1).
Proof.
  intros Hrun. apply SqliteFacts.transaction_ok in Hrun as [Hrun _].
  destruct (storeItems_ok_inv _ _ _ _ Hrun) as (_ & rows1 & Hrows1 & Hall1).
  destruct (storeItems_again now1 now2 data _ _ (Sqlite.tables db1) Hrun)
    as (t2 & rows2 & Hrun2 & Hcoins & Hrows2 & Hall2); [done|].
  exists {| Sqlite.tables := t2; Sqlite.journal := None |}, rows1, rows2.
  rewrite storeMarketData_run, Hrun2. simpl.
  repeat split; try done.
  intros Hts. by eapply snapshotOf_same_keys.
Qed.

Lemma storeMarketData_twice_appends_witness :
  let batch := [snapshot "aaa" "aaa" "AAA" 1 100 T0] in
  exists db2 rows1 rows2,
    storeMarketData T1 batch (storeMarketData T0 batch freshDb).1 = (db2, Ok tt)
    /\ coins (Sqlite.tables db2) =
         coins (Sqlite.tables (storeMarketData T0 batch freshDb).1)
    /\ market_data (Sqlite.tables (storeMarketData T0 batch freshDb).1) =
         market_data (Sqlite.tables freshDb) ++ rows1
    /\ market_data (Sqlite.tables db2) =
         market_data (Sqlite.tables (storeMarketData T0 batch freshDb).1) ++ rows2
    /\ Forall2 (snapshotOf T0) rows1 batch
    /\ Forall2 (snapshotOf T1) rows2 batch
    /\ (Forall (fun item => is_Some (timestamp item)) batch ->
        map rowKey rows2 = map rowKey rows1).
Proof.
  apply (storeMarketData_twice_appends T0 T1
           [snapshot "aaa" "aaa" "AAA" 1 100 T0] freshDb).
  vm_compute. reflexivity.
Defined.

(** C1 (counterexample).  Storing a one-snapshot batch twice does not
    leave the store as storing it once does: the second call adds a second
    row for the same asset and timestamp. *)
Lemma storeMarketData_twice_not_once :
  let batch := [snapshot "aaa" "aaa" "AAA" 1 100 T0] in
  let once := (storeMarketData T0 batch freshDb).1 in
  let twice := (storeMarketData T0 batch once).1 in
  twice <> once
  /\ map rowKey (market_data (Sqlite.tables once)) = [("aaa", T0)]
  /\ map rowKey (market_data (Sqlite.tables twice)) = [("aaa", T0); ("aaa", T0)].
Proof.
  split; [|split; vm_compute; reflexivity].
  intros Heq.
  apply (f_equal (fun d => length (market_data (Sqlite.tables d)))) in Heq.
  vm_compute in Heq. discriminate.
Qed.

End AdapterFacts.

(** ** adapter-marketdatabase: getMarketAnalysis *)

Module AnalysisFacts.
Import Adapter.

Lemma maxTimestamp_upper t ts m :
  maxTimestamp t = Some ts -> m ∈ market_data t -> (row_timestamp m <= ts)%Z.
Proof.
  unfold maxTimestamp. generalize (market_data t) as l.
  intros l. revert ts. induction l as [|x l IH]; intros ts Hmax Hin.
  - by apply elem_of_nil in Hin.
  - simpl in Hmax.
    destruct (foldr _ None l) as [ts'|] eqn:Hl.
    + inversion Hmax; subst ts. apply elem_of_cons in Hin as [->|Hin].
      * lia.
      * specialize (IH ts' eq_refl Hin). lia.
    + inversion Hmax; subst ts. apply elem_of_cons in Hin as [->|Hin]; [lia|].
      destruct l as [|y l']; [by apply elem_of_nil in Hin|]. simpl in Hl.
      by destruct (foldr _ None l').
Qed.

Lemma elem_of_priceMoversJoin filter t row :
  row ∈ priceMoversJoin filter t ->
  exists m c,
    m ∈ market_data t
    /\ maxTimestamp t = Some (row_timestamp m)
    /\ coins t !! coin_id m = Some c
    /\ row = {| pmr_name := coin_name c;
                pmr_symbol := coin_symbol c;
                pmr_price_change := row_price_change_percentage_24h m;
                pmr_volume := row_total_volume m |}.
Proof.
  unfold priceMoversJoin. intros (m & Hm & Hrow)%elem_of_flat_map.
  case_bool_decide as Hmax; [|by apply elem_of_nil in Hrow].
  destruct (coins t !! coin_id m) as [c|] eqn:Hc; [|by apply elem_of_nil in Hrow].
  apply list_elem_of_fmap in Hrow as (cc & -> & _).
  by exists m, c.
Qed.

(** C9 (amended).  Every entry of [priceMovers] stems from a row [m] of
    [market_data] that carries the newest timestamp of the table (so it is
    the latest snapshot of its asset), and its [volume_change] is the
    double [((m.total_volume / 100) - 1) * 100], each of the three
    operations rounded: a function of that one volume, and of no other
    row. *)
Theorem priceMovers_volume_change now params db :
  Forall (fun e =>
    exists m c,
      m ∈ market_data (Sqlite.tables db)
      /\ (forall m', m' ∈ market_data (Sqlite.tables db) ->
            (row_timestamp m' <= row_timestamp m)%Z)
      /\ coins (Sqlite.tables db) !! coin_id m = Some c
      /\ pm_name e = coin_name c
      /\ pm_symbol e = coin_symbol c
      /\ pm_volume_change e =
           (((toDouble (row_total_volume m) / 100) - 1) * 100)%float)
    (priceMovers (getMarketAnalysis now params db)).
Proof.
  apply Forall_forall. intros e He. simpl in He.
  apply list_elem_of_fmap in He as (row & -> & Hrow).
  unfold priceMoversRaw in Hrow.
  apply elem_of_sqlLimit, elem_of_orderByDesc in Hrow.
  apply elem_of_priceMoversJoin in Hrow as (m & c & Hm & Hmax & Hc & ->).
  exists m, c. repeat split; try done.
  intros m' Hm'. by eapply maxTimestamp_upper.
Qed.

(** C9 (counterexample).  [volume_change] is not the latest
    total volume minus 100.  One coin whose only snapshot has a total
    volume of 101: 101 / 100 is the double 1.01, which lies above the
    rational 101/100; 1.01 - 1 is 0.010000000000000009, and a hundred
    times that is 1.0000000000000009 (the fourth double above 1), where
    101 - 100 is 1. *)
Lemma priceMovers_volume_change_rounded :
  let params := {| timeframe := TF_24h; category := None; limit := None |} in
  map (fun m => (rowKey m, Qred (row_total_volume m)))
    (market_data (Sqlite.tables (oneCoinDb 101))) = [("aaa", T0, 101%Q)]
  /\ map (fun e => (pm_name e, pm_volume_change e))
       (priceMovers (getMarketAnalysis T0 params (oneCoinDb 101))) =
     [("AAA", 0x1.0000000000004p+0%float)]
  /\ (toDouble 101 - 100)%float = 1%float
  /\ (1 <? 0x1.0000000000004p+0)%float = true.
Proof. repeat split; vm_compute; reflexivity. Qed.

(** On the two-coin fixture the newest row is the one of [aaa], with a
    volume of 300: its [volume_change] is 200, without rounding. *)
Example priceMovers_two_coins :
  map (fun e => (pm_name e, pm_volume_change e))
    (priceMovers
       (getMarketAnalysis (T1 + 2000)%Z
          {| timeframe := TF_24h; category := None; limit := Some 3%Z |}
          twoCoinsDb)) = [("AAA", 200%float)].
Proof. vm_compute. reflexivity. Qed.

(** The one entry of that list stems from the snapshot of [aaa] at
    [T1 + 1000], the newest of the four. *)
Lemma priceMovers_volume_change_witness :
  let params := {| timeframe := TF_24h; category := None; limit := Some 3%Z |} in
  let entries := priceMovers (getMarketAnalysis (T1 + 2000)%Z params twoCoinsDb) in
  length entries = 1%nat
  /\ Forall (fun e =>
       exists m,
         rowKey m = ("aaa", (T1 + 1000)%Z)
         /\ pm_volume_change e =
              (((toDouble (row_total_volume m) / 100) - 1) * 100)%float)
       entries.
Proof.
  intros params entries. split; [vm_compute; reflexivity|].
  pose proof (priceMovers_volume_change (T1 + 2000)%Z params twoCoinsDb) as Hall.
  eapply Forall_impl; [exact Hall|].
  intros e (m & c & Hm & Hmax & _ & _ & _ & Hvol). exists m. split; [|done].
  assert (Forall (fun m => (T1 + 1000 <= row_timestamp m)%Z ->
                           rowKey m = ("aaa", (T1 + 1000)%Z))
            (market_data (Sqlite.tables twoCoinsDb))) as Hnewest.
  { vm_compute.
    repeat constructor; intros Hle;
      first [reflexivity | exfalso; apply Hle; reflexivity]. }
  rewrite Forall_forall in Hnewest. apply (Hnewest m Hm).
  assert ((row_timestamp <$> market_data (Sqlite.tables twoCoinsDb)) !! 3%nat
          = Some (T1 + 1000)%Z) as Hlast by (vm_compute; reflexivity).
  apply list_lookup_fmap_Some in Hlast as (m' & Hts & Hm').
  rewrite Hts. by eapply Hmax, list_elem_of_lookup_2.
Defined.

(** The volume-leaders query lists one coin only: every row is computed
    against the single row of [recent], and joins that row's coin. *)
Lemma elem_of_volumeLeadersJoin r now filter t e :
  e ∈ volumeLeadersJoin r now filter t ->
  exists m c,
    m ∈ market_data t
    /\ coin_id m = coin_id r
    /\ coins t !! coin_id r = Some c
    /\ vl_name e = coin_name c /\ vl_symbol e = coin_symbol c
    /\ vl_volume_change e = pctChange (row_total_volume r) (row_total_volume m)
    /\ vl_price_change e = pctChange (row_current_price r) (row_current_price m).
Proof.
  unfold volumeLeadersJoin. intros (m & Hm & He)%elem_of_flat_map.
  apply elem_of_orderByDesc in Hm.
  destruct (_ && _) eqn:Hcond; [|by apply elem_of_nil in He].
  apply andb_prop in Hcond as [_ Hid%String.eqb_eq].
  destruct (coins t !! coin_id m) as [c|] eqn:Hc; [|by apply elem_of_nil in He].
  apply list_elem_of_fmap in He as (cc & -> & _).
  exists m, c. rewrite <- Hid. by repeat split.
Qed.

Lemma volumeLeaders_single_coin now params db :
  exists c,
    Forall (fun e => vl_name e = coin_name c /\ vl_symbol e = coin_symbol c)
      (volumeLeaders (getMarketAnalysis now params db)).
Proof.
  simpl. unfold volumeLeadersRaw.
  destruct (recent now (Sqlite.tables db)) as [r|];
    [|exists {| coin_symbol := ""; coin_name := "" |}; constructor].
  destruct (coins (Sqlite.tables db) !! coin_id r) as [c|] eqn:Hc.
  - exists c. apply Forall_forall. intros e He.
    apply elem_of_sqlLimit, elem_of_orderByDesc, elem_of_volumeLeadersJoin in He
      as (m & c' & _ & _ & Hc' & Hn & Hs & _).
    rewrite Hc in Hc'. by inversion Hc'; subst c'.
  - exists {| coin_symbol := ""; coin_name := "" |}.
    apply Forall_forall. intros e He.
    apply elem_of_sqlLimit, elem_of_orderByDesc, elem_of_volumeLeadersJoin in He
      as (m & c' & _ & _ & Hc' & _).
    congruence.
Qed.

(** C2 (the code at the failing input).  Two coins of the category, each
    with a snapshot at [T0] and one a day later: the volume leaders hold
    rows of one coin only, the coin of the newest row of the table, one of
    which compares that newest snapshot with itself; the other coin, whose
    volume rose by half, is absent. *)
Theorem volumeLeaders_two_coins :
  let params := {| timeframe := TF_24h; category := Some "base-ecosystem";
                   limit := None |} in
  map (fun m => (rowKey m, Qred (row_current_price m), Qred (row_total_volume m)))
    (market_data (Sqlite.tables twoCoinsDb)) =
    [ ("aaa", T0, 1%Q, 100%Q); ("bbb", T0, 2%Q, 1000%Q);
      ("bbb", T1, 3%Q, 1500%Q); ("aaa", (T1 + 1000)%Z, 2%Q, 300%Q) ]
  /\ coin_categories (Sqlite.tables twoCoinsDb) =
       [("aaa", "base-ecosystem"); ("bbb", "base-ecosystem")]
  /\ map (fun e => (vl_name e, Qred <$> vl_volume_change e, Qred <$> vl_price_change e))
       (volumeLeaders (getMarketAnalysis (T1 + 2000)%Z params twoCoinsDb)) =
     [("AAA", Some 200%Q, Some 100%Q); ("AAA", Some 0%Q, Some 0%Q)].
Proof. repeat split; vm_compute; reflexivity. Qed.

End AnalysisFacts.

(** ** ORDER BY ... DESC sorts *)

Lemma Qltb_lt x y : Qltb x y = true <-> (x < y)%Q.
Proof.
  unfold Qltb. rewrite negb_true_iff, <- not_true_iff_false, Qle_bool_iff.
  split; [apply Qnot_le_lt|apply Qlt_not_le].
Qed.

Lemma Qltb_ge x y : Qltb x y = false <-> (y <= x)%Q.
Proof. unfold Qltb. by rewrite negb_false_iff, Qle_bool_iff. Qed.

Lemma keyGt_irrefl a : keyGt a a = false.
Proof. destruct a as [x|]; simpl; [|done]. apply Qltb_ge, Qle_refl. Qed.

Lemma keyGt_asym a b : keyGt a b = true -> keyGt b a = false.
Proof.
  destruct a as [x|], b as [y|]; simpl; try done.
  rewrite Qltb_lt, Qltb_ge. apply Qlt_le_weak.
Qed.

Lemma keyGe_trans a b c :
  keyGt b a = false -> keyGt c b = false -> keyGt c a = false.
Proof.
  destruct a as [x|], b as [y|], c as [z|]; simpl; try done.
  rewrite !Qltb_ge. intros Hyx Hzy. by eapply Qle_trans.
Qed.

Section OrderBy.
Context {A : Type} (key : A -> option Q).

Local Abbreviation noLater := (noLater key).

Lemma insertDesc_sorted x l :
  StronglySorted noLater l -> StronglySorted noLater (insertDesc key x l).
Proof.
  induction l as [|y l IH]; simpl; intros Hs.
  - by repeat constructor.
  - apply StronglySorted_cons in Hs as [Hy Hs].
    destruct (keyGt (key y) (key x)) eqn:Hyx.
    + apply StronglySorted_cons. split; [|by apply IH].
      rewrite insertDesc_Permutation. constructor; [|done].
      by apply keyGt_asym.
    + apply StronglySorted_cons. split; [|by apply StronglySorted_cons].
      constructor; [done|].
      eapply Forall_impl; [exact Hy|]. intros z Hz. unfold noLater in *.
      by eapply keyGe_trans.
Qed.

Lemma orderByDesc_sorted l : StronglySorted noLater (orderByDesc key l).
Proof.
  induction l as [|x l IH]; simpl; [constructor|]. by apply insertDesc_sorted.
Qed.

(** In the sorted list a row whose key is strictly greater stands at a
    smaller index. *)
Lemma orderByDesc_lookup_lt l i j a b :
  orderByDesc key l !! i = Some a ->
  orderByDesc key l !! j = Some b ->
  keyGt (key a) (key b) = true ->
  (i < j)%nat.
Proof.
  intros Hi Hj Hgt.
  destruct (decide (i < j)%nat) as [|Hge]; [done|]. exfalso.
  destruct (decide (i = j)) as [->|Hne].
  - rewrite Hi in Hj. inversion Hj; subst b.
    by rewrite keyGt_irrefl in Hgt.
  - assert (j < i)%nat as Hlt by lia.
    pose proof (orderByDesc_sorted l) as Hs.
    rewrite <- (take_drop i (orderByDesc key l)) in Hs.
    assert (noLater b a) as Hba.
    { eapply (StronglySorted_app_1_elem_of _ _ _ _ _ Hs).
      - apply elem_of_take. eauto.
      - eapply list_elem_of_lookup_2 with (i := 0%nat).
        by rewrite lookup_drop, Nat.add_0_r. }
    unfold noLater in Hba. congruence.
Qed.

End OrderBy.

(** ** plugin-base-market: the store *)

Module BaseMarketFacts.
Import BaseMarket.

#[local] Instance bindable_dec token : Decision (bindable token).
Proof. unfold bindable. apply _. Defined.

Section Store.
Variable conflicts : Row -> list Row -> bool.

Lemma runInsert_bindable token t :
  bindable token -> exists t', runInsert conflicts token t = Ok t'.
Proof.
  unfold bindable, runInsert.
  destruct (bindColumns columns token) as [row|e]; [|done]. by eexists.
Qed.

Lemma runInsert_unbindable token t :
  ~ bindable token -> exists e, runInsert conflicts token t = Throw e.
Proof.
  unfold bindable, runInsert.
  destruct (bindColumns columns token) as [row|e]; [done|]. by eexists.
Qed.

Lemma insertTokens_bindable data : forall t,
  Forall bindable data -> exists t', insertTokens conflicts data t = (t', Ok tt).
Proof.
  induction data as [|token data IH]; intros t Hall; simpl; [by eexists|].
  apply Forall_cons in Hall as [Htoken Hall].
  destruct (runInsert_bindable token t Htoken) as (t1 & ->). by apply IH.
Qed.

Lemma insertTokens_unbindable data : forall t,
  ~ Forall bindable data ->
  exists t' e, insertTokens conflicts data t = (t', Throw e).
Proof.
  induction data as [|token data IH]; intros t Hnot.
  - exfalso. apply Hnot. constructor.
  - simpl. destruct (decide (bindable token)) as [Htoken|Htoken].
    + destruct (runInsert_bindable token t Htoken) as (t1 & ->).
      apply IH. intros Hall. apply Hnot. by constructor.
    + destruct (runInsert_unbindable token t Htoken) as (e & ->). by eexists _, _.
Qed.

Lemma base_storeMarketData_run data db :
  storeMarketData conflicts data db =
    match insertTokens conflicts data (Sqlite.tables db) with
    | (t, Ok a) => ({| Sqlite.tables := t; Sqlite.journal := None |}, Ok a)
    | (_, Throw e) =>
        ({| Sqlite.tables := Sqlite.tables db; Sqlite.journal := None |}, Throw e)
    end.
Proof. apply SqliteFacts.transaction_run. Qed.

(** The plugin's [storeMarketData] is all or nothing: a batch with a token
    that cannot be bound leaves the database as it was and throws; any
    other batch runs the INSERT OR IGNORE of every token. *)
Lemma base_storeMarketData_all_or_nothing data db db' r :
  Sqlite.journal db = None ->
  storeMarketData conflicts data db = (db', r) ->
  match r with
  | Throw _ => db' = db /\ ~ Forall bindable data
  | Ok _ =>
      Forall bindable data
      /\ insertTokens conflicts data (Sqlite.tables db) = (Sqlite.tables db', Ok tt)
  end.
Proof.
  intros Hj Hrun. destruct r as [[]|e].
  - apply SqliteFacts.transaction_ok in Hrun as [Hrun _]. split; [|done].
    destruct (decide (Forall bindable data)) as [|Hnot]; [done|].
    destruct (insertTokens_unbindable data (Sqlite.tables db) Hnot)
      as (t' & e & Hthrow). congruence.
  - split; [by eapply SqliteFacts.transaction_throw|].
    intros Hall.
    destruct (insertTokens_bindable data (Sqlite.tables db) Hall) as (t' & Hok).
    rewrite base_storeMarketData_run, Hok in Hrun. congruence.
Qed.

End Store.
End BaseMarketFacts.

(** ** The store operations are atomic *)

Module StoreFacts.

(** C6.  Each of the two store operations, the adapter's and the
    plugin's, is one transaction.  When the write of a row fails (a
    parameter that cannot be bound, a NOT NULL or foreign-key violation in
    the adapter; a token that cannot be bound in the plugin) the call
    throws and the database is exactly as before the call; when the call
    returns, every row of the batch was written (the plugin's INSERT OR
    IGNORE of every token was run). *)
Theorem storeMarketData_atomic now conflicts
  (snapshots : list Adapter.MarketData) (tokens : list BaseMarket.Token)
  (adb : Adapter.Database) (bdb : BaseMarket.Database) :
  Sqlite.journal adb = None ->
  Sqlite.journal bdb = None ->
  (let '(db', r) := Adapter.storeMarketData now snapshots adb in
   (Exists Adapter.rejected snapshots -> isOk r = false)
   /\ match r with
      | Throw _ => db' = adb
      | Ok _ =>
          exists rows,
            Adapter.market_data (Sqlite.tables db') =
              Adapter.market_data (Sqlite.tables adb) ++ rows
            /\ Forall2 (Adapter.snapshotOf now) rows snapshots
      end)
  /\
  (let '(db', r) := BaseMarket.storeMarketData conflicts tokens bdb in
   match r with
   | Throw _ => db' = bdb /\ ~ Forall BaseMarket.bindable tokens
   | Ok _ =>
       Forall BaseMarket.bindable tokens
       /\ BaseMarket.insertTokens conflicts tokens (Sqlite.tables bdb) =
            (Sqlite.tables db', Ok tt)
   end).
Proof.
  intros Ha Hb. split.
  - destruct (Adapter.storeMarketData now snapshots adb) as [db' r] eqn:Hrun.
    by eapply AdapterFacts.storeMarketData_all_or_nothing.
  - destruct (BaseMarket.storeMarketData conflicts tokens bdb) as [db' r] eqn:Hrun.
    by eapply BaseMarketFacts.base_storeMarketData_all_or_nothing.
Qed.

(** A batch whose second row fails, in either store: nothing of the first
    row is left. *)
Lemma storeMarketData_atomic_witness :
  let snapshots := [Adapter.snapshot "aaa" "aaa" "AAA" 1 100 Adapter.T0;
                    Adapter.nullPrice "bbb" Adapter.T0;
                    Adapter.snapshot "ccc" "ccc" "CCC" 1 100 Adapter.T0] in
  let tokens := [BaseMarket.tag "base-meme-coins" 1700000000
                   (BaseMarket.apiToken "aaa" 1 1 1 0 0);
                 BaseMarket.apiToken "bbb" 1 1 1 0 0] in
  Adapter.storeMarketData Adapter.T0 snapshots Adapter.freshDb =
    (Adapter.freshDb, Throw "NOT NULL constraint failed")
  /\ BaseMarket.storeMarketData BaseMarket.uniqueKey tokens BaseMarket.emptyDb =
       (BaseMarket.emptyDb, Throw "Missing named parameter")
  /\ (Adapter.storeMarketData Adapter.T0 snapshots Adapter.freshDb).1 = Adapter.freshDb
  /\ (BaseMarket.storeMarketData BaseMarket.uniqueKey tokens BaseMarket.emptyDb).1 =
       BaseMarket.emptyDb.
Proof.
  intros snapshots tokens.
  pose proof (storeMarketData_atomic Adapter.T0 BaseMarket.uniqueKey
                snapshots tokens Adapter.freshDb BaseMarket.emptyDb
                eq_refl eq_refl) as [Ha Hb].
  assert (Adapter.storeMarketData Adapter.T0 snapshots Adapter.freshDb =
            (Adapter.freshDb, Throw "NOT NULL constraint failed")) as Ea
    by (vm_compute; reflexivity).
  assert (BaseMarket.storeMarketData BaseMarket.uniqueKey tokens BaseMarket.emptyDb =
            (BaseMarket.emptyDb, Throw "Missing named parameter")) as Eb
    by (vm_compute; reflexivity).
  split; [exact Ea|]. split; [exact Eb|].
  rewrite Ea in Ha. rewrite Eb in Hb. split; [apply Ha|apply Hb].
Defined.

End StoreFacts.

(** ** plugin-base-market: getNotableMovers *)

Module MoversFacts.
Import BaseMarket.

Lemma sqlGe_Some x c : sqlGe x c = true -> exists v, x = Some v /\ (c <= v)%Q.
Proof.
  destruct x as [v|]; simpl; [|done]. rewrite Qle_bool_iff. by exists v.
Qed.

Lemma atLeastOne_above v c : (1 < c)%Q -> (c <= v)%Q -> atLeastOne (Some v) = v.
Proof.
  intros Hc Hv. unfold atLeastOne.
  assert (Qltb 1 v = true) as ->; [|done].
  apply Qltb_lt. by eapply Qlt_le_trans.
Qed.

Section Analytics.
Variable LOG10 : Q -> Q.

(** What the WHERE clause of [base_native_metrics] lets through. *)
Lemma base_native_metrics_eligible t m :
  m ∈ base_native_metrics LOG10 t ->
  exists bmd bti cap volume,
    bmd ∈ base_market_data t
    /\ sqlEq (realCol "timestamp" bmd) (maxTimestamp (base_market_data t)) = true
    /\ base_token_info t !! m_id m = Some bti
    /\ ti_asset_platform_id bti = Some "base"
    /\ m_market_cap m = Some cap /\ (MIN_MARKET_CAP <= cap)%Q
    /\ m_total_volume m = Some volume /\ (MIN_VOLUME <= volume)%Q
    /\ (forall tf, scoreOf tf m =
          (fun c => c * LOG10 cap * LOG10 volume)%Q <$> changeOf tf m).
Proof.
  unfold base_native_metrics. intros (bmd & Hbmd & Hm)%list_elem_of_omap.
  unfold metricOf in Hm.
  destruct (textCol "id" bmd) as [i|]; [|done].
  destruct (base_token_info t !! i) as [bti|] eqn:Hbti; [|done].
  destruct (_ && _) eqn:Hcond; [|done].
  repeat (apply andb_prop in Hcond as [Hcond ?]).
  match goal with H : bool_decide _ = true |- _ => apply bool_decide_eq_true in H end.
  match goal with H : sqlGe _ MIN_MARKET_CAP = true |- _ =>
    apply sqlGe_Some in H as (cap & Hcap & Hcapge) end.
  match goal with H : sqlGe _ MIN_VOLUME = true |- _ =>
    apply sqlGe_Some in H as (volume & Hvol & Hvolge) end.
  inversion Hm; subst m; simpl.
  exists bmd, bti, cap, volume. repeat split; try done.
  intros tf. rewrite Hcap, Hvol. unfold movementScore.
  rewrite (atLeastOne_above cap MIN_MARKET_CAP), (atLeastOne_above volume MIN_VOLUME)
    by done.
  by destruct tf.
Qed.

(** What the WHERE clause and the PARTITION BY of a ranked subquery let
    into one bucket. *)
Lemma partition_eligible tf ty metrics m :
  m ∈ partition tf ty metrics <->
  m ∈ metrics
  /\ (exists c, changeOf tf m = Some c /\ (MIN_CHANGE <= Qabs c)%Q)
  /\ movementType (changeOf tf m) = ty.
Proof.
  unfold partition. rewrite elem_of_List_filter, andb_true_iff.
  split.
  - intros (Hm & (c & Hc & Hge)%sqlGe_Some & Hty). split; [done|]. split.
    + destruct (changeOf tf m) as [c'|]; [|done]. simpl in Hc.
      inversion Hc; subst c. by exists c'.
    + by destruct (movementType (changeOf tf m)), ty.
  - intros (Hm & (c & Hc & Hge) & Hty). split; [done|]. split.
    + rewrite Hc. simpl. by apply Qle_bool_iff.
    + rewrite Hty. by destruct ty.
Qed.



End Analytics.



End MoversFacts.

(** ** The fetchers: pagination *)

Module FetchFacts.
Import BaseMarket.

Lemma countWhere_app f t1 t2 :
  countWhere f (t1 ++ t2) = (countWhere f t1 + countWhere f t2)%nat.
Proof. unfold countWhere. by rewrite List.filter_app, length_app. Qed.

(** The requests and waits of [n] full pages from page [start] on. *)
Lemma countWhere_full_pages category start n :
  countWhere isRequest
    (flat_map (fun p => [MarketsRequest category (Some p); Sleep PAGE_DELAY])
       (seq start n)) = n
  /\ countWhere isSleep
       (flat_map (fun p => [MarketsRequest category (Some p); Sleep PAGE_DELAY])
          (seq start n)) = n.
Proof.
  revert start. induction n as [|n IH]; intros start; [done|].
  destruct (IH (S start)) as [Hr Hs]. unfold countWhere in *. simpl.
  by rewrite Hr, Hs.
Qed.

Section Pagination.
Variable upstream : Upstream.
Variable category : string.
Variable pages : nat -> list Token.

(** The loop over [n] full pages followed by a short one. *)
Lemma fetchPages_full_then_short n : forall start fuel allTokens trace,
  (n < fuel)%nat ->
  (forall p, (start <= p < start + n)%nat ->
     upstream category p = PageData (pages p) /\ length (pages p) = PER_PAGE) ->
  upstream category (start + n) = PageData (pages (start + n)) ->
  (length (pages (start + n)) < PER_PAGE)%nat ->
  fetchPages upstream category fuel start allTokens trace =
    Some (Fetched (allTokens ++ concat (map pages (seq start (S n)))),
          trace
          ++ flat_map (fun p => [MarketsRequest category (Some p); Sleep PAGE_DELAY])
               (seq start n)
          ++ [MarketsRequest category (Some (start + n)%nat)]).
Proof.
  induction n as [|n IH]; intros start fuel allTokens trace Hfuel Hfull Hlast Hshort;
    (destruct fuel as [|fuel]; [lia|]); simpl.
  - rewrite Nat.add_0_r in *. rewrite Hlast.
    apply Nat.ltb_lt in Hshort. rewrite Hshort. by rewrite app_nil_r.
  - destruct (Hfull start ltac:(lia)) as [Hpage Hlen]. rewrite Hpage.
    assert ((length (pages start) <? PER_PAGE)%nat = false) as ->.
    { apply Nat.ltb_ge. lia. }
    rewrite (IH (S start) fuel).
    + replace (S start + n)%nat with (start + S n)%nat by lia.
      f_equal. f_equal.
      * by rewrite <- app_assoc.
      * by rewrite <- !app_assoc.
    + lia.
    + intros p Hp. apply Hfull. lia.
    + by replace (S start + n)%nat with (start + S n)%nat by lia.
    + by replace (S start + n)%nat with (start + S n)%nat by lia.
Qed.

End Pagination.

(** [fetchCategoryData] of plugin-coingecko issues one request, which
    names no page, and returns the first page. *)
Lemma fetchCategoryData_one_request upstream category :
  (CoinGecko.fetchCategoryData upstream category).2 =
    [MarketsRequest (CoinGecko.categoryId category) None]
  /\ forall items,
       upstream category 1%nat = CoinGecko.MarketsData items ->
       (CoinGecko.fetchCategoryData upstream category).1 = Ok items.
Proof.
  unfold CoinGecko.fetchCategoryData. split.
  - destruct (upstream category 1%nat); [done|done|]. by case_bool_decide.
  - by intros items ->.
Qed.

(** C5 (amended).  On a service that holds an API key, when the upstream
    returns 250 records for each of the pages 1..N of a category and
    fewer than 250 for page N+1, [fetchMarketData] of plugin-base-market
    issues exactly the N+1 requests for the pages 1, ..., N+1, waits 1.1 s
    after each full page and not after the short one, and accumulates the
    concatenation of the pages in order; when the store of the batch
    succeeds it returns these records, each tagged with the category and
    the timestamp of the fetch.  [fetchCategoryData] of plugin-coingecko
    does not paginate: it issues one request and returns that page. *)
Theorem fetchMarketData_pagination conflicts (upstream : Upstream)
  (category : string) (pages : nat -> list Token) (N fuel : nat) (now : Z)
  (svc : Service) (key : string) :
  apiKey svc = Some key ->
  (forall p, (1 <= p <= N)%nat ->
     upstream category p = PageData (pages p) /\ length (pages p) = 250%nat) ->
  upstream category (S N) = PageData (pages (S N)) ->
  (length (pages (S N)) < 250)%nat ->
  (N < fuel)%nat ->
  let records := concat (map pages (seq 1 (S N))) in
  let trace :=
    flat_map (fun p => [MarketsRequest category (Some p); Sleep 1100]) (seq 1 N)
    ++ [MarketsRequest category (Some (S N))] in
  let tagged := map (tag category (now `div` 1000)) records in
  fetchPages upstream category fuel 1 [] [] = Some (Fetched records, trace)
  /\ countWhere isRequest trace = S N
  /\ countWhere isSleep trace = N
  /\ last trace = Some (MarketsRequest category (Some (S N)))
  /\ (forall db',
        storeMarketData conflicts tagged (db svc) = (db', Ok tt) ->
        fetchMarketData conflicts upstream fuel now category svc =
          Some ({| db := db'; apiKey := apiKey svc |},
                {| success := true; data := Some tagged; error := None |},
                trace))
  /\ (forall cg c,
        (CoinGecko.fetchCategoryData cg c).2 =
          [MarketsRequest (CoinGecko.categoryId c) None]
        /\ forall items,
             cg c 1%nat = CoinGecko.MarketsData items ->
             (CoinGecko.fetchCategoryData cg c).1 = Ok items).
Proof.
  intros Hkey Hfull Hlast Hshort Hfuel records trace tagged.
  assert (fetchPages upstream category fuel 1 [] [] = Some (Fetched records, trace))
    as Hpages.
  { rewrite (fetchPages_full_then_short upstream category pages N 1 fuel [] []);
      try done.
    intros p Hp. apply Hfull. lia. }
  split; [done|].
  destruct (countWhere_full_pages category 1 N) as [Hr Hs].
  split; [|split; [|split; [|split]]].
  - unfold trace. rewrite countWhere_app. fold PAGE_DELAY. rewrite Hr.
    unfold countWhere. simpl. lia.
  - unfold trace. rewrite countWhere_app. fold PAGE_DELAY. rewrite Hs.
    unfold countWhere. simpl. lia.
  - unfold trace. apply last_snoc.
  - intros db' Hstore. unfold fetchMarketData. rewrite Hkey, Hpages.
    fold records tagged. by rewrite Hstore.
  - intros cg c. apply fetchCategoryData_one_request.
Qed.

(** One full page and a page of one record, on an empty database. *)
Lemma fetchMarketData_pagination_witness :
  let records := fullPage ++ shortPage in
  let trace := [MarketsRequest "base-meme-coins" (Some 1%nat); Sleep 1100;
                MarketsRequest "base-meme-coins" (Some 2%nat)] in
  fetchPages twoPages "base-meme-coins" 2 1 [] [] = Some (Fetched records, trace)
  /\ countWhere isRequest trace = 2%nat
  /\ countWhere isSleep trace = 1%nat
  /\ last trace = Some (MarketsRequest "base-meme-coins" (Some 2%nat))
  /\ option_map (fun r => (success r.1.2, r.2))
       (fetchMarketData uniqueKey twoPages 2 1700000000999 "base-meme-coins"
          readyService) = Some (true, trace).
Proof.
  intros records trace.
  pose proof (fetchMarketData_pagination uniqueKey twoPages "base-meme-coins"
                (fun p => match p with 1%nat => fullPage | _ => shortPage end)
                1 2 1700000000999 readyService "key" eq_refl) as Hthm.
  destruct Hthm as (Hpages & Hr & Hs & Hl & Hfetch & _).
  - intros p Hp. assert (p = 1%nat) as -> by lia. split; reflexivity.
  - reflexivity.
  - vm_compute. lia.
  - lia.
  - split; [exact Hpages|]. split; [exact Hr|]. split; [exact Hs|].
    split; [exact Hl|].
    assert ((storeMarketData uniqueKey
               (map (tag "base-meme-coins" (1700000000999 `div` 1000))
                  (concat (map (fun p => match p with
                                         | 1%nat => fullPage
                                         | _ => shortPage
                                         end) (seq 1 2))))
               (db readyService)).2 = Ok tt) as Hok by (vm_compute; reflexivity).
    destruct (storeMarketData uniqueKey _ (db readyService)) as [db' r] eqn:Hstore.
    cbn [snd] in Hok; subst r.
    rewrite (Hfetch db' eq_refl). reflexivity.
Defined.

(** C5 (counterexample).  An upstream with one full page and a second
    page of one record (N = 1): [fetchCategoryData] issues one request,
    not two, and returns the 250 records of the first page, not the
    251 of both. *)
Lemma fetchCategoryData_no_pagination :
  let run := CoinGecko.fetchCategoryData CoinGecko.twoPages CoinGecko.base_meme_coins in
  CoinGecko.twoPages CoinGecko.base_meme_coins 1%nat =
    CoinGecko.MarketsData CoinGecko.fullPage
  /\ length CoinGecko.fullPage = 250%nat
  /\ CoinGecko.twoPages CoinGecko.base_meme_coins 2%nat =
       CoinGecko.MarketsData CoinGecko.shortPage
  /\ length CoinGecko.shortPage = 1%nat
  /\ run.2 = [MarketsRequest "base-meme-coins" None]
  /\ countWhere isRequest run.2 = 1%nat
  /\ run.1 = Ok CoinGecko.fullPage
  /\ run.1 <> Ok (CoinGecko.fullPage ++ CoinGecko.shortPage).
Proof.
  intros run.
  do 7 (split; [vm_compute; reflexivity|]).
  intros Heq. assert (run.1 = Ok CoinGecko.fullPage) as Hrun by reflexivity.
  rewrite Hrun in Heq.
  apply (f_equal (fun r => match r with Ok l => length l | Throw _ => 0%nat end)) in Heq.
  vm_compute in Heq. discriminate.
Qed.

End FetchFacts.

(** ** plugin-base-market: the enrichment queue *)

Module TokenInfoFacts.
Import TokenInfo.

Lemma drain_unfold upstream fuel st tokenId rest :
  requestQueue st = tokenId :: rest ->
  drain upstream (S fuel) st =
    drain upstream fuel (drainStep upstream tokenId rest st).
Proof. intros Hq. simpl. by rewrite Hq. Qed.

Lemma fetchTokenInfo_apiKey upstream tokenId st :
  apiKey (fetchTokenInfo upstream tokenId st).1 = apiKey st.
Proof.
  unfold fetchTokenInfo. destruct (apiKey st) eqn:Hkey; [|done].
  destruct (upstream (requests st) tokenId) as [[]| |status]; try done.
  destruct (rateLimited (CoinError status)); simpl; by rewrite ?Hkey.
Qed.

Lemma drainStep_apiKey upstream tokenId rest st :
  apiKey (drainStep upstream tokenId rest st) = apiKey st.
Proof.
  unfold drainStep. destruct (String.eqb tokenId ""); [done|].
  pose proof (fetchTokenInfo_apiKey upstream tokenId
                (rateLimit (withQueue rest [Shift tokenId] st))) as Hkey.
  destruct (fetchTokenInfo _ _ _) as [st2 result]. simpl in Hkey.
  by destruct (success result).
Qed.

Lemma fetchTokenInfo_settled upstream tokenId st :
  (is_Some (apiKey st) -> rateLimited (upstream (requests st) tokenId) = false) ->
  requestQueue (fetchTokenInfo upstream tokenId st).1 = requestQueue st.
Proof.
  intros Hfree. unfold fetchTokenInfo.
  destruct (apiKey st) as [k|] eqn:Hkey; [|done].
  specialize (Hfree ltac:(done)).
  destruct (upstream (requests st) tokenId) as [[]| |status]; try done.
  by rewrite Hfree.
Qed.

Lemma fetchTokenInfo_rate_limited upstream tokenId st k :
  apiKey st = Some k ->
  rateLimited (upstream (requests st) tokenId) = true ->
  fetchTokenInfo upstream tokenId st =
    (handleRateLimit tokenId (issue tokenId st),
     {| success := false; error := Some "Rate limit hit, will retry" |}).
Proof.
  intros Hkey Hlim. unfold fetchTokenInfo. rewrite Hkey.
  destruct (upstream (requests st) tokenId) as [[]| |status]; try done.
  by rewrite Hlim.
Qed.

(** A falsy identifier is dropped without a request. *)
Lemma drainStep_falsy upstream rest st :
  drainStep upstream "" rest st = withQueue rest [Shift ""] st.
Proof. done. Qed.

(** An outcome other than 429 leaves the rest of the queue. *)
Lemma drainStep_settled upstream tokenId rest st :
  (is_Some (apiKey st) -> rateLimited (upstream (requests st) tokenId) = false) ->
  requestQueue (drainStep upstream tokenId rest st) = rest.
Proof.
  intros Hfree. unfold drainStep. destruct (String.eqb tokenId ""); [done|].
  pose proof (fetchTokenInfo_settled upstream tokenId
                (rateLimit (withQueue rest [Shift tokenId] st)) Hfree) as Hq.
  destruct (fetchTokenInfo _ _ _) as [st2 result]. simpl in Hq.
  by destruct (success result).
Qed.

(** The iteration on a 429: the wait between requests, the request, the
    60 s backoff, then the identifier back at the front of the queue;
    and the outcome is counted as a failure. *)
Lemma drainStep_rate_limited upstream tokenId rest st k :
  tokenId <> "" ->
  apiKey st = Some k ->
  rateLimited (upstream (requests st) tokenId) = true ->
  drainStep upstream tokenId rest st =
    {| requestQueue := tokenId :: rest;
       apiKey := Some k;
       successCount := successCount st;
       failureCount := S (failureCount st);
       failedTokenIds := failedTokenIds st ++ [tokenId];
       requests := S (requests st);
       trace := trace st ++ [Shift tokenId; Sleep DELAY_BETWEEN_REQUESTS;
                             CoinRequest tokenId; Sleep backoffTime;
                             Unshift tokenId] |}.
Proof.
  intros Hid Hkey Hlim. unfold drainStep.
  apply String.eqb_neq in Hid. rewrite Hid.
  rewrite (fetchTokenInfo_rate_limited _ _ _ k) by done.
  unfold countFailure, handleRateLimit, rateLimit, log, withQueue, issue. simpl.
  rewrite Hkey. by rewrite <- !app_assoc.
Qed.

Section Drain.
Variable upstream : Upstream.

Local Abbreviation settles := (settles upstream).
Local Abbreviation drains := (drains upstream).

Lemma drains_step st tokenId rest :
  requestQueue st = tokenId :: rest ->
  drains (drainStep upstream tokenId rest st) -> drains st.
Proof.
  intros Hq (fuel & st' & Hrun & Hempty).
  exists (S fuel), st'. by rewrite (drain_unfold _ _ _ _ _ Hq).
Qed.

(** The head of the queue is retried until its request is not answered
    429; then the rest of the queue is drained. *)
Lemma drains_head tokenId rest :
  (tokenId <> "" -> settles tokenId) ->
  (forall st, requestQueue st = rest -> drains st) ->
  forall st, requestQueue st = tokenId :: rest -> drains st.
Proof.
  intros Hsettles IH st Hq.
  destruct (decide (tokenId = "")) as [->|Hid].
  { eapply drains_step; [done|]. by apply IH. }
  destruct (apiKey st) as [k|] eqn:Hkey; cycle 1.
  { eapply drains_step; [done|]. apply IH, drainStep_settled.
    rewrite Hkey. by intros [? ?]. }
  destruct (Hsettles Hid (requests st)) as (m & Hm & Hfree).
  remember (m - requests st)%nat as d eqn:Hd.
  revert st Hq Hkey Hm Hd. induction d as [|d IHd]; intros st Hq Hkey Hm Hd.
  - assert (requests st = m) as Heq by lia.
    eapply drains_step; [done|]. apply IH, drainStep_settled. by rewrite Heq.
  - destruct (rateLimited (upstream (requests st) tokenId)) eqn:Hlim.
    + eapply drains_step; [done|].
      rewrite (drainStep_rate_limited _ _ _ _ k) by done.
      apply IHd; simpl; try done; lia.
    + eapply drains_step; [done|]. by apply IH, drainStep_settled.
Qed.

Lemma drains_queue queue :
  (forall tokenId, tokenId ∈ queue -> tokenId <> "" -> settles tokenId) ->
  forall st, requestQueue st = queue -> drains st.
Proof.
  induction queue as [|tokenId rest IH]; intros Hsettle st Hq.
  - exists 1%nat, st. simpl. by rewrite Hq.
  - eapply drains_head; [| |done].
    + apply Hsettle, elem_of_cons. by left.
    + apply IH. intros t Ht. apply Hsettle, elem_of_cons. by right.
Qed.

(** An identifier that is fetched and always answered 429 never leaves
    the queue. *)
Lemma drain_diverges tokenId k :
  tokenId <> "" ->
  (forall n, rateLimited (upstream n tokenId) = true) ->
  forall fuel st,
    apiKey st = Some k -> tokenId ∈ requestQueue st ->
    drain upstream fuel st = None.
Proof.
  intros Hid Hlim. induction fuel as [|fuel IH]; intros st Hkey Hin; [done|].
  destruct (requestQueue st) as [|head rest] eqn:Hq; [by apply elem_of_nil in Hin|].
  rewrite (drain_unfold _ _ _ _ _ Hq). apply IH.
  - by rewrite drainStep_apiKey.
  - destruct (decide (head = tokenId)) as [->|Hne].
    + rewrite (drainStep_rate_limited _ _ _ _ k) by done. simpl.
      apply elem_of_cons. by left.
    + apply elem_of_cons in Hin as [Heq|Hin]; [congruence|].
      destruct (decide (head = "")) as [->|Hhead]; [done|].
      destruct (rateLimited (upstream (requests st) head)) eqn:Hhl.
      * rewrite (drainStep_rate_limited _ _ _ _ k) by done. simpl.
        apply elem_of_cons. by right.
      * by rewrite drainStep_settled.
Qed.

End Drain.

(** C10.  A pass of [processBulkTokenInfo] over any list completes with
    the queue empty, provided the fetch of each identifier it fetches has
    an outcome other than 429 after finitely many tries.  An identifier
    whose fetch is answered 429 is put back at the front of the queue,
    where the next iteration takes it again; so when the fetch of some
    identifier of the list is answered 429 at every try, no amount of
    fuel completes the loop.  (An empty list returns at once and leaves
    the queue as it is: the service is idle, its queue empty.  The falsy
    identifier [""] is dropped without a fetch, and a fetch needs the API
    key.) *)
Theorem processBulkTokenInfo_terminates upstream tokenIds queue key :
  (tokenIds = [] -> queue = []) ->
  ((forall tokenId, tokenId ∈ tokenIds -> tokenId <> "" -> settles upstream tokenId) ->
   exists fuel run,
     processBulkTokenInfo upstream fuel tokenIds queue key = Some run
     /\ requestQueue run = [])
  /\ (forall tokenId rest st k,
        requestQueue st = tokenId :: rest ->
        tokenId <> "" -> apiKey st = Some k ->
        rateLimited (upstream (requests st) tokenId) = true ->
        requestQueue (drainStep upstream tokenId rest st) = tokenId :: rest
        /\ forall fuel,
             drain upstream (S (S fuel)) st =
             drain upstream fuel
               (drainStep upstream tokenId rest
                  (drainStep upstream tokenId rest st)))
  /\ (forall tokenId k,
        key = Some k -> tokenId ∈ tokenIds -> tokenId <> "" ->
        (forall n, rateLimited (upstream n tokenId) = true) ->
        forall fuel, processBulkTokenInfo upstream fuel tokenIds queue key = None).
Proof.
  intros Hidle. split; [|split].
  - intros Hsettle. unfold processBulkTokenInfo.
    destruct tokenIds as [|tokenId rest] eqn:Hids.
    + exists 0%nat, (idle queue key). split; [done|]. simpl. by apply Hidle.
    + rewrite <- Hids in *. by apply (drains_queue upstream tokenIds).
  - intros tokenId rest st k Hq Hid Hkey Hlim. split.
    + by rewrite (drainStep_rate_limited _ _ _ _ k).
    + intros fuel.
      rewrite (drain_unfold _ _ _ tokenId rest) by done.
      rewrite (drain_unfold _ _ _ tokenId rest); [done|].
      by rewrite (drainStep_rate_limited _ _ _ _ k).
  - intros tokenId k -> Hin Hid Hlim fuel. unfold processBulkTokenInfo.
    destruct tokenIds as [|head rest] eqn:Hids; [by apply elem_of_nil in Hin|].
    by apply (drain_diverges upstream tokenId k).
Qed.

(** A pass over two identifiers whose first request is answered 429
    completes; a pass over a list with an identifier that is always
    answered 429 does not. *)
Lemma processBulkTokenInfo_terminates_witness :
  (exists fuel run,
     processBulkTokenInfo limitedOnce fuel ["aaa"; "bbb"] [] (Some "key") = Some run
     /\ requestQueue run = [])
  /\ (forall fuel,
        processBulkTokenInfo alwaysLimited fuel ["aaa"; "bbb"; "ccc"] [] (Some "key")
        = None).
Proof.
  split.
  - apply (processBulkTokenInfo_terminates limitedOnce ["aaa"; "bbb"] [] (Some "key"));
      [done|].
    intros tokenId _ _ n. exists (S n). split; [lia|done].
  - apply (processBulkTokenInfo_terminates alwaysLimited ["aaa"; "bbb"; "ccc"] []
             (Some "key") ltac:(done)) with (tokenId := "bbb") (k := "key");
      try done.
    apply elem_of_cons. right. apply elem_of_cons. by left.
Defined.

(** C3 (the code at the failing input).  A pass over one identifier whose
    first fetch is answered 429 and whose second fetch succeeds: the
    identifier is put back at the front after a wait of 60 s and fetched
    again, but the 429 has been counted as a failure and the identifier is
    listed among the failed ones. *)
Theorem rate_limit_counted_as_failure :
  processBulkTokenInfo limitedOnce 3 ["degen-base"] [] (Some "key") =
    Some {| requestQueue := [];
            apiKey := Some "key";
            successCount := 1;
            failureCount := 1;
            failedTokenIds := ["degen-base"];
            requests := 2;
            trace := [Shift "degen-base"; Sleep 2000; CoinRequest "degen-base";
                      Sleep 60000; Unshift "degen-base";
                      Shift "degen-base"; Sleep 2000; CoinRequest "degen-base"] |}.
Proof. vm_compute. reflexivity. Qed.

End TokenInfoFacts.

(** ** plugin-coingecko: the sync controller *)

Module CoinGeckoFacts.
Import CoinGecko.

Section Service.
Context {DB : Type} `{IMarketDatabaseAdapter DB}.
Implicit Types (s : Service (DB := DB)) (upstream : Upstream) (world : World).

Lemma fetchCategoryData_trace upstream category :
  (fetchCategoryData upstream category).2 =
    [MarketsRequest (categoryId category) None].
Proof.
  unfold fetchCategoryData.
  destruct (upstream category 1%nat); [done|done|]. by case_bool_decide.
Qed.

(** One run of the try block up to the store: the two requests are
    issued, and [lastUpdateTime] is assigned, the time of the store, if
    and only if the store succeeds. *)
Lemma fetchAndStore_effects upstream s :
  let '(s1, r) := fetchAndStore upstream s in
  trace s1 = trace s ++ attemptRequests
  /\ clock s1 = clock s
  /\ isUpdating s1 = isUpdating s
  /\ match r with
     | Ok _ =>
         lastUpdateTime s1 = clock s
         /\ exists ecosystem memeCoins,
              (fetchCategoryData upstream base_ecosystem).1 = Ok ecosystem
              /\ (fetchCategoryData upstream base_meme_coins).1 = Ok memeCoins
              /\ storeMarketData (clock s)
                   (map md_fields
                      (processApiResponse ecosystem base_ecosystem (clock s)
                       ++ processApiResponse memeCoins base_meme_coins (clock s)))
                   (db s) = (db s1, Ok tt)
     | Throw _ => lastUpdateTime s1 = lastUpdateTime s
     end.
Proof.
  unfold fetchAndStore.
  pose proof (fetchCategoryData_trace upstream base_ecosystem) as He.
  pose proof (fetchCategoryData_trace upstream base_meme_coins) as Hm.
  destruct (fetchCategoryData upstream base_ecosystem) as [eco t1].
  destruct (fetchCategoryData upstream base_meme_coins) as [meme t2].
  simpl in He, Hm. subst t1 t2.
  destruct eco as [ecosystem|e]; [destruct meme as [memeCoins|e]|]; simpl;
    try by repeat split.
  destruct (storeMarketData _ _ _) as [d [[]|e]] eqn:Hstore; simpl;
    repeat split; try done.
  by exists ecosystem, memeCoins.
Qed.

Lemma attempt_effects upstream s :
  let '(s1, r) := attempt upstream s in
  trace s1 = trace s ++ attemptRequests
  /\ clock s1 = clock s
  /\ isUpdating s1 = isUpdating s
  /\ (isOk (fetchAndStore upstream s).2 = false ->
      isOk r = false /\ lastUpdateTime s1 = lastUpdateTime s).
Proof.
  unfold attempt. pose proof (fetchAndStore_effects upstream s) as Hfs.
  destruct (fetchAndStore upstream s) as [s1 [[]|e]].
  - destruct Hfs as (Ht & Hc & Hu & _).
    destruct (cleanOldData _ _ _) as [d [n|e]]; simpl; by repeat split.
  - destruct Hfs as (Ht & Hc & Hu & Hl). by repeat split.
Qed.

(** The retry loop from [retryCount] on, when every remaining
    fetch-and-store fails. *)
Lemma updateLoop_exhausts world : forall remaining retryCount fuel s,
  (retryCount + S remaining = MAX_RETRIES)%nat ->
  (remaining < fuel)%nat ->
  (forall i s', (i < MAX_RETRIES)%nat -> isOk (fetchAndStore (world i) s').2 = false) ->
  exists s',
    updateLoop world fuel retryCount s =
      Some (s', Throw "Failed to update market data after 3 attempts")
    /\ lastUpdateTime s' = lastUpdateTime s
    /\ isUpdating s' = isUpdating s
    /\ clock s' = (clock s + Z.of_nat remaining * RETRY_DELAY)%Z
    /\ trace s' =
         trace s
         ++ concat (replicate remaining (attemptRequests ++ [Sleep RETRY_DELAY]))
         ++ attemptRequests.
Proof.
  induction remaining as [|remaining IH]; intros retryCount fuel s Hcount Hfuel Hfail;
    (destruct fuel as [|fuel]; [lia|]); simpl.
  - assert ((retryCount <? MAX_RETRIES)%nat = true) as -> by (apply Nat.ltb_lt; lia).
    pose proof (attempt_effects (world retryCount) s) as Hatt.
    destruct (attempt (world retryCount) s) as [s1 r].
    destruct Hatt as (Ht & Hc & Hu & Hl).
    destruct (Hl (Hfail retryCount s ltac:(lia))) as [Hr Hlast].
    destruct r as [[]|e]; [done|].
    assert ((S retryCount <? MAX_RETRIES)%nat = false) as -> by (apply Nat.ltb_ge; lia).
    exists s1. repeat split; try done. lia.
  - assert ((retryCount <? MAX_RETRIES)%nat = true) as -> by (apply Nat.ltb_lt; lia).
    pose proof (attempt_effects (world retryCount) s) as Hatt.
    destruct (attempt (world retryCount) s) as [s1 r].
    destruct Hatt as (Ht & Hc & Hu & Hl).
    destruct (Hl (Hfail retryCount s ltac:(lia))) as [Hr Hlast].
    destruct r as [[]|e]; [done|].
    assert ((S retryCount <? MAX_RETRIES)%nat = true) as -> by (apply Nat.ltb_lt; lia).
    destruct (IH (S retryCount) fuel (sleep RETRY_DELAY s1))
      as (s' & Hrun & Hl' & Hu' & Hc' & Ht');
      [lia|lia|done|].
    exists s'. split; [done|]. simpl in *.
    split; [congruence|]. split; [congruence|]. split; [lia|].
    rewrite Ht', Ht. by rewrite <- !app_assoc.
Qed.

(** The loop never runs out of its fuel: [updateMarketData] returns or
    throws. *)
Lemma updateLoop_total world : forall fuel retryCount s,
  (0 < fuel)%nat ->
  (MAX_RETRIES < fuel + retryCount)%nat ->
  is_Some (updateLoop world fuel retryCount s).
Proof.
  induction fuel as [|fuel IH]; intros retryCount s Hpos Hfuel; [lia|]. simpl.
  destruct (retryCount <? MAX_RETRIES)%nat eqn:Hlt; [|done].
  destruct (attempt (world retryCount) s) as [s1 [[]|e]]; [done|].
  destruct (S retryCount <? MAX_RETRIES)%nat eqn:Hlt'; [|done].
  apply Nat.ltb_lt in Hlt'. apply IH; lia.
Qed.

Lemma updateMarketData_total world s : is_Some (updateMarketData world s).
Proof. apply updateLoop_total; unfold MAX_RETRIES; lia. Qed.

(** C4.  When every fetch-and-store attempt fails, [updateMarketData]
    makes exactly [MAX_RETRIES] = 3 attempts (the two requests of each are
    in the trace), waits [RETRY_DELAY] = 5 minutes between consecutive
    attempts and not after the last, then throws; [lastUpdateTime] is
    left as it was.  In any attempt [lastUpdateTime] is assigned only
    when the store has succeeded, and a failed fetch-and-store leaves it
    unchanged. *)
Theorem updateMarketData_retry_exhaustion world s :
  (forall i s', (i < MAX_RETRIES)%nat -> isOk (fetchAndStore (world i) s').2 = false) ->
  (exists s',
     updateMarketData world s =
       Some (s', Throw "Failed to update market data after 3 attempts")
     /\ lastUpdateTime s' = lastUpdateTime s
     /\ trace s' =
          trace s ++ attemptRequests ++ [Sleep 300000]
                  ++ attemptRequests ++ [Sleep 300000]
                  ++ attemptRequests
     /\ countWhere isRequest (attemptRequests ++ [Sleep 300000]
                              ++ attemptRequests ++ [Sleep 300000]
                              ++ attemptRequests) = (2 * MAX_RETRIES)%nat
     /\ clock s' = (clock s + 2 * RETRY_DELAY)%Z)
  /\ (forall upstream s0,
        let '(s1, r) := fetchAndStore upstream s0 in
        match r with
        | Ok _ => lastUpdateTime s1 = clock s0
        | Throw _ => lastUpdateTime s1 = lastUpdateTime s0
        end)
  /\ (forall upstream s0,
        lastUpdateTime (attempt upstream s0).1 <> lastUpdateTime s0 ->
        isOk (fetchAndStore upstream s0).2 = true).
Proof.
  intros Hfail. split; [|split].
  - destruct (updateLoop_exhausts world 2 0 (S MAX_RETRIES) s) as
      (s' & Hrun & Hl & _ & Hc & Ht); [done|unfold MAX_RETRIES; lia|done|].
    exists s'. split; [done|]. split; [done|]. split.
    { rewrite Ht. simpl. by rewrite <- ?app_assoc. }
    split; [done|]. rewrite Hc. lia.
  - intros upstream s0. pose proof (fetchAndStore_effects upstream s0) as Hfs.
    destruct (fetchAndStore upstream s0) as [s1 [[]|e]].
    + by destruct Hfs as (_ & _ & _ & Hl & _).
    + by destruct Hfs as (_ & _ & _ & Hl).
  - intros upstream s0 Hchanged.
    pose proof (attempt_effects upstream s0) as Hatt.
    destruct (attempt upstream s0) as [s1 r]. simpl in Hchanged.
    destruct Hatt as (_ & _ & _ & Hl).
    destruct (isOk (fetchAndStore upstream s0).2) eqn:Hok; [done|].
    by destruct (Hl eq_refl) as [_ Hsame].
Qed.

End Service.

(** With the adapter of this repository the store of a cycle fails
    whenever the upstream returns a record: the records that
    [processApiResponse] builds have no [coin_id] for the INSERT to bind. *)
Lemma fetchAndStore_adapter_rejects (s : Service (DB := Adapter.Database)) i :
  isOk (fetchAndStore (up i) s).2 = false.
Proof. reflexivity. Qed.

(** An upstream that is down for the whole cycle, on the adapter's
    database. *)
Lemma updateMarketData_retry_exhaustion_witness :
  let s := newService Adapter.freshDb 1700000000000 in
  exists s',
    updateMarketData down s =
      Some (s', Throw "Failed to update market data after 3 attempts")
    /\ lastUpdateTime s' = 0%Z
    /\ trace s' =
         [MarketsRequest "base-ecosystem" None; MarketsRequest "base-meme-coins" None;
          Sleep 300000;
          MarketsRequest "base-ecosystem" None; MarketsRequest "base-meme-coins" None;
          Sleep 300000;
          MarketsRequest "base-ecosystem" None; MarketsRequest "base-meme-coins" None]
    /\ clock s' = 1700000600000%Z.
Proof.
  intros s.
  destruct (proj1 (updateMarketData_retry_exhaustion down s
                     (fun i s' _ => eq_refl)))
    as (s' & Hrun & Hl & Ht & _ & Hc).
  exists s'. split; [exact Hrun|]. split; [exact Hl|]. split; [exact Ht|].
  rewrite Hc. reflexivity.
Defined.

(** [checkAndUpdate] run to completion agrees with the transition
    system: a tick that is skipped changes nothing and issues no request;
    a tick that starts a cycle ends with the flag lowered. *)
Lemma checkAndUpdate_skips {DB : Type} `{IMarketDatabaseAdapter DB}
  (world : World) (s : Service (DB := DB)) :
  isUpdating s = true \/ (clock s - lastUpdateTime s < MINIMUM_UPDATE_GAP)%Z ->
  checkAndUpdate world s = Some (s, Ok tt).
Proof.
  unfold checkAndUpdate. intros [->|Hgap]; [done|].
  destruct (isUpdating s); [done|].
  apply Z.ltb_lt in Hgap. by rewrite Hgap.
Qed.

(** The flag is raised exactly while a cycle is in flight. *)
Lemma reachable_inFlight c :
  reachable c -> inFlight c = (if c_isUpdating c then 1 else 0)%nat.
Proof.
  induction 1 as [c [Hu Hn]|c c' Hreach IH Hstep].
  - by rewrite Hu, Hn.
  - destruct Hstep as [now c|now c Hpos|c Hpos].
    + unfold tick. destruct (c_isUpdating c) eqn:Hu; [by rewrite Hu|].
      destruct (now - c_lastUpdateTime c <? MINIMUM_UPDATE_GAP)%Z; [by rewrite Hu|].
      simpl. by rewrite IH.
    + done.
    + simpl. destruct (c_isUpdating c); simpl in *; lia.
Qed.

(** C7.  In every state the controller can reach, a tick starts no new
    cycle when one is in flight (the flag is raised) or when less than
    [MINIMUM_UPDATE_GAP] = 55 minutes have passed since [lastUpdateTime];
    a tick that does start a cycle finds none in flight; so at most one
    cycle is in flight before and after every tick. *)
Theorem tick_at_most_one_in_flight c now :
  reachable c ->
  ((c_isUpdating c = true \/ (now - c_lastUpdateTime c < 55 * 60 * 1000)%Z) ->
   tick now c = c)
  /\ (inFlight (tick now c) <> inFlight c ->
      inFlight c = 0%nat /\ c_isUpdating c = false
      /\ (MINIMUM_UPDATE_GAP <= now - c_lastUpdateTime c)%Z)
  /\ (inFlight c <= 1)%nat
  /\ (inFlight (tick now c) <= 1)%nat.
Proof.
  intros Hreach.
  pose proof (reachable_inFlight c Hreach) as Hinv.
  pose proof (reachable_inFlight (tick now c)
                (reachable_step _ _ Hreach (step_tick now c))) as Hinv'.
  split; [|split; [|split]].
  - unfold tick. intros [->|Hgap]; [done|].
    destruct (c_isUpdating c); [done|].
    change (55 * 60 * 1000)%Z with MINIMUM_UPDATE_GAP in Hgap.
    apply Z.ltb_lt in Hgap. by rewrite Hgap.
  - unfold tick. destruct (c_isUpdating c) eqn:Hu; [done|].
    destruct (now - c_lastUpdateTime c <? MINIMUM_UPDATE_GAP)%Z eqn:Hgap; [done|].
    intros _. apply Z.ltb_ge in Hgap. by rewrite Hinv.
  - rewrite Hinv. destruct (c_isUpdating c); lia.
  - rewrite Hinv'. destruct (c_isUpdating (tick now c)); lia.
Qed.

(** A cycle started by the tick at one hour is in flight when the next
    tick arrives: that tick is skipped. *)
Lemma tick_at_most_one_in_flight_witness :
  let idle := {| c_isUpdating := false; c_lastUpdateTime := 0; inFlight := 0 |} in
  let running := tick 3600000 idle in
  running = {| c_isUpdating := true; c_lastUpdateTime := 0; inFlight := 1 |}
  /\ tick 7200000 running = running
  /\ (inFlight (tick 7200000 running) <= 1)%nat.
Proof.
  intros idle running.
  assert (reachable running) as Hreach.
  { apply (reachable_step idle); [by apply reachable_started|apply step_tick]. }
  destruct (tick_at_most_one_in_flight running 7200000 Hreach)
    as (Hskip & _ & _ & Hone).
  split; [reflexivity|]. split; [|exact Hone].
  apply Hskip. by left.
Defined.

End CoinGeckoFacts.

(** ** Lists: filters and limits *)

Lemma sublist_List_filter {A} (f : A -> bool) (l : list A) :
  List.filter f l `sublist_of` l.
Proof. induction l as [|x l IH]; simpl; [done|]. destruct (f x); by constructor. Qed.

Lemma List_filter_all {A} (f : A -> bool) (l : list A) :
  (forall x, x ∈ l -> f x = true) -> List.filter f l = l.
Proof.
  induction l as [|x l IH]; intros Hall; simpl; [done|].
  rewrite (Hall x) by (apply elem_of_cons; by left).
  f_equal. apply IH. intros y Hy. apply Hall, elem_of_cons. by right.
Qed.

Lemma flat_map_all_nil {A B} (f : A -> list B) (l : list A) :
  (forall x, x ∈ l -> f x = []) -> flat_map f l = [].
Proof.
  induction l as [|x l IH]; intros Hall; simpl; [done|].
  rewrite (Hall x) by (apply elem_of_cons; by left).
  apply IH. intros y Hy. apply Hall, elem_of_cons. by right.
Qed.

Lemma length_sqlLimit {A} (n : Z) (l : list A) :
  (0 <= n)%Z -> (length (sqlLimit n l) <= Z.to_nat n)%nat.
Proof.
  intros Hn. unfold sqlLimit.
  assert ((n <? 0)%Z = false) as -> by (apply Z.ltb_ge; lia).
  rewrite length_take. lia.
Qed.

Lemma StronglySorted_take {A} (R : relation A) (n : nat) (l : list A) :
  StronglySorted R l -> StronglySorted R (take n l).
Proof.
  intros Hs. rewrite <- (take_drop n l) in Hs.
  by apply StronglySorted_app_1_l in Hs.
Qed.

Lemma StronglySorted_sqlLimit {A} (R : relation A) (n : Z) (l : list A) :
  StronglySorted R l -> StronglySorted R (sqlLimit n l).
Proof.
  unfold sqlLimit. destruct (n <? 0)%Z; [done|]. apply StronglySorted_take.
Qed.

(** ** adapter-marketdatabase: retention *)

Module RetentionFacts.
Import Adapter.

Lemma dayOf_mono a b : (a <= b)%Z -> (dayOf a <= dayOf b)%Z.
Proof. intros Hab. unfold dayOf, DAY. by apply Z.div_le_mono. Qed.

Lemma dayOf_within c ts : (dayOf c <= dayOf ts)%Z -> (c - DAY < ts)%Z.
Proof.
  unfold dayOf. intros Hday.
  assert (0 < DAY)%Z as Hpos by done.
  pose proof (Z.mul_div_le ts DAY Hpos).
  pose proof (Z.mul_succ_div_gt c DAY Hpos).
  nia.
Qed.

(** The rows that a cleanup keeps. *)
Lemma cleanOldData_keeps now retentionDays db m :
  m ∈ market_data (Sqlite.tables (cleanOldData now retentionDays db).1) <->
  m ∈ market_data (Sqlite.tables db)
  /\ ((retentionDays < 0)%Z
      \/ (dayOf (now - retentionDays * DAY) <= dayOf (row_timestamp m))%Z).
Proof.
  unfold cleanOldData, Sqlite.exec, daysBefore. simpl.
  rewrite elem_of_List_filter, negb_true_iff.
  destruct (retentionDays <? 0)%Z eqn:Hneg; simpl.
  - apply Z.ltb_lt in Hneg. split; [intros [Hm _]; split; [done|by left]|].
    intros [Hm _]. by split.
  - apply Z.ltb_ge in Hneg. rewrite Z.ltb_ge. split; [intros [Hm Hday]|].
    + split; [done|by right].
    + intros [Hm [Hlt|Hday]]; [lia|by split].
Qed.

(** X1.  [cleanOldData(N)] at time [now] deletes snapshots only: it
    reports the number of rows it removed and keeps the remaining rows in
    their order.  For [N >= 0] it removes the rows of the calendar days
    (UTC) before the day of the cutoff [now - N days], and no other: a row
    at or after the cutoff is kept, a row of the cutoff's day is kept even
    when it is older than the cutoff, and every remaining row is less than
    a day older than the cutoff.  For a negative [N] it removes nothing.
    The coins, the categories, their links and the rowid sequence are
    untouched. *)
Theorem cleanOldData_retention now retentionDays db :
  let cutoff := (now - retentionDays * DAY)%Z in
  let before := Sqlite.tables db in
  let after := Sqlite.tables (cleanOldData now retentionDays db).1 in
  (cleanOldData now retentionDays db).2 =
    Ok (length (market_data before) - length (market_data after))%nat
  /\ market_data after `sublist_of` market_data before
  /\ (forall m, m ∈ market_data after <->
        m ∈ market_data before
        /\ ((retentionDays < 0)%Z
            \/ (dayOf cutoff <= dayOf (row_timestamp m))%Z))
  /\ (forall m, m ∈ market_data before -> (cutoff <= row_timestamp m)%Z ->
        m ∈ market_data after)
  /\ ((0 <= retentionDays)%Z ->
      forall m, m ∈ market_data after -> (cutoff - DAY < row_timestamp m)%Z)
  /\ ((retentionDays < 0)%Z -> market_data after = market_data before)
  /\ coins after = coins before
  /\ token_categories after = token_categories before
  /\ coin_categories after = coin_categories before
  /\ market_data_seq after = market_data_seq before
  /\ Sqlite.journal (cleanOldData now retentionDays db).1 = Sqlite.journal db.
Proof.
  intros cutoff before after.
  split; [done|]. split; [apply sublist_List_filter|].
  split; [intros m; apply cleanOldData_keeps|].
  split; [|split; [|split; [|by repeat split]]].
  - intros m Hm Hts. apply cleanOldData_keeps. split; [done|].
    right. by apply dayOf_mono.
  - intros Hdays m [_ [Hneg|Hday]]%cleanOldData_keeps; [lia|].
    by apply dayOf_within.
  - intros Hneg. unfold after, before, cleanOldData, Sqlite.exec, daysBefore.
    apply Z.ltb_lt in Hneg. rewrite Hneg. simpl. by apply List_filter_all.
Qed.

(** Thirty days of retention on the two-coin fixture, two seconds past
    the thirtieth day after [T1]: the two snapshots of [T0] go; the two of
    the day of [T1] stay, although they are a second or two older than
    the cutoff.  With -30 days nothing goes. *)
Lemma cleanOldData_retention_witness :
  let now := (T1 + 2000 + 30 * DAY)%Z in
  map rowKey (market_data (Sqlite.tables twoCoinsDb)) =
    [("aaa", T0); ("bbb", T0); ("bbb", T1); ("aaa", (T1 + 1000)%Z)]
  /\ map rowKey (market_data (Sqlite.tables (cleanOldData now 30 twoCoinsDb).1)) =
       [("bbb", T1); ("aaa", (T1 + 1000)%Z)]
  /\ (cleanOldData now 30 twoCoinsDb).2 = Ok 2%nat
  /\ market_data (Sqlite.tables (cleanOldData now (-30) twoCoinsDb).1) =
       market_data (Sqlite.tables twoCoinsDb).
Proof.
  intros now.
  split; [vm_compute; reflexivity|]. split; [vm_compute; reflexivity|].
  destruct (cleanOldData_retention now 30 twoCoinsDb) as (Hchanges & _).
  destruct (cleanOldData_retention now (-30) twoCoinsDb)
    as (_ & _ & _ & _ & _ & Hnone & _).
  split; [rewrite Hchanges; vm_compute; reflexivity|].
  apply Hnone. reflexivity.
Defined.

(** X2.  After a cleanup with a retention of [N >= 0] days, a cleanup
    whose cutoff is not later finds nothing to remove: in particular
    running [cleanOldData] twice at the same instant with the same
    retention removes rows the first time only. *)
Theorem cleanOldData_again now1 days1 now2 days2 db :
  (0 <= days1)%Z ->
  (now2 - days2 * DAY <= now1 - days1 * DAY)%Z ->
  cleanOldData now2 days2 (cleanOldData now1 days1 db).1 =
    ((cleanOldData now1 days1 db).1, Ok 0%nat).
Proof.
  intros Hdays Hcut. unfold cleanOldData, Sqlite.exec, daysBefore. simpl.
  assert ((days1 <? 0)%Z = false) as -> by (apply Z.ltb_ge; lia).
  rewrite (List_filter_all _ (List.filter _ _)).
  - by rewrite Nat.sub_diag.
  - intros m [_ Hts%negb_true_iff%Z.ltb_ge]%elem_of_List_filter.
    destruct (days2 <? 0)%Z; [done|]. simpl.
    apply negb_true_iff, Z.ltb_ge.
    pose proof (dayOf_mono _ _ Hcut). lia.
Qed.

(** Thirty days of retention, then sixty, on the two-coin fixture. *)
Lemma cleanOldData_again_witness :
  let now := (T1 + 30 * DAY)%Z in
  map rowKey (market_data (Sqlite.tables (cleanOldData now 30 twoCoinsDb).1)) =
    [("bbb", T1); ("aaa", (T1 + 1000)%Z)]
  /\ cleanOldData now 60 (cleanOldData now 30 twoCoinsDb).1 =
       ((cleanOldData now 30 twoCoinsDb).1, Ok 0%nat).
Proof.
  split; [vm_compute; reflexivity|].
  apply (cleanOldData_again (T1 + 30 * DAY) 30 (T1 + 30 * DAY) 60 twoCoinsDb).
  - lia.
  - vm_compute. discriminate.
Defined.

End RetentionFacts.

(** ** adapter-marketdatabase: categories *)

Module CategoryFacts.
Import Adapter.

Lemma insertCategory_keeps cid row t i r :
  token_categories t !! i = Some r ->
  token_categories (insertCategory cid row t) !! i = Some r.
Proof.
  unfold insertCategory. destruct (token_categories t !! cid) eqn:Hcid; [done|].
  simpl. intros Hi. rewrite lookup_insert_ne; [done|]. congruence.
Qed.

Lemma insertCategory_present cid row t :
  is_Some (token_categories (insertCategory cid row t) !! cid).
Proof.
  unfold insertCategory. destruct (token_categories t !! cid) eqn:Hcid.
  - by rewrite Hcid.
  - simpl. by rewrite lookup_insert_eq.
Qed.

Lemma insertCategory_other cid row t i :
  i <> cid ->
  token_categories (insertCategory cid row t) !! i = token_categories t !! i.
Proof.
  intros Hne. unfold insertCategory. destruct (token_categories t !! cid); [done|].
  simpl. by rewrite lookup_insert_ne.
Qed.

Lemma insertCategory_id cid row t :
  is_Some (token_categories t !! cid) -> insertCategory cid row t = t.
Proof. intros [r Hr]. unfold insertCategory. by rewrite Hr. Qed.

Lemma insertCategory_rest cid row t :
  coins (insertCategory cid row t) = coins t
  /\ coin_categories (insertCategory cid row t) = coin_categories t
  /\ market_data (insertCategory cid row t) = market_data t
  /\ market_data_seq (insertCategory cid row t) = market_data_seq t.
Proof. unfold insertCategory. by destruct (token_categories t !! cid). Qed.

Lemma addCategory_taken category db :
  is_Some (token_categories (Sqlite.tables db) !! cat_id category) ->
  exists e, addCategory category db = (db, Throw e).
Proof.
  intros [r Hr]. unfold addCategory, Sqlite.exec. destruct db as [t j]. simpl in *.
  destruct (cat_description category); [|by eexists].
  rewrite Hr. by eexists.
Qed.

(** X3.  [initializeDefaultCategories] makes the two default categories
    present without overwriting a row: a category that is in the table,
    one of the defaults included, keeps its name and description; the
    other tables are untouched; a second run changes nothing; and, the
    ids being taken, [addCategory] of a default id throws and leaves the
    database as it is. *)
Theorem initializeDefaultCategories_idempotent db :
  let db' := initializeDefaultCategories db in
  let before := Sqlite.tables db in
  let after := Sqlite.tables db' in
  is_Some (token_categories after !! "base-ecosystem")
  /\ is_Some (token_categories after !! "base-meme-coins")
  /\ (forall cid row,
        token_categories before !! cid = Some row ->
        token_categories after !! cid = Some row)
  /\ (forall cid,
        cid <> "base-ecosystem" -> cid <> "base-meme-coins" ->
        token_categories after !! cid = token_categories before !! cid)
  /\ coins after = coins before
  /\ coin_categories after = coin_categories before
  /\ market_data after = market_data before
  /\ initializeDefaultCategories db' = db'
  /\ (forall category,
        cat_id category = "base-ecosystem" \/ cat_id category = "base-meme-coins" ->
        exists e, addCategory category db' = (db', Throw e)).
Proof.
  intros db' before after.
  assert (after =
            insertCategory "base-meme-coins"
              {| category_name := "Base Meme Coins";
                 category_description := "Meme tokens on the Base network" |}
              (insertCategory "base-ecosystem"
                 {| category_name := "Base Ecosystem";
                    category_description := "Tokens native to the Base ecosystem" |}
                 before)) as Hafter by reflexivity.
  assert (is_Some (token_categories after !! "base-ecosystem")) as Heco.
  { rewrite Hafter.
    destruct (insertCategory_present "base-ecosystem"
                {| category_name := "Base Ecosystem";
                   category_description := "Tokens native to the Base ecosystem" |}
                before) as [r Hr].
    exists r. by apply insertCategory_keeps. }
  assert (is_Some (token_categories after !! "base-meme-coins")) as Hmeme.
  { rewrite Hafter. apply insertCategory_present. }
  split; [done|]. split; [done|].
  split; [|split; [|split; [|split; [|split; [|split]]]]].
  - intros cid row Hrow. rewrite Hafter. by do 2 apply insertCategory_keeps.
  - intros cid Heco' Hmeme'. rewrite Hafter. by rewrite !insertCategory_other.
  - rewrite Hafter.
    rewrite (proj1 (insertCategory_rest _ _ _)).
    by rewrite (proj1 (insertCategory_rest _ _ _)).
  - rewrite Hafter.
    rewrite (proj1 (proj2 (insertCategory_rest _ _ _))).
    by rewrite (proj1 (proj2 (insertCategory_rest _ _ _))).
  - rewrite Hafter.
    rewrite (proj1 (proj2 (proj2 (insertCategory_rest _ _ _)))).
    by rewrite (proj1 (proj2 (proj2 (insertCategory_rest _ _ _)))).
  - unfold initializeDefaultCategories at 1.
    rewrite SqliteFacts.transaction_run. simpl. fold after.
    rewrite (insertCategory_id "base-ecosystem") by done.
    rewrite (insertCategory_id "base-meme-coins") by done.
    unfold after, db', initializeDefaultCategories.
    by rewrite SqliteFacts.transaction_run.
  - intros category [Hid|Hid]; apply addCategory_taken; fold after; by rewrite Hid.
Qed.

Lemma assignCategoryToToken_parents coinId categoryId db :
  is_Some (coins (Sqlite.tables db) !! coinId) ->
  is_Some (token_categories (Sqlite.tables db) !! categoryId) ->
  exists db2,
    assignCategoryToToken coinId categoryId db = (db2, Ok tt)
    /\ (coinId, categoryId) ∈ coin_categories (Sqlite.tables db2).
Proof.
  intros Hcoin Hcat. unfold assignCategoryToToken, Sqlite.exec. simpl.
  case_bool_decide as Hin; [by eexists|].
  rewrite bool_decide_eq_true_2 by done.
  eexists. split; [done|]. simpl.
  apply elem_of_app. right. by apply list_elem_of_singleton.
Qed.

(** X4.  [assignCategoryToToken] either throws, which leaves the database
    as it was and happens exactly when the pair is new and the coin or the
    category is missing (a foreign key), or returns with the pair linked:
    the earlier links are kept, no link is duplicated, and assigning the
    same pair again changes nothing. *)
Theorem assignCategoryToToken_outcome coinId categoryId db :
  let '(db', r) := assignCategoryToToken coinId categoryId db in
  let before := Sqlite.tables db in
  let after := Sqlite.tables db' in
  match r with
  | Ok _ =>
      (coinId, categoryId) ∈ coin_categories after
      /\ ((coinId, categoryId) ∈ coin_categories before
          \/ (is_Some (coins before !! coinId)
              /\ is_Some (token_categories before !! categoryId)))
      /\ (forall link, link ∈ coin_categories before -> link ∈ coin_categories after)
      /\ (NoDup (coin_categories before) -> NoDup (coin_categories after))
      /\ coins after = coins before
      /\ token_categories after = token_categories before
      /\ market_data after = market_data before
      /\ assignCategoryToToken coinId categoryId db' = (db', Ok tt)
  | Throw _ =>
      db' = db
      /\ ((coinId, categoryId) ∉ coin_categories before)
      /\ (coins before !! coinId = None
          \/ token_categories before !! categoryId = None)
  end.
Proof.
  unfold assignCategoryToToken, Sqlite.exec. destruct db as [t j]. simpl.
  case_bool_decide as Hin; simpl.
  { repeat split; try done; [by left|]. by rewrite bool_decide_eq_true_2. }
  case_bool_decide as Hfk; simpl.
  - split; [apply elem_of_app; right; by apply list_elem_of_singleton|].
    split; [by right|].
    split; [intros link Hl; apply elem_of_app; by left|].
    split.
    { intros Hnd. apply NoDup_app. split; [done|]. split; [|apply NoDup_singleton].
      intros link Hl ->%list_elem_of_singleton. done. }
    repeat split; try done.
    rewrite bool_decide_eq_true_2; [done|].
    apply elem_of_app. right. by apply list_elem_of_singleton.
  - split; [done|]. split; [done|].
    destruct (coins t !! coinId) eqn:Hc; [|by left].
    destruct (token_categories t !! categoryId) eqn:Ht; [|by right].
    exfalso. apply Hfk. by split.
Qed.

(** X5.  A category that [addCategory] has added is stored under its id
    with the name and description given; its id was free and its
    description present; adding a category with that id again throws and
    changes nothing (the primary key); [initializeDefaultCategories] keeps
    the row; and the category can at once be assigned to every coin the
    store holds. *)
Theorem addCategory_then_assign category coinId db db1 :
  addCategory category db = (db1, Ok tt) ->
  is_Some (coins (Sqlite.tables db1) !! coinId) ->
  token_categories (Sqlite.tables db) !! cat_id category = None
  /\ (exists description,
        cat_description category = Some description
        /\ forall db',
             db' = db1 \/ db' = initializeDefaultCategories db1 ->
             token_categories (Sqlite.tables db') !! cat_id category =
               Some {| category_name := cat_name category;
                       category_description := description |})
  /\ (forall again,
        cat_id again = cat_id category ->
        exists e, addCategory again db1 = (db1, Throw e))
  /\ exists db2,
       assignCategoryToToken coinId (cat_id category) db1 = (db2, Ok tt)
       /\ (coinId, cat_id category) ∈ coin_categories (Sqlite.tables db2).
Proof.
  unfold addCategory, Sqlite.exec. destruct db as [t j]. simpl.
  destruct (cat_description category) as [description|] eqn:Hd; [|done].
  destruct (token_categories t !! cat_id category) eqn:Hfree; [done|].
  intros Heq Hcoin. inversion Heq; subst db1; clear Heq. simpl in *.
  split; [done|].
  assert (token_categories
            {| coins := coins t;
               token_categories :=
                 <[cat_id category := {| category_name := cat_name category;
                                         category_description := description |}]>
                   (token_categories t);
               coin_categories := coin_categories t;
               market_data := market_data t;
               market_data_seq := market_data_seq t |} !! cat_id category =
          Some {| category_name := cat_name category;
                  category_description := description |}) as Hrow.
  { simpl. by rewrite lookup_insert_eq. }
  split; [|split].
  - exists description. split; [done|]. intros db' [->| ->]; [done|].
    unfold initializeDefaultCategories. rewrite SqliteFacts.transaction_run. simpl.
    by do 2 apply insertCategory_keeps.
  - intros again Hid.
    match goal with |- exists e, ?call = (?d, _) =>
      destruct (addCategory_taken again d) as [e He] end.
    { simpl. rewrite Hid. by rewrite lookup_insert_eq. }
    by exists e.
  - apply assignCategoryToToken_parents; simpl; [done|].
    by rewrite lookup_insert_eq.
Qed.

(** A third category, added next to the defaults and assigned to a
    stored coin. *)
Lemma addCategory_then_assign_witness :
  let category := {| cat_id := "dex"; cat_name := "DEX tokens";
                     cat_description := Some "Tokens of exchanges" |} in
  let db := (storeMarketData T0 [snapshot "aaa" "aaa" "AAA" 1 100 T0] freshDb).1 in
  let db1 := (addCategory category db).1 in
  addCategory category db = (db1, Ok tt)
  /\ (forall again,
        cat_id again = "dex" -> exists e, addCategory again db1 = (db1, Throw e))
  /\ exists db2,
       assignCategoryToToken "aaa" "dex" db1 = (db2, Ok tt)
       /\ ("aaa", "dex") ∈ coin_categories (Sqlite.tables db2).
Proof.
  intros category db db1.
  assert (addCategory category db = (db1, Ok tt)) as Hrun by (vm_compute; reflexivity).
  destruct (addCategory_then_assign category "aaa" db db1 Hrun)
    as (_ & _ & Hagain & Hassign).
  { vm_compute. by eexists. }
  split; [exact Hrun|]. split; [exact Hagain|exact Hassign].
Defined.

End CategoryFacts.

(** ** adapter-marketdatabase: coins and links under the store *)

Module CoinFacts.
Import Adapter.

Lemma insertMarketData_rest now item t t' :
  insertMarketData now item t = Ok t' ->
  coins t' = coins t
  /\ coin_categories t' = coin_categories t
  /\ token_categories t' = token_categories t.
Proof.
  unfold insertMarketData.
  destruct (own_coin_id item) as [coin|]; [|done].
  destruct (current_price item), (market_cap item), (total_volume item); try done.
  destruct (coins t !! coin); [|done].
  intros Heq. by inversion Heq.
Qed.

Lemma storeItems_links now data : forall t t',
  storeItems now data t = (t', Ok tt) ->
  coin_categories t' = coin_categories t
  /\ token_categories t' = token_categories t.
Proof.
  induction data as [|item data IH]; intros t t' Hrun; simpl in Hrun.
  - by inversion Hrun.
  - destruct (insertMarketData now item (insertCoin item t)) as [t2|e] eqn:Hins;
      [|done].
    apply insertMarketData_rest in Hins as (_ & Hcc & Htc).
    destruct (AdapterFacts.insertCoin_market_data item t) as (_ & _ & Hcc' & Htc').
    destruct (IH _ _ Hrun) as [Hcc2 Htc2]. split; congruence.
Qed.

Lemma storeItems_coins_present now data : forall t t',
  storeItems now data t = (t', Ok tt) ->
  Forall (fun item => is_Some (coins t' !! id item)) data.
Proof.
  induction data as [|item data IH]; intros t t' Hrun; simpl in Hrun; [done|].
  destruct (insertMarketData now item (insertCoin item t)) as [t2|e] eqn:Hins;
    [|done].
  constructor; [|by eapply IH].
  apply insertMarketData_rest in Hins as (Hcoins & _).
  destruct (AdapterFacts.storeItems_ok_inv _ _ _ _ Hrun) as [Hkeep _].
  destruct (AdapterFacts.insertCoin_present item t) as [c Hc].
  exists c. apply Hkeep. by rewrite Hcoins.
Qed.

(** The coin row of an id is written by the first item that carries the
    id. *)
Lemma storeItems_first_wins now before item after : forall t t',
  storeItems now (before ++ item :: after) t = (t', Ok tt) ->
  Forall (fun x => id x <> id item) before ->
  coins t !! id item = None ->
  coins t' !! id item =
    Some {| coin_symbol := symbol item; coin_name := name item |}.
Proof.
  induction before as [|x before IH]; intros t t' Hrun Hne Hfree; simpl in Hrun.
  - destruct (insertMarketData now item (insertCoin item t)) as [t2|e] eqn:Hins;
      [|done].
    apply insertMarketData_rest in Hins as (Hcoins & _).
    destruct (AdapterFacts.storeItems_ok_inv _ _ _ _ Hrun) as [Hkeep _].
    apply Hkeep. rewrite Hcoins. unfold insertCoin. rewrite Hfree. simpl.
    by rewrite lookup_insert_eq.
  - destruct (insertMarketData now x (insertCoin x t)) as [t2|e] eqn:Hins;
      [|done].
    apply insertMarketData_rest in Hins as (Hcoins & _).
    apply Forall_cons in Hne as [Hx Hne].
    apply (IH t2 t' Hrun Hne). rewrite Hcoins.
    unfold insertCoin. destruct (coins t !! id x); [done|]. simpl.
    by rewrite lookup_insert_ne.
Qed.

(** X6.  [storeMarketData] never rewrites a coin and never links one to a
    category: whatever the call does, every coin row that was in the table
    is there unchanged afterwards (INSERT OR IGNORE), and the category
    tables are as before.  When the call returns, every item's id has a
    coin row; the row of an id that was new carries the symbol and name of
    the first item of the batch with that id, whatever later items say. *)
Theorem storeMarketData_coins now data db :
  let '(db', r) := storeMarketData now data db in
  let before := Sqlite.tables db in
  let after := Sqlite.tables db' in
  (forall i c, coins before !! i = Some c -> coins after !! i = Some c)
  /\ coin_categories after = coin_categories before
  /\ token_categories after = token_categories before
  /\ (isOk r = true ->
      Forall (fun item => is_Some (coins after !! id item)) data
      /\ forall before_item item after_item,
           data = before_item ++ item :: after_item ->
           Forall (fun x => id x <> id item) before_item ->
           coins before !! id item = None ->
           coins after !! id item =
             Some {| coin_symbol := symbol item; coin_name := name item |}).
Proof.
  rewrite AdapterFacts.storeMarketData_run.
  destruct (storeItems now data (Sqlite.tables db)) as [t [[]|e]] eqn:Hrun; simpl;
    [|by repeat split].
  destruct (AdapterFacts.storeItems_ok_inv _ _ _ _ Hrun) as [Hkeep _].
  destruct (storeItems_links _ _ _ _ Hrun) as [Hcc Htc].
  split; [done|]. split; [done|]. split; [done|]. intros _. split.
  - by eapply storeItems_coins_present.
  - intros before_item item after_item -> Hne Hfree.
    by eapply storeItems_first_wins.
Qed.

Lemma storeMarketData_links now data db :
  coin_categories (Sqlite.tables (storeMarketData now data db).1) =
    coin_categories (Sqlite.tables db).
Proof.
  rewrite AdapterFacts.storeMarketData_run.
  destruct (storeItems now data (Sqlite.tables db)) as [t [[]|e]] eqn:Hrun; simpl;
    [|done].
  by destruct (storeItems_links _ _ _ _ Hrun).
Qed.

End CoinFacts.

(** ** adapter-marketdatabase: the shape of the analysis *)

Module AnalysisShape.
Import Adapter.

Lemma elem_of_categoryLinks filter coin t link :
  link ∈ categoryLinks filter coin t ->
  link ∈ coin_categories t /\ link.1 = coin
  /\ forall c, filter = Some c -> link.2 = c.
Proof.
  unfold categoryLinks.
  intros [Hin [Hcoin%String.eqb_eq Hcat]%andb_prop]%elem_of_List_filter.
  split; [done|]. split; [done|].
  intros c ->. simpl in Hcat. by apply String.eqb_eq in Hcat.
Qed.

Lemma priceMoversJoin_link filter t row :
  row ∈ priceMoversJoin filter t ->
  exists m coin link,
    m ∈ market_data t
    /\ coins t !! coin_id m = Some coin
    /\ link ∈ categoryLinks filter (coin_id m) t
    /\ pmr_name row = coin_name coin /\ pmr_symbol row = coin_symbol coin.
Proof.
  unfold priceMoversJoin. intros (m & Hm & Hrow)%elem_of_flat_map.
  case_bool_decide as Hmax; [|by apply elem_of_nil in Hrow].
  destruct (coins t !! coin_id m) as [c|] eqn:Hc; [|by apply elem_of_nil in Hrow].
  apply list_elem_of_fmap in Hrow as (link & -> & Hlink).
  by exists m, c, link.
Qed.

Lemma volumeLeadersJoin_link r now filter t e :
  e ∈ volumeLeadersJoin r now filter t ->
  exists m coin link,
    m ∈ market_data t
    /\ coins t !! coin_id m = Some coin
    /\ link ∈ categoryLinks filter (coin_id m) t
    /\ vl_name e = coin_name coin /\ vl_symbol e = coin_symbol coin.
Proof.
  unfold volumeLeadersJoin. intros (m & Hm & He)%elem_of_flat_map.
  apply elem_of_orderByDesc in Hm.
  destruct (_ && _); [|by apply elem_of_nil in He].
  destruct (coins t !! coin_id m) as [c|] eqn:Hc; [|by apply elem_of_nil in He].
  apply list_elem_of_fmap in He as (link & -> & Hlink).
  by exists m, c, link.
Qed.

Lemma effectiveLimit_default params :
  limit params = None \/ limit params = Some 0%Z ->
  effectiveLimit params =
    match timeframe params with TF_24h => 5 | _ => 10 end%Z.
Proof. unfold effectiveLimit. by intros [-> | ->]. Qed.

(** X7.  [getMarketAnalysis] returns at most [limit] volume leaders and at
    most [limit] price movers, where a limit that is absent or 0 stands
    for 5 in the 24h timeframe and for 10 in the others. *)
Theorem getMarketAnalysis_limit now params db :
  (0 <= effectiveLimit params)%Z ->
  (length (volumeLeaders (getMarketAnalysis now params db))
     <= Z.to_nat (effectiveLimit params))%nat
  /\ (length (priceMovers (getMarketAnalysis now params db))
        <= Z.to_nat (effectiveLimit params))%nat
  /\ (limit params = None \/ limit params = Some 0%Z ->
      effectiveLimit params =
        match timeframe params with TF_24h => 5 | _ => 10 end%Z).
Proof.
  intros Hlimit. simpl. split; [|split].
  - unfold volumeLeadersRaw. destruct (recent now (Sqlite.tables db)); simpl; [|lia].
    by apply length_sqlLimit.
  - rewrite length_map. unfold priceMoversRaw. by apply length_sqlLimit.
  - apply effectiveLimit_default.
Qed.

(** On the two-coin fixture, whose volume-leaders join has two rows, a
    limit of 1 and the default of the 24h timeframe. *)
Lemma getMarketAnalysis_limit_witness :
  let one := {| timeframe := TF_24h; category := None; limit := Some 1%Z |} in
  let none := {| timeframe := TF_24h; category := None; limit := None |} in
  ((length (volumeLeaders (getMarketAnalysis (T1 + 2000)%Z one twoCoinsDb)) <= 1)%nat
   /\ (length (priceMovers (getMarketAnalysis (T1 + 2000)%Z one twoCoinsDb)) <= 1)%nat)
  /\ effectiveLimit none = 5%Z.
Proof.
  intros one none. split.
  - destruct (getMarketAnalysis_limit (T1 + 2000)%Z one twoCoinsDb) as (Hv & Hp & _);
      [vm_compute; discriminate|].
    split; [exact Hv|exact Hp].
  - apply (proj2 (proj2 (getMarketAnalysis_limit (T1 + 2000)%Z none twoCoinsDb
                           ltac:(vm_compute; discriminate)))).
    by left.
Defined.

(** X8.  The two lists of [getMarketAnalysis] are in the order of their
    ORDER BY: the volume leaders by [volume_change], largest first, and the
    price movers by the absolute value of the 24h price change, largest
    first; entries whose key is NULL come last. *)
Theorem getMarketAnalysis_sorted now params db :
  StronglySorted (noLater vl_volume_change)
    (volumeLeaders (getMarketAnalysis now params db))
  /\ StronglySorted (noLater (fun e => sqlAbs (pm_price_change e)))
       (priceMovers (getMarketAnalysis now params db)).
Proof.
  simpl. split.
  - unfold volumeLeadersRaw. destruct (recent now (Sqlite.tables db)); [|constructor].
    apply StronglySorted_sqlLimit, orderByDesc_sorted.
  - unfold priceMoversRaw.
    apply (StronglySorted_fmap _ (noLater (fun row => sqlAbs (pmr_price_change row))));
      [done|].
    apply StronglySorted_sqlLimit, orderByDesc_sorted.
Qed.

(** X9.  The analysis sees a coin through its category links only (an
    inner join on [coin_categories]), and [storeMarketData] never writes a
    link: on a database without links, whatever is stored, both lists of
    the analysis are empty. *)
Theorem getMarketAnalysis_needs_links now data now' params db :
  coin_categories (Sqlite.tables db) = [] ->
  getMarketAnalysis now' params (storeMarketData now data db).1 =
    {| volumeLeaders := []; priceMovers := [] |}.
Proof.
  intros Hnone.
  pose proof (CoinFacts.storeMarketData_links now data db) as Hcc.
  rewrite Hnone in Hcc.
  destruct (storeMarketData now data db) as [db' r]. simpl in *.
  unfold getMarketAnalysis. f_equal.
  - unfold volumeLeadersRaw. destruct (recent now' (Sqlite.tables db')) as [r0|]; [|done].
    unfold volumeLeadersJoin. rewrite flat_map_all_nil.
    + unfold sqlLimit. simpl. destruct (_ <? 0)%Z; [done|]. by rewrite take_nil.
    + intros m _. destruct (_ && _); [|done].
      destruct (coins _ !! _); [|done]. unfold categoryLinks. by rewrite Hcc.
  - unfold priceMoversRaw, priceMoversJoin. rewrite flat_map_all_nil.
    + unfold sqlLimit. simpl. destruct (_ <? 0)%Z; [done|]. by rewrite take_nil.
    + intros m _. case_bool_decide; [|done].
      destruct (coins _ !! _); [|done]. unfold categoryLinks. by rewrite Hcc.
Qed.

(** A snapshot stored on a database that has its default categories and
    no link. *)
Lemma getMarketAnalysis_needs_links_witness :
  let db := (storeMarketData T0 [snapshot "aaa" "aaa" "AAA" 1 100 T0] freshDb).1 in
  map rowKey (market_data (Sqlite.tables db)) = [("aaa", T0)]
  /\ getMarketAnalysis (T0 + 1000)%Z
       {| timeframe := TF_24h; category := None; limit := None |} db =
     {| volumeLeaders := []; priceMovers := [] |}.
Proof.
  split; [vm_compute; reflexivity|].
  apply (getMarketAnalysis_needs_links T0 [snapshot "aaa" "aaa" "AAA" 1 100 T0]
           (T0 + 1000)%Z _ freshDb).
  reflexivity.
Defined.

(** X10.  With a category given, every entry of both lists names a coin
    of the store that has a snapshot and is linked to that category. *)
Theorem getMarketAnalysis_category now params db c :
  categoryFilter params = Some c ->
  let t := Sqlite.tables db in
  Forall (fun e =>
    exists m coin,
      m ∈ market_data t /\ coins t !! coin_id m = Some coin
      /\ (coin_id m, c) ∈ coin_categories t
      /\ vl_name e = coin_name coin /\ vl_symbol e = coin_symbol coin)
    (volumeLeaders (getMarketAnalysis now params db))
  /\ Forall (fun e =>
       exists m coin,
         m ∈ market_data t /\ coins t !! coin_id m = Some coin
         /\ (coin_id m, c) ∈ coin_categories t
         /\ pm_name e = coin_name coin /\ pm_symbol e = coin_symbol coin)
       (priceMovers (getMarketAnalysis now params db)).
Proof.
  intros Hfilter t. simpl. fold t. split.
  - unfold volumeLeadersRaw. destruct (recent now t) as [r|]; [|constructor].
    apply Forall_forall. intros e He. rewrite Hfilter in He.
    apply elem_of_sqlLimit, elem_of_orderByDesc, volumeLeadersJoin_link in He
      as (m & coin & link & Hm & Hc & Hlink & Hn & Hs).
    apply elem_of_categoryLinks in Hlink as (Hin & Hfst & Hsnd).
    specialize (Hsnd c eq_refl). destruct link as [lc lk]. simpl in *. subst.
    by exists m, coin.
  - apply Forall_forall. intros e He.
    apply list_elem_of_fmap in He as (row & -> & Hrow).
    unfold priceMoversRaw in Hrow. rewrite Hfilter in Hrow.
    apply elem_of_sqlLimit, elem_of_orderByDesc, priceMoversJoin_link in Hrow
      as (m & coin & link & Hm & Hc & Hlink & Hn & Hs).
    apply elem_of_categoryLinks in Hlink as (Hin & Hfst & Hsnd).
    specialize (Hsnd c eq_refl). destruct link as [lc lk]. simpl in *. subst.
    by exists m, coin.
Qed.

(** The two-coin fixture, asked for its one category. *)
Lemma getMarketAnalysis_category_witness :
  let params := {| timeframe := TF_24h; category := Some "base-ecosystem";
                   limit := None |} in
  let t := Sqlite.tables twoCoinsDb in
  map pm_name (priceMovers (getMarketAnalysis (T1 + 2000)%Z params twoCoinsDb)) =
    ["AAA"]
  /\ Forall (fun e =>
       exists m coin,
         m ∈ market_data t /\ coins t !! coin_id m = Some coin
         /\ (coin_id m, "base-ecosystem") ∈ coin_categories t
         /\ pm_name e = coin_name coin /\ pm_symbol e = coin_symbol coin)
       (priceMovers (getMarketAnalysis (T1 + 2000)%Z params twoCoinsDb)).
Proof.
  intros params t. split; [vm_compute; reflexivity|].
  apply (getMarketAnalysis_category (T1 + 2000)%Z params twoCoinsDb "base-ecosystem").
  reflexivity.
Defined.

End AnalysisShape.

(** ** plugin-coingecko: the cycle, its retries and the adapter *)

Module SyncFacts.
Import CoinGecko.

Section Service.
Context {DB : Type} `{IMarketDatabaseAdapter DB}.
Implicit Types (s : Service (DB := DB)) (upstream : Upstream) (world : World).

(** An attempt that succeeds has stored, and has assigned
    [lastUpdateTime]. *)
Lemma attempt_ok upstream s :
  isOk (attempt upstream s).2 = true ->
  lastUpdateTime (attempt upstream s).1 = clock s.
Proof.
  unfold attempt. pose proof (CoinGeckoFacts.fetchAndStore_effects upstream s) as Hfs.
  destruct (fetchAndStore upstream s) as [s1 [[]|e]]; [|done].
  destruct Hfs as (_ & _ & _ & Hl & _).
  by destruct (cleanOldData _ _ _) as [d [n|e]].
Qed.

(** What every attempt and every wait preserve, the loop preserves. *)
Lemma updateLoop_invariant world (P : Service (DB := DB) -> Prop) :
  (forall i s, (i < MAX_RETRIES)%nat -> P s -> P (attempt (world i) s).1) ->
  (forall s, P s -> P (sleep RETRY_DELAY s)) ->
  forall fuel retryCount s s' r,
    P s -> updateLoop world fuel retryCount s = Some (s', r) -> P s'.
Proof.
  intros Hattempt Hsleep.
  induction fuel as [|fuel IH]; intros retryCount s s' r HP Hrun; [done|].
  simpl in Hrun.
  destruct (retryCount <? MAX_RETRIES)%nat eqn:Hlt;
    [|by inversion Hrun; subst].
  apply Nat.ltb_lt in Hlt.
  pose proof (Hattempt retryCount s Hlt HP) as HP1.
  destruct (attempt (world retryCount) s) as [s1 [[]|e]]; simpl in HP1.
  - by inversion Hrun; subst.
  - destruct (S retryCount <? MAX_RETRIES)%nat.
    + eapply IH; [|exact Hrun]. by apply Hsleep.
    + by inversion Hrun; subst.
Qed.

(** A cycle that returns has ended with an attempt that succeeded. *)
Lemma updateLoop_ok world : forall fuel retryCount s s',
  (retryCount < MAX_RETRIES)%nat ->
  updateLoop world fuel retryCount s = Some (s', Ok tt) ->
  lastUpdateTime s' = clock s'.
Proof.
  induction fuel as [|fuel IH]; intros retryCount s s' Hlt Hrun; [done|].
  simpl in Hrun.
  assert ((retryCount <? MAX_RETRIES)%nat = true) as Hltb by by apply Nat.ltb_lt.
  rewrite Hltb in Hrun.
  pose proof (attempt_ok (world retryCount) s) as Hok.
  pose proof (CoinGeckoFacts.attempt_effects (world retryCount) s) as Heff.
  destruct (attempt (world retryCount) s) as [s1 [[]|e]]; simpl in *.
  - inversion Hrun; subst s'. destruct Heff as (_ & Hc & _). rewrite Hc. by apply Hok.
  - destruct (S retryCount <? MAX_RETRIES)%nat eqn:Hlt'; [|done].
    apply Nat.ltb_lt in Hlt'. by eapply IH.
Qed.

(** The retry loop from [retryCount] on, when the next [k] attempts fail
    and the one after them succeeds. *)
Lemma updateLoop_succeeds world : forall k retryCount fuel s,
  (retryCount + k < MAX_RETRIES)%nat ->
  (k < fuel)%nat ->
  (forall i s', (retryCount <= i < retryCount + k)%nat ->
     isOk (attempt (world i) s').2 = false) ->
  (forall s', isOk (attempt (world (retryCount + k)) s').2 = true) ->
  exists s',
    updateLoop world fuel retryCount s = Some (s', Ok tt)
    /\ clock s' = (clock s + Z.of_nat k * RETRY_DELAY)%Z
    /\ lastUpdateTime s' = clock s'
    /\ isUpdating s' = isUpdating s
    /\ trace s' =
         trace s
         ++ concat (replicate k (attemptRequests ++ [Sleep RETRY_DELAY]))
         ++ attemptRequests.
Proof.
  induction k as [|k IH]; intros retryCount fuel s Hcount Hfuel Hfail Hok;
    (destruct fuel as [|fuel]; [lia|]); simpl.
  - assert ((retryCount <? MAX_RETRIES)%nat = true) as -> by (apply Nat.ltb_lt; lia).
    rewrite Nat.add_0_r in Hok.
    pose proof (attempt_ok (world retryCount) s) as Hlast.
    pose proof (CoinGeckoFacts.attempt_effects (world retryCount) s) as Heff.
    specialize (Hok s).
    destruct (attempt (world retryCount) s) as [s1 [[]|e]]; [|done]. simpl in *.
    destruct Heff as (Ht & Hc & Hu & _).
    exists s1. split; [done|]. split; [lia|]. split; [by rewrite Hc; apply Hlast|].
    by split.
  - assert ((retryCount <? MAX_RETRIES)%nat = true) as -> by (apply Nat.ltb_lt; lia).
    pose proof (CoinGeckoFacts.attempt_effects (world retryCount) s) as Heff.
    pose proof (Hfail retryCount s ltac:(lia)) as Hthrow.
    destruct (attempt (world retryCount) s) as [s1 [[]|e]]; [done|]. simpl in *.
    destruct Heff as (Ht & Hc & Hu & _).
    assert ((S retryCount <? MAX_RETRIES)%nat = true) as -> by (apply Nat.ltb_lt; lia).
    destruct (IH (S retryCount) fuel (sleep RETRY_DELAY s1))
      as (s' & Hrun & Hc' & Hl' & Hu' & Ht').
    + lia.
    + lia.
    + intros i s0 Hi. apply Hfail. lia.
    + intros s0. replace (S retryCount + k)%nat with (retryCount + S k)%nat by lia.
      apply Hok.
    + exists s'. split; [done|]. simpl in *.
      split; [lia|]. split; [done|]. split; [congruence|].
      rewrite Ht', Ht. by rewrite <- !app_assoc.
Qed.

(** X11.  When the first [k] attempts of a cycle fail, for a [k] below
    [MAX_RETRIES] = 3, and the next one succeeds, [updateMarketData]
    returns after exactly [k] waits of [RETRY_DELAY] = 5 minutes and
    [k + 1] attempts; [lastUpdateTime] is the time of the successful
    store, [k] x 5 minutes after the start. *)
Theorem updateMarketData_retry_succeeds world s k :
  (k < MAX_RETRIES)%nat ->
  (forall i s', (i < k)%nat -> isOk (attempt (world i) s').2 = false) ->
  (forall s', isOk (attempt (world k) s').2 = true) ->
  exists s',
    updateMarketData world s = Some (s', Ok tt)
    /\ clock s' = (clock s + Z.of_nat k * 300000)%Z
    /\ lastUpdateTime s' = clock s'
    /\ isUpdating s' = isUpdating s
    /\ trace s' =
         trace s
         ++ concat (replicate k (attemptRequests ++ [Sleep 300000]))
         ++ attemptRequests.
Proof.
  intros Hk Hfail Hok.
  apply (updateLoop_succeeds world k 0 (S MAX_RETRIES) s); try done.
  - lia.
  - intros i s' Hi. apply Hfail. lia.
Qed.

(** X12.  [checkAndUpdate] always completes, whether the cycle returns
    or throws, and leaves the flag as it found it: lowered after a cycle
    it has run (the [finally] block).  Time does not go back, and after a
    cycle that returned [lastUpdateTime] is an instant of that cycle. *)
Theorem checkAndUpdate_lowers_flag world s :
  exists s' r,
    checkAndUpdate world s = Some (s', r)
    /\ isUpdating s' = isUpdating s
    /\ (clock s <= clock s')%Z
    /\ (trace s' <> trace s ->
        isUpdating s = false
        /\ (MINIMUM_UPDATE_GAP <= clock s - lastUpdateTime s)%Z
        /\ (isOk r = true -> (clock s <= lastUpdateTime s' <= clock s')%Z)).
Proof.
  unfold checkAndUpdate.
  destruct (isUpdating s) eqn:Hu.
  { exists s, (Ok tt). rewrite Hu. repeat split; try done; lia. }
  destruct (clock s - lastUpdateTime s <? MINIMUM_UPDATE_GAP)%Z eqn:Hgap.
  { exists s, (Ok tt). rewrite Hu. repeat split; try done; lia. }
  apply Z.ltb_ge in Hgap.
  destruct (CoinGeckoFacts.updateMarketData_total world (setUpdating true s))
    as [[s1 r] Hrun].
  rewrite Hrun. exists (setUpdating false s1), r.
  split; [done|]. split; [done|].
  assert (clock s <= clock s1)%Z as Hclock.
  { eapply (updateLoop_invariant world (fun s' => (clock s <= clock s')%Z));
      [| | |exact Hrun].
    - intros i s0 _ Hs0.
      pose proof (CoinGeckoFacts.attempt_effects (world i) s0) as Heff.
      destruct (attempt (world i) s0) as [s2 r2].
      destruct Heff as (_ & Hc & _). simpl. lia.
    - intros s0 Hs0. simpl. unfold RETRY_DELAY. lia.
    - simpl. lia. }
  split; [done|]. intros _. split; [done|]. split; [done|].
  intros Hok. destruct r as [[]|e]; [|done]. simpl.
  assert (lastUpdateTime s1 = clock s1) as ->; [|lia].
  apply (updateLoop_ok world (S MAX_RETRIES) 0 (setUpdating true s) s1); [|done].
  unfold MAX_RETRIES. lia.
Qed.

End Service.

(** *** The cycle on the adapter of this repository *)

Implicit Types (s : Service (DB := Adapter.Database)).

Lemma fetchCategoryData_ok upstream category data :
  (fetchCategoryData upstream category).1 = Ok data <->
  upstream category 1%nat = MarketsData data.
Proof.
  unfold fetchCategoryData.
  destruct (upstream category 1%nat) as [d| |status]; simpl.
  - split; intros Heq; by inversion Heq.
  - done.
  - by case_bool_decide.
Qed.

(** The adapter's store of what [processApiResponse] builds: it returns
    on the empty batch only, and never changes a table. *)
Lemma storeMarketData_processed now ecosystem memeCoins timestamp db :
  let batch :=
    map md_fields (processApiResponse ecosystem base_ecosystem timestamp
                   ++ processApiResponse memeCoins base_meme_coins timestamp) in
  Sqlite.tables (Adapter.storeMarketData now batch db).1 = Sqlite.tables db
  /\ (isOk (Adapter.storeMarketData now batch db).2 = true ->
      ecosystem = [] /\ memeCoins = []).
Proof.
  intros batch.
  destruct ecosystem as [|item ecosystem]; [destruct memeCoins as [|item memeCoins]|].
  - unfold batch. rewrite AdapterFacts.storeMarketData_run. by simpl.
  - assert (Adapter.storeMarketData now batch db =
              ({| Sqlite.tables := Sqlite.tables db; Sqlite.journal := None |},
               Throw "Missing named parameter")) as ->; [|done].
    by apply AdapterFacts.storeMarketData_missing_coin_id.
  - assert (Adapter.storeMarketData now batch db =
              ({| Sqlite.tables := Sqlite.tables db; Sqlite.journal := None |},
               Throw "Missing named parameter")) as ->; [|done].
    by apply AdapterFacts.storeMarketData_missing_coin_id.
Qed.

Lemma fetchAndStore_adapter upstream s :
  Sqlite.tables (db (fetchAndStore upstream s).1) = Sqlite.tables (db s)
  /\ (isOk (fetchAndStore upstream s).2 = true ->
      upstream base_ecosystem 1%nat = MarketsData []
      /\ upstream base_meme_coins 1%nat = MarketsData []).
Proof.
  unfold fetchAndStore.
  pose proof (fetchCategoryData_ok upstream base_ecosystem) as He.
  pose proof (fetchCategoryData_ok upstream base_meme_coins) as Hm.
  destruct (fetchCategoryData upstream base_ecosystem) as [eco t1].
  destruct (fetchCategoryData upstream base_meme_coins) as [meme t2].
  simpl in He, Hm.
  destruct eco as [ecosystem|e]; [destruct meme as [memeCoins|e]|]; simpl;
    try done.
  pose proof (storeMarketData_processed (clock s) ecosystem memeCoins (clock s) (db s))
    as [Htables Hempty].
  unfold storeMarketData, marketDatabaseAdapter.
  destruct (Adapter.storeMarketData _ _ _) as [d [[]|e]]; simpl in *.
  - split; [done|]. intros _. destruct (Hempty eq_refl) as [-> ->].
    split; [by apply He|by apply Hm].
  - done.
Qed.

(** One attempt on the adapter adds nothing. *)
Lemma attempt_adapter upstream s :
  let before := Sqlite.tables (db s) in
  let after := Sqlite.tables (db (attempt upstream s).1) in
  Adapter.coins after = Adapter.coins before
  /\ Adapter.market_data after `sublist_of` Adapter.market_data before
  /\ (isOk (fetchAndStore upstream s).2 = false -> after = before).
Proof.
  unfold attempt.
  destruct (fetchAndStore_adapter upstream s) as [Htables _].
  destruct (fetchAndStore upstream s) as [s1 [[]|e]]; simpl in *.
  - unfold cleanOldData, marketDatabaseAdapter.
    unfold Adapter.cleanOldData, Sqlite.exec. simpl. rewrite Htables.
    split; [done|]. split; [apply sublist_List_filter|done].
  - rewrite Htables. by repeat split.
Qed.

(** X13.  On the adapter of this repository an update cycle never adds a
    snapshot or a coin.  The records that [processApiResponse] builds
    carry [id] but no [coin_id]; the INSERT of the snapshot binds
    [@coin_id], so the write of the first record throws and the
    transaction rolls back.  Whatever the upstream answers,
    [updateMarketData] completes with the coins as they were and with no
    snapshot that was not there. *)
Theorem updateMarketData_never_stores world s :
  exists s' r,
    updateMarketData world s = Some (s', r)
    /\ Adapter.coins (Sqlite.tables (db s')) = Adapter.coins (Sqlite.tables (db s))
    /\ Adapter.market_data (Sqlite.tables (db s'))
         `sublist_of` Adapter.market_data (Sqlite.tables (db s)).
Proof.
  destruct (CoinGeckoFacts.updateMarketData_total world s) as [[s' r] Hrun].
  exists s', r. split; [done|].
  eapply (updateLoop_invariant world
            (fun s' =>
               Adapter.coins (Sqlite.tables (db s')) =
                 Adapter.coins (Sqlite.tables (db s))
               /\ Adapter.market_data (Sqlite.tables (db s'))
                    `sublist_of` Adapter.market_data (Sqlite.tables (db s))));
    [| | |exact Hrun]; [| |done].
  - intros i s0 _ [Hc Hm].
    destruct (attempt_adapter (world i) s0) as (Hc' & Hm' & _).
    split; [congruence|]. by etrans.
  - by intros s0 [Hc Hm].
Qed.

(** X14.  On the adapter of this repository, a cycle in each of whose
    attempts the upstream sends a record, or fails, makes its three
    attempts and throws; the tables and [lastUpdateTime] are as
    before. *)
Theorem updateMarketData_records_rejected world s :
  (forall i, (i < MAX_RETRIES)%nat ->
     ~ (world i base_ecosystem 1%nat = MarketsData []
        /\ world i base_meme_coins 1%nat = MarketsData [])) ->
  exists s',
    updateMarketData world s =
      Some (s', Throw "Failed to update market data after 3 attempts")
    /\ Sqlite.tables (db s') = Sqlite.tables (db s)
    /\ lastUpdateTime s' = lastUpdateTime s
    /\ countWhere isRequest (trace s') = (countWhere isRequest (trace s) + 6)%nat.
Proof.
  intros Hrecords.
  assert (forall i s0, (i < MAX_RETRIES)%nat ->
            isOk (fetchAndStore (world i) s0).2 = false) as Hfail.
  { intros i s0 Hi. destruct (isOk (fetchAndStore (world i) s0).2) eqn:Hok; [|done].
    destruct (Hrecords i Hi). by apply (fetchAndStore_adapter (world i) s0). }
  destruct (CoinGeckoFacts.updateLoop_exhausts world 2 0 (S MAX_RETRIES) s)
    as (s' & Hrun & Hl & _ & _ & Ht); [done|unfold MAX_RETRIES; lia|done|].
  exists s'. split; [done|]. split; [|split; [done|]].
  - eapply (updateLoop_invariant world
              (fun s' => Sqlite.tables (db s') = Sqlite.tables (db s)));
      [| | |exact Hrun]; [| |done].
    + intros i s0 Hi Hs0.
      destruct (attempt_adapter (world i) s0) as (_ & _ & Hsame).
      rewrite Hsame; [done|]. by apply Hfail.
    + by intros s0 Hs0.
  - rewrite Ht, !FetchFacts.countWhere_app. simpl. unfold countWhere. simpl. lia.
Qed.

(** An upstream that answers every request with one record. *)
Lemma updateMarketData_records_rejected_witness :
  let s := newService Adapter.freshDb 1700000000000 in
  exists s',
    updateMarketData up s =
      Some (s', Throw "Failed to update market data after 3 attempts")
    /\ Sqlite.tables (db s') = Sqlite.tables Adapter.freshDb
    /\ lastUpdateTime s' = 0%Z
    /\ countWhere isRequest (trace s') = 6%nat.
Proof.
  intros s.
  apply (updateMarketData_records_rejected up s).
  intros i _ [Heq _]. discriminate Heq.
Defined.

(** An upstream that is down during the first attempt and has no records
    afterwards, on the adapter's database. *)
Lemma updateMarketData_retry_succeeds_witness :
  let s := newService Adapter.freshDb 1700000000000 in
  exists s',
    updateMarketData recovering s = Some (s', Ok tt)
    /\ clock s' = 1700000300000%Z
    /\ lastUpdateTime s' = clock s'
    /\ isUpdating s' = false
    /\ trace s' =
         [MarketsRequest "base-ecosystem" None; MarketsRequest "base-meme-coins" None;
          Sleep 300000;
          MarketsRequest "base-ecosystem" None; MarketsRequest "base-meme-coins" None].
Proof.
  intros s.
  apply (updateMarketData_retry_succeeds recovering s 1).
  - unfold MAX_RETRIES. lia.
  - intros i s' Hi. assert (i = 0%nat) as -> by lia. reflexivity.
  - intros s'. reflexivity.
Defined.

End SyncFacts.

(** ** plugin-base-market: what the store and the fetch leave behind *)

Module IngestFacts.
Import BaseMarket.

(** A row that was bound holds, under each named parameter, the value of
    the token's property of that name. *)
Lemma bindColumns_lookup cols token row c :
  bindColumns cols token = Ok row ->
  c ∈ cols ->
  exists v, bindValue (token !! c) = Ok v /\ row !! c = Some v.
Proof.
  revert row. induction cols as [|c0 cols IH]; intros row Hbind Hin;
    [by apply elem_of_nil in Hin|].
  simpl in Hbind.
  destruct (bindValue (token !! c0)) as [v0|e] eqn:Hv0; [|done].
  destruct (bindColumns cols token) as [row'|e] eqn:Hrest; [|done].
  inversion Hbind; subst row.
  destruct (decide (c = c0)) as [->|Hne].
  - exists v0. by rewrite lookup_insert_eq.
  - apply elem_of_cons in Hin as [?|Hin]; [done|].
    destruct (IH row' eq_refl Hin) as (v & Hv & Hrow).
    exists v. by rewrite lookup_insert_ne.
Qed.

Lemma tag_lookup category timestamp token :
  tag category timestamp token !! "category" = Some (JsStr category)
  /\ tag category timestamp token !! "timestamp" = Some (JsNum (inject_Z timestamp))
  /\ forall c, c <> "category" -> c <> "timestamp" ->
       tag category timestamp token !! c = token !! c.
Proof.
  unfold tag. split; [|split].
  - rewrite lookup_insert_ne by done. by rewrite lookup_insert_eq.
  - by rewrite lookup_insert_eq.
  - intros c Hc Ht. by rewrite !lookup_insert_ne.
Qed.

Section Store.
Variable conflicts : Row -> list Row -> bool.

Lemma runInsert_inv token t t' :
  runInsert conflicts token t = Ok t' ->
  exists row,
    bindColumns columns token = Ok row
    /\ base_token_info t' = base_token_info t
    /\ ((conflicts row (base_market_data t) = true /\ t' = t)
        \/ (conflicts row (base_market_data t) = false
            /\ base_market_data t' = base_market_data t ++ [row])).
Proof.
  unfold runInsert. destruct (bindColumns columns token) as [row|e]; [|done].
  intros Heq. inversion Heq; subst t'. exists row. split; [done|].
  destruct (conflicts row (base_market_data t)); simpl.
  - split; [done|]. by left.
  - split; [done|]. by right.
Qed.

(** INSERT OR IGNORE appends: the rows that were there stay, in place,
    and each new row is the binding of a token of the batch. *)
Lemma insertTokens_appends data : forall t t',
  insertTokens conflicts data t = (t', Ok tt) ->
  base_token_info t' = base_token_info t
  /\ exists rows,
       base_market_data t' = base_market_data t ++ rows
       /\ (length rows <= length data)%nat
       /\ Forall (fun row =>
            exists token, token ∈ data /\ bindColumns columns token = Ok row) rows.
Proof.
  induction data as [|token data IH]; intros t t' Hrun; simpl in Hrun.
  - inversion Hrun; subst t'. split; [done|]. exists [].
    rewrite app_nil_r. by repeat split.
  - destruct (runInsert conflicts token t) as [t1|e] eqn:Hins; [|done].
    apply runInsert_inv in Hins as (row & Hbind & Hinfo & Hrows).
    destruct (IH _ _ Hrun) as (Hinfo' & rows & Hrows' & Hlen & Hall).
    split; [congruence|].
    assert (Forall (fun row =>
              exists token', token' ∈ token :: data
                             /\ bindColumns columns token' = Ok row) rows) as Hall'.
    { eapply Forall_impl; [exact Hall|]. intros r (token' & Hin & Hr).
      exists token'. split; [|done]. apply elem_of_cons. by right. }
    destruct Hrows as [[_ ->]|[_ Hadd]].
    + exists rows. split; [done|]. split; [simpl; lia|done].
    + exists (row :: rows). rewrite Hrows', Hadd, <- app_assoc. split; [done|].
      split; [simpl; lia|]. constructor; [|done].
      exists token. split; [|done]. apply elem_of_cons. by left.
Qed.

(** X15.  The plugin's [storeMarketData] only appends: whatever the call
    does, the rows that were in [base_market_data] are still there, in
    place and unchanged, followed by at most one new row per token of the
    batch, each the binding of a token of the batch; the detail table is
    untouched; and a call that throws adds nothing. *)
Theorem base_storeMarketData_append_only data db :
  let '(db', r) := storeMarketData conflicts data db in
  let before := Sqlite.tables db in
  let after := Sqlite.tables db' in
  base_token_info after = base_token_info before
  /\ exists rows,
       base_market_data after = base_market_data before ++ rows
       /\ (length rows <= length data)%nat
       /\ Forall (fun row =>
            exists token, token ∈ data /\ bindColumns columns token = Ok row) rows
       /\ (isOk r = false -> rows = []).
Proof.
  rewrite BaseMarketFacts.base_storeMarketData_run.
  destruct (insertTokens conflicts data (Sqlite.tables db)) as [t [[]|e]] eqn:Hrun;
    simpl.
  - destruct (insertTokens_appends _ _ _ Hrun) as (Hinfo & rows & Hrows & Hlen & Hall).
    split; [done|]. exists rows. by repeat split.
  - split; [done|]. exists []. rewrite app_nil_r. repeat split; try done. simpl. lia.
Qed.

(** After a batch has been inserted every one of its tokens conflicts
    with the table, if a stored row conflicts with itself and a conflict
    is not lifted by further rows. *)
Lemma insertTokens_then_conflicts data : forall t t',
  (forall token row rows,
     token ∈ data -> bindColumns columns token = Ok row ->
     row ∈ rows -> conflicts row rows = true) ->
  (forall row rows more,
     conflicts row rows = true -> conflicts row (rows ++ more) = true) ->
  insertTokens conflicts data t = (t', Ok tt) ->
  forall token row,
    token ∈ data -> bindColumns columns token = Ok row ->
    conflicts row (base_market_data t') = true.
Proof.
  induction data as [|token0 data IH]; intros t t' Hself Hmono Hrun token row Hin Hbind;
    [by apply elem_of_nil in Hin|].
  simpl in Hrun.
  destruct (runInsert conflicts token0 t) as [t1|e] eqn:Hins; [|done].
  apply runInsert_inv in Hins as (row0 & Hbind0 & _ & Hrows).
  destruct (insertTokens_appends _ _ _ Hrun) as (_ & rows & Hrows' & _).
  apply elem_of_cons in Hin as [->|Hin].
  - rewrite Hbind0 in Hbind. inversion Hbind; subst row0.
    destruct Hrows as [[Hc ->]|[_ Hadd]].
    + rewrite Hrows'. by apply Hmono.
    + apply (Hself token0); [apply elem_of_cons; by left|done|].
      rewrite Hrows', Hadd. apply elem_of_app. left. apply elem_of_app. right.
      by apply list_elem_of_singleton.
  - eapply (IH t1 t'); try done.
    intros token' row' rows' Hin'. apply Hself. apply elem_of_cons. by right.
Qed.

(** A batch all of whose tokens conflict with the table is skipped as a
    whole. *)
Lemma insertTokens_skips data : forall t,
  Forall bindable data ->
  (forall token row,
     token ∈ data -> bindColumns columns token = Ok row ->
     conflicts row (base_market_data t) = true) ->
  insertTokens conflicts data t = (t, Ok tt).
Proof.
  induction data as [|token data IH]; intros t Hall Hconf; simpl; [done|].
  apply Forall_cons in Hall as [Htoken Hall].
  unfold runInsert. unfold bindable in Htoken.
  destruct (bindColumns columns token) as [row|e] eqn:Hbind; [|done].
  rewrite (Hconf token row) by (done || (apply elem_of_cons; by left)).
  apply IH; [done|]. intros token' row' Hin. apply Hconf. apply elem_of_cons. by right.
Qed.

(** X16.  Storing a batch a second time adds nothing, provided the
    constraints of [base_market_data] make a stored row of the batch
    conflict with itself (its key is unique and not NULL) and a conflict is
    not lifted by further rows: INSERT OR IGNORE skips every token the
    second time, and the database is exactly as the first call left
    it. *)
Theorem base_storeMarketData_idempotent data db db1 :
  (forall token row rows,
     token ∈ data -> bindColumns columns token = Ok row ->
     row ∈ rows -> conflicts row rows = true) ->
  (forall row rows more,
     conflicts row rows = true -> conflicts row (rows ++ more) = true) ->
  storeMarketData conflicts data db = (db1, Ok tt) ->
  storeMarketData conflicts data db1 = (db1, Ok tt).
Proof.
  intros Hself Hmono Hrun.
  pose proof Hrun as [Hins Hj]%SqliteFacts.transaction_ok.
  assert (Forall bindable data) as Hall.
  { destruct (decide (Forall bindable data)) as [|Hnot]; [done|].
    destruct (BaseMarketFacts.insertTokens_unbindable conflicts data (Sqlite.tables db)
                Hnot) as (t' & e & Hthrow). congruence. }
  rewrite BaseMarketFacts.base_storeMarketData_run.
  rewrite insertTokens_skips; [|done|].
  - destruct db1 as [t1 j1]. simpl in *. by subst j1.
  - intros token row Hin Hbind. by eapply insertTokens_then_conflicts.
Qed.

(** X17.  A fetch that reports failure has stored nothing: without an
    API key, on a failed or malformed page, or when the store of the batch
    throws (the transaction rolls back), the service and its database are
    exactly as before the call, however many pages had been fetched; the
    response carries an error and no data. *)
Theorem fetchMarketData_failure upstream fuel now category svc svc' response trace :
  Sqlite.journal (db svc) = None ->
  fetchMarketData conflicts upstream fuel now category svc =
    Some (svc', response, trace) ->
  success response = false ->
  svc' = svc /\ data response = None /\ is_Some (error response).
Proof.
  intros Hj. unfold fetchMarketData.
  destruct (apiKey svc) as [key|] eqn:Hkey.
  - destruct (fetchPages upstream category fuel 1 [] []) as [[[tokens| |message] tr]|];
      [|by intros Heq; inversion Heq; subst..|done].
    destruct (storeMarketData conflicts _ (db svc)) as [db' [[]|e]] eqn:Hstore.
    + intros Heq. by inversion Heq; subst.
    + intros Heq _. inversion Heq; subst. split; [|by split].
      apply SqliteFacts.transaction_throw in Hstore; [|done]. subst db'.
      destruct svc. simpl in *. by subst.
  - intros Heq. by inversion Heq; subst.
Qed.

(** X18.  A fetch that reports success returns the records of the pages
    it fetched, each tagged with the category asked for and with the time
    of the fetch in whole seconds, whatever [category] or [timestamp] the
    upstream's record carried, and otherwise as the upstream sent them;
    and these records are what it has stored. *)
Theorem fetchMarketData_tags upstream fuel now category svc svc' response trace :
  fetchMarketData conflicts upstream fuel now category svc =
    Some (svc', response, trace) ->
  success response = true ->
  exists tokens records,
    fetchPages upstream category fuel 1 [] [] = Some (Fetched tokens, trace)
    /\ data response = Some records
    /\ Forall2 (fun token record =>
         record !! "category" = Some (JsStr category)
         /\ record !! "timestamp" = Some (JsNum (inject_Z (now `div` 1000)))
         /\ forall c, c <> "category" -> c <> "timestamp" ->
              record !! c = token !! c) tokens records
    /\ storeMarketData conflicts records (db svc) = (db svc', Ok tt)
    /\ apiKey svc' = apiKey svc.
Proof.
  unfold fetchMarketData.
  destruct (apiKey svc) as [key|] eqn:Hkey; [|by intros Heq; inversion Heq; subst].
  destruct (fetchPages upstream category fuel 1 [] []) as [[[tokens| |message] tr]|];
    [|by intros Heq; inversion Heq; subst..|done].
  destruct (storeMarketData conflicts _ (db svc)) as [db' [[]|e]] eqn:Hstore;
    [|by intros Heq; inversion Heq; subst].
  intros Heq _. inversion Heq; subst. simpl.
  exists tokens, (map (tag category (now `div` 1000)) tokens).
  split; [done|]. split; [done|]. split; [|by split].
  clear. induction tokens as [|token tokens IH]; simpl; constructor; [|done].
  apply tag_lookup.
Qed.

End Store.

(** The requests and waits of [n] full pages that end in a response that
    is not a page. *)
Lemma fetchPages_full_then_fails upstream category pages n : forall start fuel allTokens trace,
  (n < fuel)%nat ->
  (forall p, (start <= p < start + n)%nat ->
     upstream category p = PageData (pages p) /\ length (pages p) = PER_PAGE) ->
  (forall tokens, upstream category (start + n)%nat <> PageData tokens) ->
  fetchPages upstream category fuel start allTokens trace =
    Some (match upstream category (start + n)%nat with
          | PageError message => Failed message
          | _ => InvalidFormat
          end,
          trace
          ++ flat_map (fun p => [MarketsRequest category (Some p); Sleep PAGE_DELAY])
               (seq start n)
          ++ [MarketsRequest category (Some (start + n)%nat)]).
Proof.
  induction n as [|n IH]; intros start fuel allTokens trace Hfuel Hfull Hlast;
    (destruct fuel as [|fuel]; [lia|]); simpl.
  - rewrite Nat.add_0_r in *.
    destruct (upstream category start) as [tokens| |message]; [|done|done].
    by destruct (Hlast tokens).
  - destruct (Hfull start ltac:(lia)) as [Hpage Hlen]. rewrite Hpage.
    assert ((length (pages start) <? PER_PAGE)%nat = false) as ->.
    { apply Nat.ltb_ge. lia. }
    rewrite (IH (S start) fuel).
    + replace (S start + n)%nat with (start + S n)%nat by lia.
      f_equal. f_equal. by rewrite <- !app_assoc.
    + lia.
    + intros p Hp. apply Hfull. lia.
    + intros tokens. replace (S start + n)%nat with (start + S n)%nat by lia.
      apply Hlast.
Qed.

(** X19.  When the upstream returns 250 records for each of the pages
    1..N of a category and then fails, or sends a body that is not an
    array, [fetchMarketData] has issued the N+1 requests, waited 1.1 s
    after each full page, and gives up: it reports the error of the last
    request, stores none of the N pages it had fetched and leaves the
    service as it was. *)
Theorem fetchMarketData_gives_up conflicts (upstream : Upstream)
  (category : string) (pages : nat -> list Token) (N fuel : nat) (now : Z)
  (svc : Service) (key : string) :
  apiKey svc = Some key ->
  (forall p, (1 <= p <= N)%nat ->
     upstream category p = PageData (pages p) /\ length (pages p) = 250%nat) ->
  (forall tokens, upstream category (S N) <> PageData tokens) ->
  (N < fuel)%nat ->
  let trace :=
    flat_map (fun p => [MarketsRequest category (Some p); Sleep 1100]) (seq 1 N)
    ++ [MarketsRequest category (Some (S N))] in
  fetchMarketData conflicts upstream fuel now category svc =
    Some (svc,
          failure (match upstream category (S N) with
                   | PageError message => message
                   | _ => "Invalid response format"
                   end),
          trace)
  /\ countWhere isRequest trace = S N
  /\ countWhere isSleep trace = N.
Proof.
  intros Hkey Hfull Hlast Hfuel trace.
  assert (fetchPages upstream category fuel 1 [] [] =
            Some (match upstream category (S N) with
                  | PageError message => Failed message
                  | _ => InvalidFormat
                  end, trace)) as Hpages.
  { rewrite (fetchPages_full_then_fails upstream category pages N 1 fuel [] []);
      try done.
    intros p Hp. apply Hfull. lia. }
  destruct (FetchFacts.countWhere_full_pages category 1 N) as [Hr Hs].
  split; [|split].
  - unfold fetchMarketData. rewrite Hkey, Hpages.
    destruct (upstream category (S N)) as [tokens| |message]; [|done|done].
    by destruct (Hlast tokens).
  - unfold trace. rewrite FetchFacts.countWhere_app. fold PAGE_DELAY. rewrite Hr.
    unfold countWhere. simpl. lia.
  - unfold trace. rewrite FetchFacts.countWhere_app. fold PAGE_DELAY. rewrite Hs.
    unfold countWhere. simpl. lia.
Qed.

(** The fixture keys: a stored row whose id, timestamp and category are
    not NULL has the key of itself. *)
Lemma uniqueKey_self token row rows :
  bindColumns columns token = Ok row ->
  (exists i ts c, token !! "id" = Some (JsStr i)
                  /\ token !! "timestamp" = Some (JsNum ts)
                  /\ token !! "category" = Some (JsStr c)) ->
  row ∈ rows -> uniqueKey row rows = true.
Proof.
  intros Hbind (i & ts & c & Hi & Hts & Hc) Hin.
  unfold uniqueKey. apply existsb_exists. exists row.
  split; [by apply list_elem_of_In|].
  destruct (bindColumns_lookup columns token row "id" Hbind) as (vi & Hvi & Hri);
    [by repeat (apply elem_of_cons; (by left) || right)|].
  destruct (bindColumns_lookup columns token row "timestamp" Hbind) as (vt & Hvt & Hrt);
    [by repeat (apply elem_of_cons; (by left) || right)|].
  destruct (bindColumns_lookup columns token row "category" Hbind) as (vc & Hvc & Hrc);
    [by repeat (apply elem_of_cons; (by left) || right)|].
  rewrite Hi in Hvi. rewrite Hts in Hvt. rewrite Hc in Hvc. simpl in *.
  inversion Hvi; inversion Hvt; inversion Hvc; subst.
  unfold sameKey. rewrite Hri, Hrt, Hrc. simpl.
  rewrite String.eqb_refl, String.eqb_refl, andb_true_r, andb_true_l.
  apply Qeq_bool_iff. reflexivity.
Qed.

Lemma uniqueKey_mono row rows more :
  uniqueKey row rows = true -> uniqueKey row (rows ++ more) = true.
Proof. unfold uniqueKey. rewrite existsb_app. by intros ->. Qed.

(** One tagged record, stored twice under the fixture key. *)
Lemma base_storeMarketData_idempotent_witness :
  let batch := [tag "base-meme-coins" 1700000000 (apiToken "aaa" 1 1 1 0 0)] in
  let db1 := (storeMarketData uniqueKey batch emptyDb).1 in
  length (base_market_data (Sqlite.tables db1)) = 1%nat
  /\ storeMarketData uniqueKey batch db1 = (db1, Ok tt).
Proof.
  intros batch db1. split; [vm_compute; reflexivity|].
  apply (base_storeMarketData_idempotent uniqueKey batch emptyDb db1).
  - intros token row rows ->%list_elem_of_singleton Hbind Hin.
    apply (uniqueKey_self _ _ _ Hbind); [|done].
    exists "aaa", (inject_Z 1700000000), "base-meme-coins".
    split; [|split]; vm_compute; reflexivity.
  - apply uniqueKey_mono.
  - assert ((storeMarketData uniqueKey batch emptyDb).2 = Ok tt) as Hok
      by (vm_compute; reflexivity).
    unfold db1. destruct (storeMarketData uniqueKey batch emptyDb) as [d r].
    cbn [fst snd] in *. by subst r.
Defined.

(** A body that is not an array, on a service with a key. *)
Lemma fetchMarketData_failure_witness :
  let malformed : Upstream := fun _ _ => PageInvalid in
  fetchMarketData uniqueKey malformed 1 1700000000999 "base-ecosystem" readyService =
    Some (readyService, failure "Invalid response format",
          [MarketsRequest "base-ecosystem" (Some 1%nat)])
  /\ (readyService = readyService
      /\ data (failure "Invalid response format") = None
      /\ is_Some (error (failure "Invalid response format"))).
Proof.
  intros malformed. split; [reflexivity|].
  apply (fetchMarketData_failure uniqueKey malformed 1 1700000000999 "base-ecosystem"
           readyService readyService (failure "Invalid response format")
           [MarketsRequest "base-ecosystem" (Some 1%nat)]); reflexivity.
Defined.

(** One page of one record. *)
Lemma fetchMarketData_tags_witness :
  exists tokens records : list Token,
    fetchPages onePage "base-ecosystem" 1 1 [] [] =
      Some (Fetched tokens, [MarketsRequest "base-ecosystem" (Some 1%nat)])
    /\ Forall2 (fun token record =>
         record !! "category" = Some (JsStr "base-ecosystem")
         /\ record !! "timestamp" = Some (JsNum (inject_Z (1700000000999 `div` 1000)))
         /\ forall c, c <> "category" -> c <> "timestamp" ->
              record !! c = token !! c) tokens records.
Proof.
  assert (option_map (fun r => success r.1.2)
            (fetchMarketData uniqueKey onePage 1 1700000000999 "base-ecosystem"
               readyService) = Some true) as Hok.
  { vm_compute. reflexivity. }
  destruct (fetchMarketData uniqueKey onePage 1 1700000000999 "base-ecosystem"
              readyService) as [[[svc' response] trace]|] eqn:Hrun; [|discriminate Hok].
  cbn [option_map fst snd] in Hok.
  destruct (fetchMarketData_tags uniqueKey onePage 1 1700000000999 "base-ecosystem"
              readyService svc' response trace Hrun
              (f_equal (fun o => match o with Some b => b | None => true end) Hok))
    as (tokens & records & Hpages & _ & Htags & _).
  exists tokens, records. split; [|exact Htags].
  rewrite Hpages. f_equal. f_equal.
  apply (f_equal (option_map snd)) in Hpages. vm_compute in Hpages. by inversion Hpages.
Defined.

(** One full page, then a connection that breaks. *)
Lemma fetchMarketData_gives_up_witness :
  let trace := [MarketsRequest "base-meme-coins" (Some 1%nat); Sleep 1100;
                MarketsRequest "base-meme-coins" (Some 2%nat)] in
  fetchMarketData uniqueKey brokenAfterOne 2 1700000000999 "base-meme-coins"
    readyService = Some (readyService, failure "Network Error", trace)
  /\ countWhere isRequest trace = 2%nat
  /\ countWhere isSleep trace = 1%nat.
Proof.
  apply (fetchMarketData_gives_up uniqueKey brokenAfterOne "base-meme-coins"
           (fun _ => fullPage) 1 2 1700000000999 readyService "key").
  - reflexivity.
  - intros p Hp. assert (p = 1%nat) as -> by lia. split; reflexivity.
  - intros tokens. discriminate.
  - lia.
Defined.

End IngestFacts.

(** ** plugin-base-market: the analytics *)

Lemma List_filter_none {A} (f : A -> bool) (l : list A) :
  (forall x, x ∈ l -> f x = false) -> List.filter f l = [].
Proof.
  induction l as [|x l IH]; intros Hall; simpl; [done|].
  rewrite (Hall x) by (apply elem_of_cons; by left).
  apply IH. intros y Hy. apply Hall, elem_of_cons. by right.
Qed.

(** Of the rows that pass a filter, a row that sorts strictly before a
    row of the first [k] is itself among the first [k]. *)
Lemma top_k_complete {A} (key : A -> option Q) (f : A -> bool) (k : nat)
  (l : list A) (a b : A) :
  a ∈ take k (orderByDesc key (List.filter f l)) ->
  b ∈ l -> f b = true ->
  keyGt (key b) (key a) = true ->
  b ∈ take k (orderByDesc key (List.filter f l)).
Proof.
  intros (i & Hi & Hlt)%elem_of_take Hb Hfb Hgt.
  assert (b ∈ orderByDesc key (List.filter f l)) as (j & Hj)%list_elem_of_lookup_1.
  { apply elem_of_orderByDesc, elem_of_List_filter. by split. }
  pose proof (orderByDesc_lookup_lt key _ _ _ _ _ Hj Hi Hgt) as Hji.
  apply elem_of_take. exists j. split; [done|lia].
Qed.

Module InsightFacts.
Import BaseMarket.

Local Ltac q_lia := unfold Qlt, Qle in *; simpl in *; lia.

Lemma sqlGt_Some x c : sqlGt x c = true -> exists v, x = Some v /\ (c < v)%Q.
Proof. destruct x as [v|]; simpl; [|done]. rewrite Qltb_lt. by exists v. Qed.

Lemma sqlLt_Some x c : sqlLt x c = true -> exists v, x = Some v /\ (v < c)%Q.
Proof. destruct x as [v|]; simpl; [|done]. rewrite Qltb_lt. by exists v. Qed.

(** The three classes of the overview exclude one another. *)
Lemma performance_classes_disjoint (change : option Q) :
  (Nat.b2n (strong_performer change) + Nat.b2n (moderate_performer change)
   + Nat.b2n (strong_decliner change) <= 1)%nat.
Proof.
  destruct change as [x|]; [|simpl; lia].
  unfold strong_performer, moderate_performer, strong_decliner. simpl.
  destruct (Qltb 10 x) eqn:H1, (Qltb 5 x) eqn:H2, (Qle_bool x 10) eqn:H3,
    (Qltb x (-10)) eqn:H4; simpl; try lia; exfalso;
    rewrite ?Qltb_lt, ?Qltb_ge, ?Qle_bool_iff in *;
    destruct x as [n d]; q_lia.
Qed.

Lemma sqlCount_cons cond row rows :
  sqlCount cond (row :: rows) = (Nat.b2n (cond row) + sqlCount cond rows)%nat.
Proof. unfold sqlCount. simpl. by destruct (cond row). Qed.

Lemma performance_counts column rows :
  (strong_performers (performance column rows)
   + moderate_performers (performance column rows)
   + strong_decliners (performance column rows) <= length rows)%nat.
Proof.
  simpl. induction rows as [|row rows IH]; [by vm_compute|].
  rewrite !sqlCount_cons. simpl.
  pose proof (performance_classes_disjoint (realCol column row)). lia.
Qed.

Lemma base_native_tokens_no_info t :
  base_token_info t = ∅ -> base_native_tokens t = [].
Proof.
  intros Hempty. unfold base_native_tokens. apply List_filter_none.
  intros bmd _. destruct (textCol "id" bmd); [|done]. by rewrite Hempty, lookup_empty.
Qed.

(** X20.  [getMarketOverview] aggregates at most 100 assets, the first
    100 by market cap of the latest snapshot's assets that have a detail
    row on the [base] platform; in each timeframe the strong performers,
    the moderate performers and the strong decliners are disjoint, so
    together no more than the total; and while no detail row has been
    stored, the overview counts no token and all its sums and averages
    are 0. *)
Theorem getMarketOverview_bounds db :
  let overview := getMarketOverview db in
  total_tokens overview =
    Nat.min 100 (length (base_native_tokens (Sqlite.tables db)))
  /\ (total_tokens overview <= 100)%nat
  /\ Forall (fun p =>
       (strong_performers p + moderate_performers p + strong_decliners p
        <= total_tokens overview)%nat)
       [performance_24h overview; performance_7d overview; performance_30d overview]
  /\ (base_token_info (Sqlite.tables db) = ∅ ->
      overview =
        let none := {| strong_performers := 0; moderate_performers := 0;
                       strong_decliners := 0; avg_change := 0 |} in
        {| total_tokens := 0; total_market_cap := 0; total_volume := 0;
           performance_24h := none; performance_7d := none;
           performance_30d := none |}).
Proof.
  intros overview.
  assert (total_tokens overview =
            Nat.min 100 (length (base_native_tokens (Sqlite.tables db)))) as Htotal.
  { unfold overview, getMarketOverview, top_100_tokens. cbn [total_tokens].
    by rewrite length_take, (Permutation_length (orderByDesc_Permutation _ _)). }
  split; [done|]. split; [lia|]. split.
  - repeat constructor; apply performance_counts.
  - intros Hempty. unfold overview, getMarketOverview, top_100_tokens.
    by rewrite base_native_tokens_no_info.
Qed.

Section Analytics.
Variable LOG10 : Q -> Q.

Lemma base_native_metrics_no_info t :
  base_token_info t = ∅ -> base_native_metrics LOG10 t = [].
Proof.
  intros Hempty. unfold base_native_metrics.
  induction (base_market_data t) as [|bmd rows IH]; [done|].
  assert (metricOf LOG10 t bmd = None) as Hnone.
  { unfold metricOf. destruct (textCol "id" bmd); [|done].
    by rewrite Hempty, lookup_empty. }
  change (omap (metricOf LOG10 t) (bmd :: rows))
    with (match metricOf LOG10 t bmd with
          | Some m => m :: omap (metricOf LOG10 t) rows
          | None => omap (metricOf LOG10 t) rows
          end).
  by rewrite Hnone.
Qed.

Lemma elem_of_bucket tf ty metrics m :
  m ∈ bucket tf ty metrics -> m ∈ partition tf ty metrics.
Proof.
  unfold bucket, ranked. intros (i & Hi & _)%elem_of_take.
  eapply elem_of_orderByDesc, list_elem_of_lookup_2, Hi.
Qed.

(** X21.  [getNotableMovers] returns at most 8 rows: up to 3 gainers and
    3 losers of the last 24 hours, then up to 1 gainer and 1 loser of the
    last 7 days.  Every row has a change in its timeframe of at least 5 %
    in absolute value, at least +5 % for a gainer and at most -5 % for a
    loser, a market cap of at least 5,000,000 and a volume of at least
    300,000; and while no detail row has been stored there are no
    movers. *)
Theorem getNotableMovers_bounds db :
  let movers := getNotableMovers LOG10 db in
  (length movers <= 8)%nat
  /\ (length (List.filter (fun e => match nm_timeframe e with
                                   | last_24h => true
                                   | last_7d => false
                                   end) movers) <= 6)%nat
  /\ Forall (fun e =>
       exists change cap volume,
         nm_price_change e = Some change
         /\ (nm_movement_type e = gainer -> (MIN_CHANGE <= change)%Q)
         /\ (nm_movement_type e = loser -> (change <= - MIN_CHANGE)%Q)
         /\ nm_market_cap e = Some cap /\ (MIN_MARKET_CAP <= cap)%Q
         /\ nm_total_volume e = Some volume /\ (MIN_VOLUME <= volume)%Q) movers
  /\ (base_token_info (Sqlite.tables db) = ∅ -> movers = []).
Proof.
  intros movers. unfold movers, getNotableMovers.
  set (metrics := base_native_metrics LOG10 (Sqlite.tables db)).
  cbn [flat_map]. rewrite !app_nil_r.
  assert (forall tf ty, (length (bucket tf ty metrics) <= bucketSize tf)%nat) as Hlen.
  { intros tf ty. unfold bucket. rewrite length_take. lia. }
  split; [|split; [|split]].
  - rewrite !length_app, !length_map.
    pose proof (Hlen last_24h gainer). pose proof (Hlen last_24h loser).
    pose proof (Hlen last_7d gainer). pose proof (Hlen last_7d loser).
    simpl in *. lia.
  - rewrite !List.filter_app, !length_app.
    rewrite (List_filter_all _ (map (toMover last_24h) (bucket last_24h gainer metrics)))
      by (by intros e (m & -> & _)%list_elem_of_fmap).
    rewrite (List_filter_all _ (map (toMover last_24h) (bucket last_24h loser metrics)))
      by (by intros e (m & -> & _)%list_elem_of_fmap).
    rewrite (List_filter_none _ (map (toMover last_7d) (bucket last_7d gainer metrics)))
      by (by intros e (m & -> & _)%list_elem_of_fmap).
    rewrite (List_filter_none _ (map (toMover last_7d) (bucket last_7d loser metrics)))
      by (by intros e (m & -> & _)%list_elem_of_fmap).
    rewrite !length_map.
    pose proof (Hlen last_24h gainer). pose proof (Hlen last_24h loser).
    simpl in *. lia.
  - assert (forall tf ty m, m ∈ bucket tf ty metrics ->
              exists change cap volume,
                changeOf tf m = Some change
                /\ (movementType (changeOf tf m) = gainer -> (MIN_CHANGE <= change)%Q)
                /\ (movementType (changeOf tf m) = loser -> (change <= - MIN_CHANGE)%Q)
                /\ m_market_cap m = Some cap /\ (MIN_MARKET_CAP <= cap)%Q
                /\ m_total_volume m = Some volume /\ (MIN_VOLUME <= volume)%Q) as Hrow.
    { intros tf ty m Hm%elem_of_bucket.
      apply MoversFacts.partition_eligible in Hm as (Hm & (c & Hc & Hge) & _).
      apply MoversFacts.base_native_metrics_eligible in Hm
        as (_ & _ & cap & volume & _ & _ & _ & _ & Hcap & Hcapge & Hvol & Hvolge & _).
      exists c, cap, volume. rewrite Hc. unfold movementType. simpl.
      split; [done|]. split; [|split; [|by repeat split]].
      - destruct (Qltb 0 c) eqn:Hpos; [|done]. intros _.
        apply Qltb_lt in Hpos. rewrite Qabs_pos in Hge; [done|]. by apply Qlt_le_weak.
      - destruct (Qltb 0 c) eqn:Hpos; [done|]. intros _.
        apply Qltb_ge in Hpos. rewrite Qabs_neg in Hge by done.
        apply Qopp_le_compat in Hge. by rewrite Qopp_involutive in Hge. }
    rewrite !Forall_app. repeat split; apply Forall_forall;
      intros e (m & -> & Hm)%list_elem_of_fmap;
      match goal with
      | Hm : m ∈ bucket ?tf ?ty _ |- _ => exact (Hrow tf ty m Hm)
      end.
  - intros Hempty. unfold metrics. by rewrite base_native_metrics_no_info.
Qed.

End Analytics.

(** X22.  The two selections of [getMarketInsights]: [topGainers] holds
    at most 5 rows of the data, each with a 24h change above 0, largest
    change first, and no row of the data left out has a larger change than
    a row selected; [topLosers] likewise holds the up to 5 rows with the
    most negative changes, most negative first.  On a table without
    snapshots the method reports that there is no data. *)
Theorem topGainers_topLosers (rows : list Row) :
  let change := realCol "price_change_percentage_24h" in
  ((length (topGainers rows) <= 5)%nat
   /\ Forall (fun token =>
        token ∈ rows /\ exists c, change token = Some c /\ (0 < c)%Q)
        (topGainers rows)
   /\ StronglySorted (noLater change) (topGainers rows)
   /\ (forall a b ca cb,
         a ∈ topGainers rows -> b ∈ rows ->
         change a = Some ca -> change b = Some cb -> (ca < cb)%Q ->
         b ∈ topGainers rows))
  /\ ((length (topLosers rows) <= 5)%nat
      /\ Forall (fun token =>
           token ∈ rows /\ exists c, change token = Some c /\ (c < 0)%Q)
           (topLosers rows)
      /\ StronglySorted (noLater (fun token => Qopp <$> change token))
           (topLosers rows)
      /\ (forall a b ca cb,
            a ∈ topLosers rows -> b ∈ rows ->
            change a = Some ca -> change b = Some cb -> (cb < ca)%Q ->
            b ∈ topLosers rows))
  /\ (forall db,
        base_market_data (Sqlite.tables db) = [] ->
        getMarketInsights db = Ok NoMarketData).
Proof.
  intros change. split; [|split].
  - unfold topGainers. fold change. split; [rewrite length_take; lia|].
    split; [|split].
    + apply Forall_forall. intros token (i & Hi & _)%elem_of_take.
      apply list_elem_of_lookup_2, elem_of_orderByDesc, elem_of_List_filter in Hi
        as [Hin (c & Hc & Hpos)%sqlGt_Some].
      split; [done|]. by exists c.
    + apply StronglySorted_take, orderByDesc_sorted.
    + intros a b ca cb Ha Hb Hca Hcb Hlt.
      assert (exists c, change a = Some c /\ (0 < c)%Q) as (c & Hc & Hpos).
      { apply elem_of_take in Ha as (i & Hi & _).
        by apply list_elem_of_lookup_2, elem_of_orderByDesc, elem_of_List_filter in Hi
          as [_ ?%sqlGt_Some]. }
      rewrite Hca in Hc. inversion Hc; subst c.
      apply (top_k_complete change _ 5 rows a b); try done.
      * rewrite Hcb. simpl. apply Qltb_lt. by eapply Qlt_trans.
      * rewrite Hca, Hcb. simpl. by apply Qltb_lt.
  - unfold topLosers. fold change. split; [rewrite length_take; lia|].
    split; [|split].
    + apply Forall_forall. intros token (i & Hi & _)%elem_of_take.
      apply list_elem_of_lookup_2, elem_of_orderByDesc, elem_of_List_filter in Hi
        as [Hin (c & Hc & Hneg)%sqlLt_Some].
      split; [done|]. by exists c.
    + apply StronglySorted_take, orderByDesc_sorted.
    + intros a b ca cb Ha Hb Hca Hcb Hlt.
      assert (exists c, change a = Some c /\ (c < 0)%Q) as (c & Hc & Hneg).
      { apply elem_of_take in Ha as (i & Hi & _).
        by apply list_elem_of_lookup_2, elem_of_orderByDesc, elem_of_List_filter in Hi
          as [_ ?%sqlLt_Some]. }
      rewrite Hca in Hc. inversion Hc; subst c.
      apply (top_k_complete (fun token => Qopp <$> change token) _ 5 rows a b);
        try done.
      * rewrite Hcb. simpl. apply Qltb_lt. by eapply Qlt_trans.
      * rewrite Hca, Hcb. simpl. apply Qltb_lt. by apply Qopp_lt_compat.
  - intros db Hempty. unfold getMarketInsights, latestData. by rewrite Hempty.
Qed.

(** *** The latest snapshot is the last fetch *)

Lemma maxTimestamp_newer older newer ts :
  Forall (fun row => forall x, realCol "timestamp" row = Some x -> (x < ts)%Q) older ->
  Forall (fun row => realCol "timestamp" row = Some ts) newer ->
  newer <> [] ->
  maxTimestamp (older ++ newer) = Some ts.
Proof.
  intros Holder Hnewer Hne.
  assert (maxTimestamp newer = Some ts) as Hmax.
  { clear Holder. induction newer as [|row rest IH]; [done|].
    apply Forall_cons in Hnewer as [Hrow Hrest]. unfold maxTimestamp in *. simpl.
    rewrite Hrow. destruct rest as [|row' rest']; [done|].
    rewrite IH by done. by destruct (Qle_bool ts ts). }
  induction older as [|row older IH]; [done|].
  apply Forall_cons in Holder as [Hrow Holder]. unfold maxTimestamp in *. simpl.
  rewrite (IH Holder). destruct (realCol "timestamp" row) as [x|]; [|done].
  assert (Qle_bool x ts = true) as ->; [|done].
  apply Qle_bool_iff, Qlt_le_weak. by apply Hrow.
Qed.

Lemma latest_newer older newer ts :
  Forall (fun row => forall x, realCol "timestamp" row = Some x -> (x < ts)%Q) older ->
  Forall (fun row => realCol "timestamp" row = Some ts) newer ->
  newer <> [] ->
  latest (older ++ newer) = newer.
Proof.
  intros Holder Hnewer Hne. unfold latest.
  rewrite (maxTimestamp_newer older newer ts) by done.
  rewrite List.filter_app, List_filter_none, List_filter_all; [done| |].
  - intros row Hrow. rewrite Forall_forall in Hnewer. rewrite (Hnewer row Hrow).
    simpl. apply Qeq_bool_refl.
  - intros row Hrow. rewrite Forall_forall in Holder.
    destruct (realCol "timestamp" row) as [x|] eqn:Hx; [|done]. simpl.
    destruct (Qeq_bool x ts) eqn:Heq; [|done].
    apply Qeq_bool_iff in Heq. by destruct (Qlt_not_eq x ts (Holder row Hrow x Hx)).
Qed.

(** X23.  The latest snapshot is the last fetch that stored a row.  When
    every snapshot in the table is older than the time of a fetch, and the
    store of the fetched records adds a row, then every row of the latest
    snapshot is the binding of a record of this fetch and carries its
    category and its time; so [getAllTokenIds], by which the detail fetch
    chooses its assets, returns ids of this fetch only.  (The two
    categories are fetched one after the other, each with the time at
    which its own pagination ended.) *)
Theorem getAllTokenIds_last_fetch conflicts category ts tokens db db' :
  Forall (fun row =>
            forall x, realCol "timestamp" row = Some x -> (x < inject_Z ts)%Q)
    (base_market_data (Sqlite.tables db)) ->
  storeMarketData conflicts (map (tag category ts) tokens) db = (db', Ok tt) ->
  base_market_data (Sqlite.tables db') <> base_market_data (Sqlite.tables db) ->
  let fetched (row : Row) :=
    row !! "category" = Some (SqlText category)
    /\ row !! "timestamp" = Some (SqlReal (inject_Z ts))
    /\ exists token,
         token ∈ tokens
         /\ bindColumns columns (tag category ts token) = Ok row in
  Forall fetched (latest (base_market_data (Sqlite.tables db')))
  /\ forall i, i ∈ getAllTokenIds db' ->
       exists row, fetched row /\ textCol "id" row = i.
Proof.
  intros Holder Hrun Hadded fetched.
  apply SqliteFacts.transaction_ok in Hrun as [Hrun _].
  destruct (IngestFacts.insertTokens_appends conflicts _ _ _ Hrun)
    as (_ & rows & Hrows & _ & Hall).
  assert (Forall fetched rows) as Hfetched.
  { eapply Forall_impl; [exact Hall|]. intros row (tagged & Hin & Hbind).
    apply list_elem_of_fmap in Hin as (token & -> & Hin).
    destruct (IngestFacts.tag_lookup category ts token) as (Hc & Ht & _).
    destruct (IngestFacts.bindColumns_lookup columns _ row "category" Hbind)
      as (vc & Hvc & Hrc);
      [by repeat (apply elem_of_cons; (by left) || right)|].
    destruct (IngestFacts.bindColumns_lookup columns _ row "timestamp" Hbind)
      as (vt & Hvt & Hrt);
      [by repeat (apply elem_of_cons; (by left) || right)|].
    rewrite Hc in Hvc. rewrite Ht in Hvt. simpl in *.
    inversion Hvc; inversion Hvt; subst.
    split; [done|]. split; [done|]. by exists token. }
  assert (latest (base_market_data (Sqlite.tables db')) = rows) as Hlatest.
  { rewrite Hrows. apply (latest_newer _ _ (inject_Z ts)); [done| |].
    - eapply Forall_impl; [exact Hfetched|]. intros row (_ & Ht & _).
      unfold realCol. by rewrite Ht.
    - intros ->. apply Hadded. by rewrite Hrows, app_nil_r. }
  split; [by rewrite Hlatest|].
  intros i Hi. unfold getAllTokenIds in Hi. rewrite Hlatest in Hi.
  apply elem_of_remove_dups, list_elem_of_fmap in Hi as (row & -> & Hrow).
  exists row. split; [|done]. rewrite Forall_forall in Hfetched. by apply Hfetched.
Qed.

(** A fetch of the meme coins, then, a second later, one of the
    ecosystem: the ids are those of the second fetch. *)
Lemma getAllTokenIds_last_fetch_witness :
  let first := [tag "base-meme-coins" 1700000000 (apiToken "aaa" 1 1 1 0 0)] in
  let db := (storeMarketData uniqueKey first emptyDb).1 in
  let db' := (storeMarketData uniqueKey
                (map (tag "base-ecosystem" 1700000001) shortPage) db).1 in
  getAllTokenIds db = [Some "aaa"]
  /\ getAllTokenIds db' = [Some "bbb"]
  /\ forall i, i ∈ getAllTokenIds db' ->
       exists row,
         (row !! "category" = Some (SqlText "base-ecosystem")
          /\ row !! "timestamp" = Some (SqlReal (inject_Z 1700000001))
          /\ exists token,
               token ∈ shortPage
               /\ bindColumns columns (tag "base-ecosystem" 1700000001 token) = Ok row)
         /\ textCol "id" row = i.
Proof.
  intros first db db'.
  split; [vm_compute; reflexivity|]. split; [vm_compute; reflexivity|].
  refine (proj2 (getAllTokenIds_last_fetch uniqueKey "base-ecosystem" 1700000001
                   shortPage db db' _ _ _)).
  - repeat constructor. intros x Hx.
    apply (f_equal (fun o => match o with Some q => q | None => 0%Q end)) in Hx.
    vm_compute in Hx. subst x. reflexivity.
  - assert ((storeMarketData uniqueKey
               (map (tag "base-ecosystem" 1700000001) shortPage) db).2 = Ok tt) as Hok
      by (vm_compute; reflexivity).
    unfold db'.
    destruct (storeMarketData uniqueKey _ db) as [d r]. cbn [fst snd] in *. by subst r.
  - intros Heq. apply (f_equal length) in Heq. vm_compute in Heq. discriminate.
Defined.

End InsightFacts.

(** ** plugin-base-market: the books of an enrichment pass *)

Module PassFacts.
Import TokenInfo.

Lemma waited_app t1 t2 : waited (t1 ++ t2) = (waited t1 + waited t2)%Z.
Proof.
  induction t1 as [|e t1 IH]; simpl; [done|].
  fold (waited (t1 ++ t2)). fold (waited t1). rewrite IH. destruct e; lia.
Qed.

Lemma waited_replicate n ms : waited (replicate n (Sleep ms)) = (Z.of_nat n * ms)%Z.
Proof.
  induction n as [|n IH]; [done|]. simpl replicate.
  change (waited (Sleep ms :: replicate n (Sleep ms)))
    with (ms + waited (replicate n (Sleep ms)))%Z.
  rewrite IH. lia.
Qed.

Section Pass.
Variable upstream : Upstream.

(** What every iteration preserves, the loop preserves. *)
Lemma drain_invariant (P : Run -> Prop) :
  (forall tokenId rest st,
     requestQueue st = tokenId :: rest -> P st ->
     P (drainStep upstream tokenId rest st)) ->
  forall fuel st st', P st -> drain upstream fuel st = Some st' -> P st'.
Proof.
  intros Hstep. induction fuel as [|fuel IH]; intros st st' HP Hrun; [done|].
  simpl in Hrun. destruct (requestQueue st) as [|tokenId rest] eqn:Hq.
  - by inversion Hrun; subst.
  - eapply IH; [|exact Hrun]. by apply Hstep.
Qed.

Lemma drainStep_accounted k tokenId rest st :
  accounted k st -> accounted k (drainStep upstream tokenId rest st).
Proof.
  intros (Hkey & Hsum & Hlen & Hreq & Hun & Hwait). unfold accounted, drainStep.
  destruct (String.eqb tokenId "").
  { simpl. rewrite !FetchFacts.countWhere_app, waited_app. unfold countWhere. simpl.
    fold (countWhere isRequest (trace st)). fold (countWhere isUnshift (trace st)).
    repeat split; try done; lia. }
  unfold fetchTokenInfo, rateLimit, log, withQueue. simpl. rewrite Hkey.
  change DELAY_BETWEEN_REQUESTS with 2000%Z.
  destruct (upstream (requests st) tokenId) as [[]| |[status|]]; simpl;
    try destruct (status =? 429)%Z; simpl;
    rewrite ?length_app, ?FetchFacts.countWhere_app, ?waited_app;
    unfold countWhere; simpl;
    fold (countWhere isRequest (trace st)); fold (countWhere isUnshift (trace st));
    unfold backoffTime; repeat split; try done; lia.
Qed.

Lemma processBulkTokenInfo_accounted fuel tokenIds queue k run :
  processBulkTokenInfo upstream fuel tokenIds queue (Some k) = Some run ->
  accounted k run.
Proof.
  unfold processBulkTokenInfo. destruct tokenIds as [|tokenId rest].
  - intros Heq. inversion Heq; subst run. by repeat split.
  - apply (drain_invariant (accounted k)).
    + intros. by apply drainStep_accounted.
    + by repeat split.
Qed.

(** X24.  In a pass of [processBulkTokenInfo] under an API key every
    request is counted exactly once, as a success or as a failure; the
    list of failed ids has one entry for each failure; and each 429, which
    puts its id back at the front of the queue, is among the failures. *)
Theorem processBulkTokenInfo_accounting fuel tokenIds queue k run :
  processBulkTokenInfo upstream fuel tokenIds queue (Some k) = Some run ->
  (successCount run + failureCount run = requests run)%nat
  /\ length (failedTokenIds run) = failureCount run
  /\ countWhere isRequest (trace run) = requests run
  /\ (countWhere isUnshift (trace run) <= failureCount run)%nat.
Proof.
  intros (_ & Hsum & Hlen & Hreq & Hun & _)%processBulkTokenInfo_accounted.
  by repeat split.
Qed.

(** X25.  The time a pass under an API key spends waiting is 2 s for
    each request it issues, the pace of 30 requests a minute, and 60 s
    more for each 429. *)
Theorem processBulkTokenInfo_duration fuel tokenIds queue k run :
  processBulkTokenInfo upstream fuel tokenIds queue (Some k) = Some run ->
  waited (trace run) =
    (2000 * Z.of_nat (requests run)
     + 60000 * Z.of_nat (countWhere isUnshift (trace run)))%Z.
Proof. by intros (_ & _ & _ & _ & _ & Hwait)%processBulkTokenInfo_accounted. Qed.

(** An iteration whose fetch is answered, but not with 429. *)
Lemma drainStep_answered tokenId rest st k :
  truthy tokenId = true ->
  apiKey st = Some k ->
  rateLimited (upstream (requests st) tokenId) = false ->
  requestQueue (drainStep upstream tokenId rest st) = rest
  /\ apiKey (drainStep upstream tokenId rest st) = Some k
  /\ requests (drainStep upstream tokenId rest st) = S (requests st)
  /\ trace (drainStep upstream tokenId rest st) = trace st ++ iteration tokenId.
Proof.
  intros Hid Hkey Hfree. unfold iteration. rewrite Hid.
  unfold truthy in Hid. apply negb_true_iff in Hid.
  unfold drainStep. rewrite Hid.
  unfold fetchTokenInfo, rateLimit, log, withQueue. simpl. rewrite Hkey.
  destruct (upstream (requests st) tokenId) as [[]| |status]; simpl;
    try (simpl in Hfree; rewrite Hfree; simpl); rewrite <- ?app_assoc;
    by repeat split.
Qed.

Lemma drain_in_order k :
  (forall n tokenId, rateLimited (upstream n tokenId) = false) ->
  forall queue st,
    requestQueue st = queue -> apiKey st = Some k ->
    exists st',
      drain upstream (S (length queue)) st = Some st'
      /\ requestQueue st' = []
      /\ trace st' = trace st ++ flat_map iteration queue
      /\ requests st' = (requests st + length (List.filter truthy queue))%nat.
Proof.
  intros Hfree. induction queue as [|tokenId rest IH]; intros st Hq Hkey.
  - exists st. simpl. rewrite Hq, app_nil_r. repeat split; try done; lia.
  - rewrite (TokenInfoFacts.drain_unfold _ _ _ _ _ Hq).
    destruct (truthy tokenId) eqn:Hid.
    + destruct (drainStep_answered tokenId rest st k Hid Hkey (Hfree _ _))
        as (Hq' & Hkey' & Hreq' & Htrace').
      destruct (IH _ Hq' Hkey') as (st' & Hrun & Hempty & Htrace & Hreq).
      exists st'. split; [done|]. split; [done|]. split.
      * rewrite Htrace, Htrace'. simpl. by rewrite <- app_assoc.
      * rewrite Hreq, Hreq'. simpl. rewrite Hid. simpl. lia.
    + assert (tokenId = "") as ->.
      { unfold truthy in Hid. by apply negb_false_iff, String.eqb_eq in Hid. }
      rewrite TokenInfoFacts.drainStep_falsy.
      destruct (IH (withQueue rest [Shift ""] st) eq_refl Hkey)
        as (st' & Hrun & Hempty & Htrace & Hreq).
      exists st'. split; [done|]. split; [done|]. split.
      * rewrite Htrace. simpl. by rewrite <- app_assoc.
      * rewrite Hreq. simpl. lia.
Qed.

Lemma filter_isRequest_iteration tokenIds :
  List.filter isRequest (flat_map iteration tokenIds) =
    map CoinRequest (List.filter truthy tokenIds).
Proof.
  induction tokenIds as [|tokenId rest IH]; [done|]. simpl.
  rewrite List.filter_app, IH. unfold iteration.
  by destruct (truthy tokenId).
Qed.

(** X26.  When no request is answered 429, a pass under an API key over a
    list of [n] ids takes [n] iterations: it fetches the ids that are not
    empty, each once and in the order of the list, waits 2 s before each
    request and at no other time, and leaves the queue empty. *)
Theorem processBulkTokenInfo_in_order tokenIds k :
  (forall n tokenId, rateLimited (upstream n tokenId) = false) ->
  exists run,
    processBulkTokenInfo upstream (S (length tokenIds)) tokenIds [] (Some k) = Some run
    /\ requestQueue run = []
    /\ trace run = flat_map iteration tokenIds
    /\ List.filter isRequest (trace run) =
         map CoinRequest (List.filter truthy tokenIds)
    /\ requests run = length (List.filter truthy tokenIds)
    /\ (successCount run + failureCount run)%nat =
         length (List.filter truthy tokenIds)
    /\ waited (trace run) =
         (2000 * Z.of_nat (length (List.filter truthy tokenIds)))%Z.
Proof.
  intros Hfree.
  assert (exists run,
            processBulkTokenInfo upstream (S (length tokenIds)) tokenIds []
              (Some k) = Some run
            /\ requestQueue run = []
            /\ trace run = flat_map iteration tokenIds
            /\ requests run = length (List.filter truthy tokenIds))
    as (run & Hrun & Hempty & Htrace & Hreq).
  { unfold processBulkTokenInfo. destruct tokenIds as [|tokenId rest] eqn:Hids.
    - by exists (idle [] (Some k)).
    - rewrite <- Hids.
      destruct (drain_in_order k Hfree tokenIds (idle tokenIds (Some k)) eq_refl eq_refl)
        as (st' & Hrun & Hempty & Htrace & Hreq).
      by exists st'. }
  destruct (processBulkTokenInfo_accounted _ _ _ _ _ Hrun)
    as (_ & Hsum & _ & _ & _ & Hwait).
  assert (countWhere isUnshift (trace run) = 0%nat) as Hun.
  { rewrite Htrace. unfold countWhere. clear.
    induction tokenIds as [|tokenId rest IH]; [done|]. simpl.
    rewrite List.filter_app, length_app, IH. unfold iteration.
    by destruct (truthy tokenId). }
  exists run. split; [done|]. split; [done|]. split; [done|].
  split; [by rewrite Htrace, filter_isRequest_iteration|].
  split; [done|]. split; [lia|]. rewrite Hwait, Hun, Hreq. lia.
Qed.

(** A pass without a key: every iteration on an id that is not empty
    waits, fails and lists the id. *)
Lemma drain_without_key : forall queue st,
  requestQueue st = queue -> apiKey st = None ->
  exists st',
    drain upstream (S (length queue)) st = Some st'
    /\ requestQueue st' = []
    /\ requests st' = requests st
    /\ successCount st' = successCount st
    /\ failedTokenIds st' = failedTokenIds st ++ List.filter truthy queue
    /\ failureCount st' = (failureCount st + length (List.filter truthy queue))%nat
    /\ countWhere isRequest (trace st') = countWhere isRequest (trace st)
    /\ waited (trace st') =
         (waited (trace st) + 2000 * Z.of_nat (length (List.filter truthy queue)))%Z.
Proof.
  induction queue as [|tokenId rest IH]; intros st Hq Hkey.
  - exists st. simpl. rewrite Hq, app_nil_r. repeat split; try done; lia.
  - rewrite (TokenInfoFacts.drain_unfold _ _ _ _ _ Hq).
    destruct (IH (drainStep upstream tokenId rest st))
      as (st' & Hrun & Hempty & Hreq & Hsucc & Hfailed & Hfail & Hcount & Hwait).
    + apply TokenInfoFacts.drainStep_settled. rewrite Hkey. by intros [? ?].
    + by rewrite TokenInfoFacts.drainStep_apiKey.
    + exists st'. split; [done|]. split; [done|].
      rewrite Hreq, Hsucc, Hfailed, Hfail, Hcount, Hwait. clear IH Hrun.
      unfold drainStep, truthy. simpl.
      destruct (String.eqb tokenId ""); simpl.
      * rewrite FetchFacts.countWhere_app, waited_app. unfold countWhere. simpl.
        repeat split; try done; lia.
      * unfold fetchTokenInfo, rateLimit, log, withQueue. simpl. rewrite Hkey. simpl.
        rewrite !FetchFacts.countWhere_app, !waited_app, <- app_assoc.
        unfold countWhere. simpl. change DELAY_BETWEEN_REQUESTS with 2000%Z.
        repeat split; try done; lia.
Qed.

(** X27.  A pass on a service that has no API key issues no request: it
    still takes the ids one by one, waits 2 s for each id that is not
    empty, and counts and lists every one of them as failed. *)
Theorem processBulkTokenInfo_without_key tokenIds :
  exists run,
    processBulkTokenInfo upstream (S (length tokenIds)) tokenIds [] None = Some run
    /\ requestQueue run = []
    /\ requests run = 0%nat
    /\ countWhere isRequest (trace run) = 0%nat
    /\ successCount run = 0%nat
    /\ failedTokenIds run = List.filter truthy tokenIds
    /\ failureCount run = length (List.filter truthy tokenIds)
    /\ waited (trace run) =
         (2000 * Z.of_nat (length (List.filter truthy tokenIds)))%Z.
Proof.
  unfold processBulkTokenInfo. destruct tokenIds as [|tokenId rest] eqn:Hids.
  - exists (idle [] None). by repeat split.
  - rewrite <- Hids.
    destruct (drain_without_key tokenIds (idle tokenIds None) eq_refl eq_refl)
      as (st' & Hrun & Hempty & Hreq & Hsucc & Hfailed & Hfail & Hcount & Hwait).
    exists st'. by repeat split.
Qed.

End Pass.

(** Two ids, the first request answered 429. *)
Lemma processBulkTokenInfo_accounting_witness :
  let run := default (idle [] None)
               (processBulkTokenInfo limitedOnce 4 ["aaa"; "bbb"] [] (Some "key")) in
  (requests run = 3%nat /\ successCount run = 2%nat /\ failureCount run = 1%nat)
  /\ (successCount run + failureCount run = requests run)%nat
  /\ length (failedTokenIds run) = failureCount run
  /\ countWhere isRequest (trace run) = requests run
  /\ (countWhere isUnshift (trace run) <= failureCount run)%nat.
Proof.
  intros run. split; [by vm_compute|].
  apply (processBulkTokenInfo_accounting limitedOnce 4 ["aaa"; "bbb"] [] "key" run).
  vm_compute. reflexivity.
Defined.

Lemma processBulkTokenInfo_duration_witness :
  let run := default (idle [] None)
               (processBulkTokenInfo limitedOnce 4 ["aaa"; "bbb"] [] (Some "key")) in
  (requests run = 3%nat /\ countWhere isUnshift (trace run) = 1%nat)
  /\ waited (trace run) =
       (2000 * Z.of_nat (requests run)
        + 60000 * Z.of_nat (countWhere isUnshift (trace run)))%Z.
Proof.
  intros run. split; [by vm_compute|].
  apply (processBulkTokenInfo_duration limitedOnce 4 ["aaa"; "bbb"] [] "key" run).
  vm_compute. reflexivity.
Defined.

(** Three ids, one of them empty and one answered 404. *)
Lemma processBulkTokenInfo_in_order_witness :
  exists run,
    processBulkTokenInfo unlimited 4 ["aaa"; ""; "bbb"] [] (Some "key") = Some run
    /\ requestQueue run = []
    /\ trace run = [Shift "aaa"; Sleep 2000; CoinRequest "aaa"; Shift "";
                    Shift "bbb"; Sleep 2000; CoinRequest "bbb"]
    /\ List.filter isRequest (trace run) = [CoinRequest "aaa"; CoinRequest "bbb"]
    /\ requests run = 2%nat
    /\ (successCount run + failureCount run)%nat = 2%nat
    /\ waited (trace run) = 4000%Z.
Proof.
  apply (processBulkTokenInfo_in_order unlimited ["aaa"; ""; "bbb"] "key").
  intros n tokenId. unfold unlimited. by destruct (String.eqb tokenId "bbb").
Defined.

End PassFacts.

(** ** plugin-base-market: the start of the enrichment service *)

Module StartupFacts.
Import TokenInfo.

Section Startup.
Variable market : nat -> BaseMarket.Database.

Local Abbreviation empty := (fun i => BaseMarket.getAllTokenIds (market i) = []).

(** The loop when every remaining call finds no id. *)
Lemma awaitMarketData_times_out : forall n attempts fuel waits,
  (attempts + n = maxAttempts)%nat ->
  (n < fuel)%nat ->
  (forall i, (attempts <= i < maxAttempts)%nat -> empty i) ->
  awaitMarketData market fuel false attempts waits =
    Some (false, maxAttempts, waits ++ replicate n (Sleep 5000)).
Proof.
  induction n as [|n IH]; intros attempts fuel waits Hsum Hfuel Hempty;
    (destruct fuel as [|fuel]; [lia|]); simpl.
  - assert ((attempts <? maxAttempts)%nat = false) as -> by (apply Nat.ltb_ge; lia).
    rewrite app_nil_r. do 3 f_equal. lia.
  - assert ((attempts <? maxAttempts)%nat = true) as -> by (apply Nat.ltb_lt; lia).
    rewrite (Hempty attempts) by lia. simpl.
    rewrite (IH (S attempts) fuel) by (lia || (intros i Hi; apply Hempty; lia)).
    by rewrite <- app_assoc.
Qed.

(** The loop when the call after [n] empty ones finds an id. *)
Lemma awaitMarketData_finds : forall n attempts fuel waits,
  (attempts + n < maxAttempts)%nat ->
  (S n < fuel)%nat ->
  (forall i, (attempts <= i < attempts + n)%nat -> empty i) ->
  ~ empty (attempts + n)%nat ->
  awaitMarketData market fuel false attempts waits =
    Some (true, (attempts + n)%nat, waits ++ replicate n (Sleep 5000)).
Proof.
  induction n as [|n IH]; intros attempts fuel waits Hsum Hfuel Hempty Hfound;
    (destruct fuel as [|fuel]; [lia|]); simpl.
  - assert ((attempts <? maxAttempts)%nat = true) as -> by (apply Nat.ltb_lt; lia).
    rewrite Nat.add_0_r in *.
    destruct (BaseMarket.getAllTokenIds (market attempts)) as [|i ids]; [done|]. simpl.
    destruct fuel as [|fuel]; [lia|]. simpl. by rewrite app_nil_r.
  - assert ((attempts <? maxAttempts)%nat = true) as -> by (apply Nat.ltb_lt; lia).
    rewrite (Hempty attempts) by lia. simpl.
    rewrite (IH (S attempts) fuel).
    + rewrite <- app_assoc. do 3 f_equal. lia.
    + lia.
    + lia.
    + intros i Hi. apply Hempty. lia.
    + by replace (S attempts + n)%nat with (attempts + S n)%nat by lia.
Qed.

(** Among the first [bound] calls there is a first one that finds an id,
    or there is none. *)
Lemma first_found bound :
  exists n, (n <= bound)%nat
            /\ (forall i, (i < n)%nat -> empty i)
            /\ ((n < bound)%nat -> ~ empty n).
Proof.
  induction bound as [|bound (n & Hn & Hempty & Hfound)].
  - exists 0%nat. split; [lia|]. split; intros; lia.
  - destruct (decide (n < bound)%nat) as [Hlt|Hge].
    + exists n. split; [lia|]. split; [done|]. intros _. by apply Hfound.
    + assert (n = bound) as -> by lia.
      destruct (BaseMarket.getAllTokenIds (market bound)) as [|i ids] eqn:Hids.
      * exists (S bound). split; [lia|]. split; [|lia].
        intros i Hi. destruct (decide (i = bound)) as [->|]; [done|].
        apply Hempty. lia.
      * exists bound. split; [lia|]. split; [done|]. intros _. by rewrite Hids.
Qed.

(** X28.  With an API key and a market-data service, [initialize] waits
    for the first snapshot by asking for the ids of the latest snapshot up
    to [maxAttempts] = 24 times, 5 s after each call that finds none, so
    for at most 120 s.  It goes on after the first call that finds an id,
    with a pass over the ids that have no detail row yet; after 24 calls
    that find none it throws a timeout error. *)
Theorem initialize_waits key db upstream fuel queue :
  key <> "" ->
  (maxAttempts + 1 < fuel)%nat ->
  exists n,
    (n <= 24)%nat
    /\ (forall i, (i < n)%nat -> BaseMarket.getAllTokenIds (market i) = [])
    /\ ((n < 24)%nat -> BaseMarket.getAllTokenIds (market n) <> [])
    /\ waited (replicate n (Sleep 5000)) = (5000 * Z.of_nat n)%Z
    /\ initialize (Some key) (Some market) db upstream fuel queue =
         if (n <? 24)%nat
         then option_map (fun run => (Ok run, replicate n (Sleep 5000)))
                (processBulkTokenInfo upstream fuel
                   (map (default "")
                      (getTokensNeedingInfo (Some (market (S n))) db))
                   queue (Some key))
         else Some (Throw
                      "Timeout waiting for MarketDataService to complete initial fetch",
                    replicate 24 (Sleep 5000)).
Proof.
  intros Hkey Hfuel. destruct (first_found maxAttempts) as (n & Hn & Hempty & Hfound).
  exists n. split; [done|]. split; [done|]. split; [done|].
  split; [rewrite PassFacts.waited_replicate; lia|].
  unfold initialize. apply String.eqb_neq in Hkey. rewrite Hkey.
  destruct (n <? 24)%nat eqn:Hlt.
  - apply Nat.ltb_lt in Hlt.
    assert (awaitMarketData market fuel false 0 [] =
              Some (true, n, replicate n (Sleep 5000))) as ->.
    { apply (awaitMarketData_finds n 0 fuel []).
      - unfold maxAttempts. lia.
      - unfold maxAttempts in *. lia.
      - intros i Hi. apply Hempty. lia.
      - apply Hfound. unfold maxAttempts. lia. }
    by destruct (processBulkTokenInfo upstream fuel _ queue (Some key)).
  - apply Nat.ltb_ge in Hlt.
    assert (n = maxAttempts) as -> by (unfold maxAttempts in *; lia).
    assert (awaitMarketData market fuel false 0 [] =
              Some (false, maxAttempts, replicate maxAttempts (Sleep 5000))) as ->.
    { apply (awaitMarketData_times_out maxAttempts 0 fuel []).
      - done.
      - lia.
      - intros i Hi. apply Hempty. lia. }
    done.
Qed.

End Startup.

(** A market-data service that never has a snapshot: 24 waits, then the
    timeout. *)
Lemma initialize_waits_witness :
  exists n,
    (n <= 24)%nat
    /\ (forall i, (i < n)%nat ->
          BaseMarket.getAllTokenIds ((fun _ => BaseMarket.emptyDb) i) = [])
    /\ ((n < 24)%nat ->
        BaseMarket.getAllTokenIds ((fun _ => BaseMarket.emptyDb) n) <> [])
    /\ waited (replicate n (Sleep 5000)) = (5000 * Z.of_nat n)%Z
    /\ initialize (Some "key") (Some (fun _ => BaseMarket.emptyDb)) BaseMarket.emptyDb
         limitedOnce 26 [] =
         if (n <? 24)%nat
         then option_map (fun run => (Ok run, replicate n (Sleep 5000)))
                (processBulkTokenInfo limitedOnce 26
                   (map (default "")
                      (getTokensNeedingInfo (Some BaseMarket.emptyDb) BaseMarket.emptyDb))
                   [] (Some "key"))
         else Some (Throw
                      "Timeout waiting for MarketDataService to complete initial fetch",
                    replicate 24 (Sleep 5000)).
Proof.
  apply (initialize_waits (fun _ => BaseMarket.emptyDb) "key" BaseMarket.emptyDb
           limitedOnce 26 []).
  - done.
  - unfold maxAttempts. lia.
Defined.

End StartupFacts.

(** ** plugin-coingecko: the cache and the request queue of CoingeckoService *)

Module CacheFacts.
Import CoingeckoService.

Section Service.
Context {Data : Type}.
Implicit Types (s : Service Data) (fetcher : Fetcher Data).

(** A call that finds a fresh entry returns it and does nothing else. *)
Lemma getCached_hit key fetcher s entry :
  cache s !! key = Some entry ->
  (clock s - entry_timestamp entry < cacheDuration)%Z ->
  getCached key fetcher s = (s, Ok (entry_data entry)).
Proof.
  intros Hentry Hfresh. unfold getCached. rewrite Hentry.
  apply Z.ltb_lt in Hfresh. by rewrite Hfresh.
Qed.

(** X29.  A call of [getCached] that returns a payload leaves an entry
    for the key that holds this payload and is less than [cacheDuration]
    = 5 minutes old; as long as that entry is in the cache and less than
    5 minutes old, every call for the key returns the same payload without
    a request, and leaves the service as it is.  A call that found no
    entry has sent one request, has waited [minRequestInterval] = 1 s
    after it, and has stamped the entry with the time at which the call
    began. *)
Theorem getCached_fresh key fetcher s s1 data :
  getCached key fetcher s = (s1, Ok data) ->
  exists entry,
    cache s1 !! key = Some entry
    /\ entry_data entry = data
    /\ (clock s - entry_timestamp entry < cacheDuration)%Z
    /\ (forall fetcher' s2,
          cache s2 !! key = Some entry ->
          (clock s2 - entry_timestamp entry < 300000)%Z ->
          getCached key fetcher' s2 = (s2, Ok data))
    /\ (cache s !! key = None ->
        entry_timestamp entry = clock s
        /\ clock s1 = (clock s + 1000)%Z
        /\ calls s1 = calls s ++ [Request (path fetcher); Wait 1000]).
Proof.
  unfold getCached.
  assert (forall s1 data,
            match executeWithRateLimit fetcher s with
            | (s1, Ok data) =>
                ({| cache := <[key := {| entry_data := data;
                                         entry_timestamp := clock s |}]> (cache s1);
                    requestQueue := requestQueue s1;
                    clock := clock s1;
                    calls := calls s1 |}, Ok data)
            | (s1, Throw e) => (s1, Throw e)
            end = (s1, Ok data) ->
            cache s1 !! key = Some {| entry_data := data; entry_timestamp := clock s |}
            /\ clock s1 = (clock s + 1000)%Z
            /\ calls s1 = calls s ++ [Request (path fetcher); Wait 1000]) as Hfetch.
  { intros s' d. unfold executeWithRateLimit.
    destruct (requestQueue s); [|done].
    destruct (outcome fetcher (clock s)); [|done].
    intros Heq. inversion Heq; subst. simpl. by rewrite lookup_insert_eq. }
  assert (forall entry,
            cache s1 !! key = Some entry -> entry_data entry = data ->
            forall fetcher' s2,
              cache s2 !! key = Some entry ->
              (clock s2 - entry_timestamp entry < 300000)%Z ->
              getCached key fetcher' s2 = (s2, Ok data)) as Hlater.
  { intros entry _ <- fetcher' s2 Hentry Hfresh. by apply getCached_hit. }
  destruct (cache s !! key) as [cached|] eqn:Hcached.
  - destruct (clock s - entry_timestamp cached <? cacheDuration)%Z eqn:Hfresh.
    + intros Heq. inversion Heq; subst. exists cached.
      apply Z.ltb_lt in Hfresh. split; [done|]. split; [done|]. split; [done|].
      split; [by apply Hlater|done].
    + intros (Hentry & _)%Hfetch. eexists. split; [exact Hentry|].
      split; [done|]. split; [simpl; unfold cacheDuration; lia|].
      split; [by eapply Hlater|done].
  - intros (Hentry & Hclock & Hcalls)%Hfetch. eexists. split; [exact Hentry|].
    split; [done|]. split; [simpl; unfold cacheDuration; lia|].
    split; [by eapply Hlater|done].
Qed.

(** X30.  One failure stops the service for good.  A call of [getCached]
    that throws leaves [requestQueue] rejected with the error thrown; and
    on a service whose queue is rejected every call, for any key and with
    any fetcher, leaves the service exactly as it is, so sends no request,
    and either returns an entry of its key that is less than 5 minutes
    old or throws that same first error, whatever the upstream would have
    answered. *)
Theorem getCached_after_failure key fetcher s s1 e :
  getCached key fetcher s = (s1, Throw e) ->
  requestQueue s1 = Rejected e
  /\ forall key' fetcher' s2,
       requestQueue s2 = Rejected e ->
       (getCached key' fetcher' s2 = (s2, Throw e)
        \/ exists entry,
             cache s2 !! key' = Some entry
             /\ (clock s2 - entry_timestamp entry < cacheDuration)%Z
             /\ getCached key' fetcher' s2 = (s2, Ok (entry_data entry))).
Proof.
  intros Hrun. split.
  - unfold getCached, executeWithRateLimit in Hrun.
    destruct (requestQueue s) as [|e0] eqn:Hq.
    + destruct (outcome fetcher (clock s)) as [d|e1].
      * destruct (cache s !! key) as [cached|]; [|done].
        by destruct (_ <? _)%Z.
      * destruct (cache s !! key) as [cached|];
          [destruct (_ <? _)%Z; [done|]|]; by inversion Hrun; subst.
    + destruct (cache s !! key) as [cached|];
        [destruct (_ <? _)%Z; [done|]|]; by inversion Hrun; subst.
  - intros key' fetcher' s2 Hq. unfold getCached, executeWithRateLimit. rewrite Hq.
    destruct (cache s2 !! key') as [cached|] eqn:Hcached; [|by left].
    destruct (clock s2 - entry_timestamp cached <? cacheDuration)%Z eqn:Hfresh;
      [|by left].
    right. exists cached. apply Z.ltb_lt in Hfresh. by repeat split.
Qed.

End Service.

(** A price asked twice within five minutes, then after them. *)
Lemma getCached_fresh_witness :
  let s := newService (Data := nat) 5000 in
  let s1 := (getPrice flaky "bitcoin" s).1 in
  (getPrice flaky "bitcoin" s).2 = Ok 25%nat
  /\ calls s1 = [Request "/simple/price?ids=bitcoin"; Wait 1000]
  /\ getPrice flaky "bitcoin" (at_ 304999 s1) = (at_ 304999 s1, Ok 25%nat)
  /\ calls (getPrice flaky "bitcoin" (at_ 305000 s1)).1 =
       [Request "/simple/price?ids=bitcoin"; Wait 1000;
        Request "/simple/price?ids=bitcoin"; Wait 1000].
Proof.
  intros s s1.
  assert (getCached "price_bitcoin" (fetcher flaky "/simple/price?ids=bitcoin") s =
            (s1, Ok 25%nat)) as Hrun by (vm_compute; reflexivity).
  destruct (getCached_fresh _ _ _ _ _ Hrun) as (entry & Hentry & Hdata & _ & Hlater & _).
  split; [vm_compute; reflexivity|]. split; [vm_compute; reflexivity|].
  split; [|vm_compute; reflexivity].
  assert (Some entry = Some {| entry_data := 25%nat; entry_timestamp := 5000 |})
    as Heq by (rewrite <- Hentry; vm_compute; reflexivity).
  apply Hlater.
  - exact Hentry.
  - inversion Heq; subst entry. reflexivity.
Defined.

(** A price asked while the upstream is down, then the trending coins
    asked when it is up again. *)
Lemma getCached_after_failure_witness :
  let s := newService (Data := nat) 0 in
  let s1 := (getPrice flaky "bitcoin" s).1 in
  getPrice flaky "bitcoin" s = (s1, Throw "Network Error")
  /\ flaky "/search/trending" 60000%Z = Ok 16%nat
  /\ getTrending flaky (at_ 60000 s1) = (at_ 60000 s1, Throw "Network Error")
  /\ calls (at_ 60000 s1) = [Request "/simple/price?ids=bitcoin"].
Proof.
  intros s s1.
  assert (getCached "price_bitcoin" (fetcher flaky "/simple/price?ids=bitcoin") s =
            (s1, Throw "Network Error")) as Hrun by (vm_compute; reflexivity).
  destruct (getCached_after_failure _ _ _ _ _ Hrun) as [Hq Hstuck].
  split; [exact Hrun|]. split; [vm_compute; reflexivity|].
  split; [|vm_compute; reflexivity].
  destruct (Hstuck "trending" (fetcher flaky "/search/trending") (at_ 60000 s1) Hq)
    as [Hthrow|(entry & Hentry & _)]; [exact Hthrow|].
  vm_compute in Hentry. discriminate Hentry.
Defined.

End CacheFacts.
